(** * snova: update pipeline, site-domain reconciliation, supervisor restart

    A shallow embedding of [config/site_config.py] and of the parts of
    [snova/utils/snova.py] that drive an update, together with the
    properties of the design document that are settled on it.

    Conventions of the embedding.
    - Python values are the JSON-compatible ones without floats: [None],
      [bool], [int], [str], [list], and [dict] with [str] keys.  A [dict] is
      an association list in insertion order; Python keeps its keys unique
      and so do all operations below.
    - A [str] is a Rocq [string]; each character stands for the code point
      of the same number (0..255).
    - The file system is a finite map from a path to the JSON document the
      file holds.  Every write is also logged with the bytes written.
      Failures of the operating system (permissions, missing directories,
      full disks) are not part of the model.
    - The map is keyed by the path as the code spells it.  The file a path
      names is its absolute normal form, [abspath]: where a statement sets
      the files of two paths apart, it is these that differ.  Links are
      not part of the model.
    - Code of the installation that lives outside these two files (pulling
      sources, backups, migrations, asset builds, the [Snova] object, shell
      commands) is an oracle collected in the record [Env]: a step either
      returns or raises, and every invocation is logged in the trace. *)

From stdpp Require Import gmap strings list.
From Stdlib Require Import ZArith Ascii String DecimalString.

Open Scope Z_scope.
Set Warnings "-register-all".

(** ** Python dictionaries: association lists in insertion order *)

Section pydict.
Context {K V : Type} `{EqDecision K}.

(** [d.get(k)] *)
Fixpoint dict_get (k : K) (d : list (K * V)) : option V :=
  match d with
  | [] => None
  | (k', v) :: d' => if decide (k' = k) then Some v else dict_get k d'
  end.

(** [d[k] = v]: an existing key keeps its position, a new one goes last. *)
Fixpoint dict_set (k : K) (v : V) (d : list (K * V)) : list (K * V) :=
  match d with
  | [] => [(k, v)]
  | (k', v') :: d' =>
      if decide (k' = k) then (k', v) :: d' else (k', v') :: dict_set k v d'
  end.

(** [d.update(new)] *)
Definition dict_update (d new : list (K * V)) : list (K * V) :=
  fold_left (fun acc kv => dict_set kv.1 kv.2 acc) new d.

Definition dict_keys (d : list (K * V)) : list K := map fst d.
Definition dict_values (d : list (K * V)) : list V := map snd d.

(** What every Python dict satisfies: no key occurs twice. *)
Definition dict_wf (d : list (K * V)) : Prop := NoDup (dict_keys d).
End pydict.

(** ** Python values *)

Inductive json : Type :=
| JNull
| JBool (b : bool)
| JNum (n : Z)
| JStr (s : string)
| JList (l : list json)
| JObj (o : list (string * json)).

(** Truth value of an object, as [if x:] and [x or y] take it. *)
Definition truthy (j : json) : bool :=
  match j with
  | JNull => false
  | JBool b => b
  | JNum n => negb (n =? 0)
  | JStr s => negb (String.eqb s EmptyString)
  | JList l => match l with [] => false | _ => true end
  | JObj o => match o with [] => false | _ => true end
  end.

(** [a == b].  [bool] is a subclass of [int], so [True == 1]; lists compare
    element by element; dicts compare as mappings, whatever the order of
    insertion. *)
Fixpoint py_eq (a b : json) {struct a} : bool :=
  match a, b with
  | JNull, JNull => true
  | JBool x, JBool y => Bool.eqb x y
  | JBool x, JNum n => Z.b2z x =? n
  | JNum n, JBool y => n =? Z.b2z y
  | JNum n, JNum m => n =? m
  | JStr s, JStr t => String.eqb s t
  | JList l, JList m =>
      (fix list_eq (l m : list json) {struct l} : bool :=
         match l, m with
         | [], [] => true
         | x :: l', y :: m' => py_eq x y && list_eq l' m'
         | _, _ => false
         end) l m
  | JObj o, JObj p =>
      (List.length o =? List.length p)%nat &&
      (fix all_in (o : list (string * json)) {struct o} : bool :=
         match o with
         | [] => true
         | (k, v) :: o' =>
             match dict_get k p with
             | Some w => py_eq v w
             | None => false
             end && all_in o'
         end) o
  | _, _ => false
  end.

(** [a != b] *)
Definition py_ne (a b : json) : bool := negb (py_eq a b).

(** The value of an optional object: [None] when absent. *)
Definition or_none (o : option json) : json :=
  match o with Some v => v | None => JNull end.

(** Keys of a dict are compared by hash and [==]: [True] and [1] are one
    key.  Lists and dicts are unhashable. *)
Inductive pykey : Type :=
| KNone
| KInt (n : Z)
| KStr (s : string).

Global Instance pykey_eq_dec : EqDecision pykey.
Proof. solve_decision. Defined.

Global Instance pykey_countable : Countable pykey.
Proof.
  refine (inj_countable'
    (fun k => match k with
              | KNone => inl ()
              | KInt n => inr (inl n)
              | KStr s => inr (inr s)
              end)
    (fun x => match x with
              | inl _ => KNone
              | inr (inl n) => KInt n
              | inr (inr s) => KStr s
              end) _).
  by intros [].
Defined.

Definition hash_key (j : json) : option pykey :=
  match j with
  | JNull => Some KNone
  | JBool b => Some (KInt (Z.b2z b))
  | JNum n => Some (KInt n)
  | JStr s => Some (KStr s)
  | JList _ | JObj _ => None
  end.

(** ** Strings *)

(** [needle in hay] *)
Fixpoint contains (needle hay : string) : bool :=
  String.prefix needle hay ||
  match hay with
  | EmptyString => false
  | String _ hay' => contains needle hay'
  end.

(** [str(n)] for an [int] *)
Definition str_of_int (n : Z) : string := NilZero.string_of_int (Z.to_int n).

Definition tab : string := String (ascii_of_nat 9) EmptyString.
Definition newline : string := String (ascii_of_nat 10) EmptyString.

(** [c.isspace()] on the code points below 256 *)
Definition isspace (c : ascii) : bool :=
  let n := nat_of_ascii c in
  ((9 <=? n) && (n <=? 13))%nat || ((28 <=? n) && (n <=? 32))%nat ||
  (n =? 133)%nat || (n =? 160)%nat.

Fixpoint lstrip (s : string) : string :=
  match s with
  | String c s' => if isspace c then lstrip s' else s
  | EmptyString => EmptyString
  end.

Fixpoint rstrip (s : string) : string :=
  match s with
  | String c s' =>
      match rstrip s' with
      | EmptyString => if isspace c then EmptyString else String c EmptyString
      | r => String c r
      end
  | EmptyString => EmptyString
  end.

(** [s.strip()] *)
Definition strip (s : string) : string := rstrip (lstrip s).

(** [re.split(",| ", s)]: cut at every comma and every space. *)
Fixpoint re_split_comma_space (s : string) : list string :=
  match s with
  | EmptyString => [EmptyString]
  | String c s' =>
      if (Ascii.eqb c "," || Ascii.eqb c " ")%char
      then EmptyString :: re_split_comma_space s'
      else match re_split_comma_space s' with
           | w :: ws => String c w :: ws
           | [] => [String c EmptyString]
           end
  end.

(** [os.path.join] on POSIX *)
Definition ends_with_slash (s : string) : bool :=
  match String.get (String.length s - 1) s with
  | Some c => Ascii.eqb c "/"
  | None => false
  end.

Definition path_join2 (a b : string) : string :=
  if String.prefix "/" b then b
  else if String.eqb a EmptyString || ends_with_slash a then a +:+ b
  else a +:+ "/" +:+ b.

Definition path_join (a : string) (ps : list string) : string :=
  fold_left path_join2 ps a.

(** ** [json.dump(obj, f, indent=1, sort_keys=...)]

    The text the standard encoder produces with [indent=1]: one item per
    line, a nesting level indented by one space, items separated by a comma,
    key and value by a colon and a space; with the default
    [ensure_ascii=True] every character outside the printable ASCII range is
    escaped. *)

Definition quote : string := String (ascii_of_nat 34) EmptyString.
Definition backslash : string := String (ascii_of_nat 92) EmptyString.

Definition hex_digit (n : nat) : string :=
  match String.get n "0123456789abcdef" with
  | Some c => String c EmptyString
  | None => "0"
  end.

(** One character of [py_encode_basestring_ascii]. *)
Definition escape_char (c : ascii) : string :=
  let n := nat_of_ascii c in
  if (n =? 34)%nat then backslash +:+ quote
  else if (n =? 92)%nat then backslash +:+ backslash
  else if (n =? 10)%nat then backslash +:+ "n"
  else if (n =? 13)%nat then backslash +:+ "r"
  else if (n =? 9)%nat then backslash +:+ "t"
  else if (n =? 12)%nat then backslash +:+ "f"
  else if (n =? 8)%nat then backslash +:+ "b"
  else if ((32 <=? n) && (n <=? 126))%nat then String c EmptyString
  else backslash +:+ "u00" +:+ hex_digit (n / 16) +:+ hex_digit (n mod 16).

Fixpoint escape_chars (s : string) : string :=
  match s with
  | EmptyString => EmptyString
  | String c s' => escape_char c +:+ escape_chars s'
  end.

Definition encode_str (s : string) : string := quote +:+ escape_chars s +:+ quote.

Fixpoint spaces (n : nat) : string :=
  match n with O => EmptyString | S n' => " " +:+ spaces n' end.

(** ["\n" + indent * level] *)
Definition newline_indent (level : nat) : string := newline +:+ spaces level.

Fixpoint join (sep : string) (chunks : list string) : string :=
  match chunks with
  | [] => EmptyString
  | [c] => c
  | c :: cs => c +:+ sep +:+ join sep cs
  end.

(** [sorted(dct.items())]: the keys of a dict are distinct, so the order is
    the order of the keys. *)
Fixpoint insert_item {A} (kv : string * A) (l : list (string * A)) : list (string * A) :=
  match l with
  | [] => [kv]
  | kv' :: l' =>
      if String.leb kv.1 kv'.1 then kv :: l else kv' :: insert_item kv l'
  end.

Definition sort_items {A} (l : list (string * A)) : list (string * A) :=
  fold_right insert_item [] l.

(** The encoder.  The values of a dict are encoded before the items are put
    in order; the order depends on the keys alone, so the text is the one
    Python writes. *)
Fixpoint dumps (sort_keys : bool) (level : nat) (j : json) : string :=
  match j with
  | JNull => "null"
  | JBool true => "true"
  | JBool false => "false"
  | JNum n => str_of_int n
  | JStr s => encode_str s
  | JList [] => "[]"
  | JList l =>
      "[" +:+ newline_indent (S level)
      +:+ join ("," +:+ newline_indent (S level)) (map (dumps sort_keys (S level)) l)
      +:+ newline_indent level +:+ "]"
  | JObj [] => "{}"
  | JObj o =>
      let encoded := map (fun '(k, v) => (k, dumps sort_keys (S level) v)) o in
      let items := if sort_keys then sort_items encoded else encoded in
      "{" +:+ newline_indent (S level)
      +:+ join ("," +:+ newline_indent (S level))
               (map (fun '(k, text) => encode_str k +:+ ": " +:+ text) items)
      +:+ newline_indent level +:+ "}"
  end.

(** [json.dump(config, f, indent=1)] *)
Definition json_dump (config : list (string * json)) : string :=
  dumps false 0 (JObj config).

(** [json.dump(content, f, indent=1, sort_keys=True)] *)
Definition json_dump_sorted (content : list (string * json)) : string :=
  dumps true 0 (JObj content).

(** ** The file a path names

    [os.path.normpath] and [os.path.abspath] on POSIX.  Two paths name one
    file when their absolute normal forms are the same, [cwd] being the
    working directory of the process. *)

(** [s.split("/")] *)
Fixpoint split_slash (s : string) : list string :=
  match s with
  | EmptyString => [EmptyString]
  | String c s' =>
      if Ascii.eqb c "/" then EmptyString :: split_slash s'
      else match split_slash s' with
           | comp :: comps => String c comp :: comps
           | [] => [String c EmptyString]
           end
  end.

(** One or two slashes at the start are kept, three or more are one. *)
Definition initial_slashes (path : string) : nat :=
  if String.prefix "/" path then
    if String.prefix "//" path && negb (String.prefix "///" path) then 2 else 1
  else 0.

(** One turn of the loop of [normpath] over the components. *)
Definition normpath_step (slashes : nat) (new_comps : list string) (comp : string)
    : list string :=
  if String.eqb comp EmptyString || String.eqb comp "." then new_comps
  else if negb (String.eqb comp "..")
          || ((slashes =? 0)%nat && (List.length new_comps =? 0)%nat)
          || match last new_comps with
             | Some prev => String.eqb prev ".."
             | None => false
             end
       then new_comps ++ [comp]
       else removelast new_comps.

Definition normpath (path : string) : string :=
  if String.eqb path EmptyString then "."
  else
    let slashes := initial_slashes path in
    let comps := fold_left (normpath_step slashes) (split_slash path) [] in
    let path :=
      match slashes with
      | O => EmptyString
      | S O => "/"
      | _ => "//"
      end +:+ join "/" comps in
    if String.eqb path EmptyString then "." else path.

Definition abspath (cwd path : string) : string :=
  normpath (path_join2 cwd path).

(** ** Effects: files, output, calls to the rest of the installation *)

(** Code outside the two files, as it is invoked. *)
Inductive call : Type :=
| PatchesRun                                         (* patches.run *)
| BackupAllSites                                     (* backup_all_sites *)
| PullApps (apps : list string) (reset : bool)       (* pull_apps *)
| SetupRequirements                                  (* snova.setup.requirements *)
| MigrateSite (site : string)                        (* migrate_site *)
| Build                                              (* snova.build *)
| RedisGenerateConfig                                (* redis.generate_config *)
| GenerateSupervisorConfig                           (* generate_supervisor_config *)
| MakeNginxConf                                      (* make_nginx_conf *)
| Reload (web supervisor systemd : bool)             (* snova.reload *)
| PauseExec (seconds : Z)                            (* pause_exec *)
| Confirm (prompt : string)                          (* click.confirm *)
| GetCmdOutput (cmd : string)                        (* get_cmd_output *)
| Run (cmd : string).                                (* snova.run *)

Inductive event : Type :=
| EvWrite (path text : string)     (* [open(path, "w")] and the text written *)
| EvPrint (text : string)
| EvLog (text : string) (level : Z)
| EvCall (c : call).

Inductive exn : Type :=
| KeyError (key : string)
| TypeError (msg : string)
| AttributeError (msg : string)
| PatchError
| CannotUpdateReleaseSnova (msg : string)
| SystemExit (code : Z)
| Abort                                  (* click.Abort *)
| Exception (msg : string)
| CalledProcessError (returncode : Z)    (* subprocess.CalledProcessError *)
| ExternalError (msg : string).          (* any other exception of outside code *)

(** How a step of outside code can fail. *)
Inductive failure : Type :=
| ProcessFailed (returncode : Z)
| Failed (msg : string).

Definition exn_of_failure (f : failure) : exn :=
  match f with
  | ProcessFailed rc => CalledProcessError rc
  | Failed msg => ExternalError msg
  end.

Record World : Type := mkWorld {
  files : gmap string (list (string * json));
  trace : list event
}.

Inductive result (A : Type) : Type :=
| Ok (a : A)
| Raise (e : exn).
Arguments Ok {A} a.
Arguments Raise {A} e.

(** A computation reads and changes the world and returns or raises. *)
Definition M (A : Type) : Type := World -> result A * World.

Definition ret {A} (a : A) : M A := fun w => (Ok a, w).
Definition raise {A} (e : exn) : M A := fun w => (Raise e, w).
Definition bind {A B} (c : M A) (k : A -> M B) : M B :=
  fun w => match c w with
           | (Ok a, w') => k a w'
           | (Raise e, w') => (Raise e, w')
           end.

Notation "'let*' x ':=' c 'in' k" := (bind c (fun x => k))
  (at level 10, x name, c at level 100, k at level 200).
Notation "c ';;' k" := (bind c (fun _ => k))
  (at level 100, k at level 200, right associativity).

(** [try: c  except CalledProcessError as e: h e] *)
Definition try_called_process_error {A} (c : M A) (h : Z -> M A) : M A :=
  fun w => match c w with
           | (Raise (CalledProcessError rc), w') => h rc w'
           | r => r
           end.

Definition lift {A} (r : result A) : M A := fun w => (r, w).
Definition emit (e : event) : M unit :=
  fun w => (Ok tt, mkWorld (files w) (trace w ++ [e])).
Definition print (text : string) : M unit := emit (EvPrint text).
Definition log (text : string) (level : Z) : M unit := emit (EvLog text level).

(** [os.path.exists(path)] followed by [json.load]: the document of a file,
    if there is one. *)
Definition read_file (path : string) : M (option (list (string * json))) :=
  fun w => (Ok (files w !! path), w).

(** [with open(path, "w") as f: f.write(text)], [doc] being what [text]
    denotes. *)
Definition write_file (path : string) (doc : list (string * json)) (text : string) : M unit :=
  fun w => (Ok tt, mkWorld (<[path := doc]> (files w)) (trace w ++ [EvWrite path text])).

(** A step of outside code: logged, then it returns or raises. *)
Definition invoke (c : call) (outcome : option failure) : M unit :=
  emit (EvCall c);;
  match outcome with
  | None => ret tt
  | Some f => raise (exn_of_failure f)
  end.

(** Iteration [for d in x] over a Python object. *)
Fixpoint chars (s : string) : list json :=
  match s with
  | EmptyString => []
  | String c s' => JStr (String c EmptyString) :: chars s'
  end.

Definition py_iter (x : json) : result (list json) :=
  match x with
  | JList l => Ok l
  | JStr s => Ok (chars s)
  | JObj o => Ok (map JStr (dict_keys o))
  | _ => Raise (TypeError "object is not iterable")
  end.

(** [d[key]] for a Python object [d] *)
Definition py_getitem (d : json) (key : string) : result json :=
  match d with
  | JObj o =>
      match dict_get key o with
      | Some v => Ok v
      | None => Raise (KeyError key)
      end
  | _ => Raise (TypeError "object is not subscriptable")
  end.

(** [hash(k)], as a dict takes it of a key *)
Definition py_hash (k : json) : result pykey :=
  match hash_key k with
  | Some h => Ok h
  | None => Raise (TypeError "unhashable type")
  end.

(** Sequencing of pure steps that may raise. *)
Definition and_then {A B} (r : result A) (k : A -> result B) : result B :=
  match r with
  | Ok a => k a
  | Raise e => Raise e
  end.

(** * config/site_config.py *)

Definition site_config_path (snova_path site : string) : string :=
  path_join snova_path ["sites"; site; "site_config.json"].

Definition get_site_config (site snova_path : string) : M (list (string * json)) :=
  let config_path := site_config_path snova_path site in
  let* doc := read_file config_path in
  match doc with
  | None => ret []
  | Some config => ret config
  end.

Definition put_site_config (site : string) (config : list (string * json))
    (snova_path : string) : M unit :=
  let config_path := site_config_path snova_path site in
  write_file config_path config (json_dump config).

Definition update_site_config (site : string) (new_config : list (string * json))
    (snova_path : string) : M unit :=
  let* config := get_site_config site snova_path in
  let config := dict_update config new_config in
  put_site_config site config snova_path.

(** [get_site_config(...).get("domains") or []] *)
Definition get_domains (site snova_path : string) : M json :=
  let* config := get_site_config site snova_path in
  ret (match dict_get "domains" config with
       | Some v => if truthy v then v else JList []
       | None => JList []
       end).

(** The loop of [add_domain]: is an entry of this name in the list?  The
    entries are visited in order, and the first one of the name ends the
    search. *)
Fixpoint domain_listed (domain : string) (domains : list json) : result bool :=
  match domains with
  | [] => Ok false
  | d :: rest =>
      and_then
        (match d with
         | JObj _ =>
             and_then (py_getitem d "domain") (fun name => Ok (py_eq name (JStr domain)))
         | _ => Ok false
         end)
        (fun same_record =>
           if same_record || py_eq d (JStr domain) then Ok true
           else domain_listed domain rest)
  end.

(** [domains.append(x)] *)
Definition py_append (domains x : json) : result json :=
  match domains with
  | JList l => Ok (JList (l ++ [x]))
  | _ => Raise (AttributeError "object has no attribute 'append'")
  end.

Definition add_domain (site domain : string) (ssl_certificate ssl_certificate_key : json)
    (snova_path : string) : M unit :=
  let* domains := get_domains site snova_path in
  let* entries := lift (py_iter domains) in
  let* listed := lift (domain_listed domain entries) in
  if listed then print ("Domain " +:+ domain +:+ " already exists")
  else
    let entry :=
      if truthy ssl_certificate_key && truthy ssl_certificate
      then JObj [("domain", JStr domain);
                 ("ssl_certificate", ssl_certificate);
                 ("ssl_certificate_key", ssl_certificate_key)]
      else JStr domain in
    let* domains := lift (py_append domains entry) in
    update_site_config site [("domains", domains)] snova_path.

(** The loop of [get_domains_dict]: a bare name is filed as the record
    [{"domain": name}], a record under its ["domain"], anything else is
    passed over. *)
Fixpoint fill_domains_dict (domains : list json) (domains_dict : list (pykey * json))
    : result (list (pykey * json)) :=
  match domains with
  | [] => Ok domains_dict
  | d :: rest =>
      match d with
      | JStr name =>
          fill_domains_dict rest
            (dict_set (KStr name) (JObj [("domain", JStr name)]) domains_dict)
      | JObj _ =>
          and_then (py_getitem d "domain") (fun name =>
          and_then (py_hash name) (fun k =>
          fill_domains_dict rest (dict_set k d domains_dict)))
      | _ => fill_domains_dict rest domains_dict
      end
  end.

Definition get_domains_dict (domains : json) : result (list (pykey * json)) :=
  and_then (py_iter domains) (fun entries => fill_domains_dict entries []).

(** [set(a.keys()) != set(b.keys())] *)
Definition key_sets_differ (a b : list (pykey * json)) : bool :=
  negb (bool_decide (list_to_set (dict_keys a) =@{gset pykey} list_to_set (dict_keys b))).

(** The loop of [sync_domains] over [existing_domains.values()], left at
    the first record that differs. *)
Fixpoint any_record_differs (values : list json) (new_domains : list (pykey * json))
    : result bool :=
  match values with
  | [] => Ok false
  | d :: rest =>
      and_then (py_getitem d "domain") (fun name =>
      and_then (py_hash name) (fun k =>
      if py_ne d (or_none (dict_get k new_domains)) then Ok true
      else any_record_differs rest new_domains))
  end.

Definition sync_domains (site : string) (domains : json) (snova_path : string) : M bool :=
  let* existing := get_domains site snova_path in
  let* existing_domains := lift (get_domains_dict existing) in
  let* new_domains := lift (get_domains_dict domains) in
  let* changed :=
    if key_sets_differ existing_domains new_domains then ret true
    else lift (any_record_differs (dict_values existing_domains) new_domains) in
  (if changed : bool
   then update_site_config site [("domains", domains)] "."
   else ret tt);;
  ret changed.

(** * snova/utils/snova.py *)

(** The texts the functions print or log. *)

Definition msg_production_reload : string :=
  String.concat newline
    ["As you have setup your snova for production, you will have to reload configuration for nginx and supervisor. To complete the migration, please run the following commands:";
     "sudo service nginx restart";
     "sudo supervisorctl reload"].

Definition msg_shallow_clone : string :=
  String.concat newline
    ["shallow_clone is set in your snova config.";
     "However without passing the --reset flag, your repositories will be unshallowed.";
     "To avoid this, cancel this operation and run `snova update --reset`.";
     EmptyString;
     "Consider the consequences of `git reset --hard` on your apps before you run that.";
     "To avoid seeing this warning, set shallow_clone to false in your common_site_config.json";
     tab +:+ tab].

Definition msg_closing : string :=
  String.concat newline
    [EmptyString;
     "Snova: Deployment tool for Sparrow and Sparrow Applications (https://sparrow.io/snova).";
     "Open source depends on your contributions, so do give back by submitting bug reports, patches and fixes and be a part of the community :)"].

Definition msg_force : string :=
  String.concat newline
    ["Force flag has been used for a major version change in Sparrow and it's apps.";
     "This will take significant time to migrate and might break custom apps."].

Definition msg_major_tail : string :=
  String.concat newline
    [".";
     "This would take significant time to migrate and might break custom apps."].

Definition msg_master_renamed : string :=
  String.concat newline
    ["'master' branch is renamed to 'version-11' since 'version-12' release.";
     "As of January 2020, the following branches are";
     "version" +:+ tab +:+ tab +:+ "Sparrow" +:+ tab +:+ tab +:+ tab +:+ "SHOPPER";
     "11" +:+ tab +:+ tab +:+ "version-11" +:+ tab +:+ tab +:+ "version-11";
     "12" +:+ tab +:+ tab +:+ "version-12" +:+ tab +:+ tab +:+ "version-12";
     "13" +:+ tab +:+ tab +:+ "version-13" +:+ tab +:+ tab +:+ "version-13";
     "14" +:+ tab +:+ tab +:+ "develop" +:+ tab +:+ tab +:+ tab +:+ "develop";
     EmptyString;
     "Please switch to new branches to get future updates.";
     "To switch to your required branch, run the following commands: snova switch-to-branch [branch-name]"].
Definition msg_permission_denied : string :=
  "error: <class 'PermissionError'>, [Errno 13] Permission denied".

(** [s * n] *)
Fixpoint str_repeat (s : string) (n : nat) : string :=
  match n with O => EmptyString | S n' => s +:+ str_repeat s n' end.

(** What the rest of the installation answers during one run. *)
Record Env : Type := mkEnv {
  cwd : string;                            (* os.path.abspath(".") *)
  snova_name : string -> string;           (* get_snova_name(snova_path) *)
  sites : string -> list string;           (* Snova(snova_path).sites *)
  apps : list string;                      (* Snova(".").apps *)
  current_branch : string -> string;       (* get_current_branch(app) *)
  version_upgrade : bool * Z * Z;          (* is_version_upgrade() *)
  which : string -> bool;                  (* which(name) finds an executable *)
  confirmed : bool;                        (* the answer given to click.confirm *)
  patches_run : option failure;
  backup_all_sites : option failure;
  pull_apps : list string -> bool -> option failure;
  setup_requirements : option failure;
  migrate_site : string -> option failure;
  build : option failure;
  redis_generate_config : option failure;
  generate_supervisor_config : option failure;
  make_nginx_conf : option failure;
  reload : bool -> bool -> bool -> option failure;
  cmd_output : string -> string + failure; (* get_cmd_output(cmd) *)
  exit_status : string -> Z                (* the status of a command snova.run starts *)
}.

Definition common_site_config_path (snova_path : string) : string :=
  path_join snova_path ["sites"; "common_site_config.json"].

Definition update_common_site_config (ddict : list (string * json)) (snova_path : string)
    : M unit :=
  let filename := common_site_config_path snova_path in
  let* doc := read_file filename in
  let content := match doc with Some content => content | None => [] end in
  let content := dict_update content ddict in
  write_file filename content (json_dump_sorted content).

(** Modelled from the spec: [Snova(snova_path).conf], of snova/snova.py, is
    the installation-wide config, the JSON object of the one shared file;
    the store's [get]. *)
Definition snova_conf (snova_path : string) : M (list (string * json)) :=
  let* doc := read_file (common_site_config_path snova_path) in
  ret (match doc with Some content => content | None => [] end).

(** Modelled from the spec: [update_config], of
    snova/config/common_site_config.py, is the store's [update] on the
    installation-wide config: a read-modify-write merge at the top level,
    persisted. *)
Definition update_config (new_config : list (string * json)) (snova_path : string)
    : M unit :=
  update_common_site_config new_config snova_path.

Section snova.
Variable env : Env.

Definition get_cmd_output (cmd : string) : M string :=
  emit (EvCall (GetCmdOutput cmd));;
  match cmd_output env cmd with
  | inl output => ret output
  | inr f => raise (exn_of_failure f)
  end.

(** Modelled from the spec: [snova.run(cmd, _raise)], of snova/snova.py,
    starts the command and returns its exit status; a failing command is
    reported to the caller and raises only when the call asks for it. *)
Definition snova_run (cmd : string) (_raise : bool) : M Z :=
  emit (EvCall (Run cmd));;
  let return_code := exit_status env cmd in
  if negb (return_code =? 0) && _raise then raise (CalledProcessError return_code)
  else ret return_code.

Definition validate_upgrade (from_ver to_ver : Z) : M unit :=
  if (6 <=? to_ver) && negb (which env "npm") && negb (which env "node")
     && negb (which env "nodejs")
  then raise (Exception "Please install nodejs and npm")
  else ret tt.

Definition post_upgrade (from_ver to_ver : Z) (snova_path : string) : M unit :=
  let* conf := snova_conf snova_path in
  print (str_repeat "-" 80 +:+ "Your snova was upgraded to version " +:+ str_of_int to_ver);;
  if truthy (or_none (dict_get "restart_supervisor_on_update" conf)) then
    invoke RedisGenerateConfig (redis_generate_config env);;
    invoke GenerateSupervisorConfig (generate_supervisor_config env);;
    invoke MakeNginxConf (make_nginx_conf env);;
    print msg_production_reload
  else ret tt.

(** The loop of [patch_sites]. *)
Fixpoint patch_each (site_list : list string) : M unit :=
  match site_list with
  | [] => ret tt
  | site :: rest =>
      try_called_process_error
        (invoke (MigrateSite site) (migrate_site env site))
        (fun _ => raise PatchError);;
      patch_each rest
  end.

Definition patch_sites (snova_path : string) : M unit :=
  patch_each (sites env snova_path).

(** The group [restart_supervisor_processes] restarts, from the status
    the supervisor reports. *)
Definition restart_group (name : string) (web_workers : bool)
    (supervisor_status : string) : string :=
  if web_workers && contains (name +:+ "-web:") supervisor_status
  then name +:+ "-web:" +:+ tab
  else if contains (name +:+ "-workers:") supervisor_status
  then name +:+ "-workers: " +:+ name +:+ "-web:"
  else if contains (name +:+ "-processes:") supervisor_status
  then name +:+ "-processes:"
  else "sparrow:".

Definition restart_supervisor_processes (snova_path : string)
    (web_workers _raise : bool) : M unit :=
  let* conf := snova_conf snova_path in
  let cmd := or_none (dict_get "supervisor_restart_cmd" conf) in
  let name := snova_name env snova_path in
  if truthy cmd then
    (* the override is a command line; any other true value is no command *)
    match cmd with
    | JStr cmd => snova_run cmd _raise;; ret tt
    | _ => raise (TypeError "command is not a string")
    end
  else
    (* [None]: the function has returned; otherwise [sudo] and the status *)
    let* probe :=
      try_called_process_error
        (let* supervisor_status := get_cmd_output "supervisorctl status" in
         ret (Some (EmptyString, supervisor_status)))
        (fun returncode =>
           if returncode =? 127 then
             log "restart failed: Couldn't find supervisorctl in PATH" 3;;
             ret None
           else
             let* supervisor_status := get_cmd_output "sudo supervisorctl status" in
             ret (Some ("sudo ", supervisor_status))) in
    match probe with
    | None => ret tt
    | Some (sudo, supervisor_status) =>
        let* probe :=
          if String.eqb sudo EmptyString
             && contains msg_permission_denied supervisor_status
          then
            let* supervisor_status := get_cmd_output "sudo supervisorctl status" in
            ret ("sudo ", supervisor_status)
          else ret (sudo, supervisor_status) in
        let sudo := probe.1 in
        let supervisor_status := probe.2 in
        let group := restart_group name web_workers supervisor_status in
        let* failure := snova_run (sudo +:+ "supervisorctl restart " +:+ group) _raise in
        if negb (failure =? 0)
        then log "restarting supervisor failed. Use `snova restart` to retry." 3
        else ret tt
    end.

Definition handle_version_upgrade (version_upgrade : bool * Z * Z) (snova_path : string)
    (force reset : bool) (conf : list (string * json)) : M unit :=
  let '(major, from_ver, to_ver) := version_upgrade in
  (if major then
     if force then log msg_force 3
     else
       print ("This update will cause a major version change in Sparrow/SHOPPER from "
              +:+ str_of_int from_ver +:+ " to " +:+ str_of_int to_ver +:+ msg_major_tail);;
       emit (EvCall (Confirm "Do you want to continue?"));;
       if confirmed env then ret tt else raise Abort
   else ret tt);;
  (if negb reset && truthy (or_none (dict_get "shallow_clone" conf)) then
     log msg_shallow_clone 3;;
     invoke (PauseExec 10) None
   else ret tt);;
  if major || (negb major && force) then validate_upgrade from_ver to_ver
  else ret tt.

(** The loop of [validate_branch] over the tracked apps that are
    installed. *)
Fixpoint check_branches (tracked : list string) : M unit :=
  match tracked with
  | [] => ret tt
  | app :: rest =>
      if String.eqb (current_branch env app) "master" then
        print msg_master_renamed;;
        raise (SystemExit 1)
      else check_branches rest
  end.

Definition validate_branch : M unit :=
  let installed_apps := apps env in
  let check_apps := ["sparrow"; "shopper"] in
  let intersection_apps :=
    filter (fun app => bool_decide (app ∈ installed_apps)) check_apps in
  check_branches intersection_apps.

(** The arguments of [update]. *)
Record UpdateArgs : Type := mkUpdateArgs {
  arg_pull : bool;
  arg_apps : option string;
  arg_patch : bool;
  arg_build : bool;
  arg_requirements : bool;
  arg_backup : bool;
  arg_compile : bool;
  arg_force : bool;
  arg_reset : bool;
  arg_restart_supervisor : bool;
  arg_restart_systemd : bool
}.

(** [[app.strip() for app in re.split(",| ", apps) if app]] *)
Definition split_apps (apps : string) : list string :=
  map strip (filter (fun app => negb (String.eqb app EmptyString))
                    (re_split_comma_space apps)).

Definition update (args : UpdateArgs) : M unit :=
  let snova_path := cwd env in
  invoke PatchesRun (patches_run env);;
  let* conf := snova_conf snova_path in
  if truthy (or_none (dict_get "release_snova" conf)) then
    raise (CannotUpdateReleaseSnova "Release snova detected, cannot update!")
  else
  let '(pull, patch, build_, requirements) :=
    if negb (arg_pull args || arg_patch args || arg_build args || arg_requirements args)
    then (true, true, true, true)
    else (arg_pull args, arg_patch args, arg_build args, arg_requirements args) in
  let apps :=
    match arg_apps args with
    | Some apps =>
        if negb (String.eqb apps EmptyString) && pull then split_apps apps else []
    | None => []
    end in
  validate_branch;;
  let version_upgrade := version_upgrade env in
  handle_version_upgrade version_upgrade snova_path (arg_force args) (arg_reset args) conf;;
  let conf := dict_update conf [("maintenance_mode", JNum 1); ("pause_scheduler", JNum 1)] in
  update_config conf snova_path;;
  (if arg_backup args then
     print "Backing up sites...";;
     invoke BackupAllSites (backup_all_sites env)
   else ret tt);;
  (if pull then
     print "Updating apps source...";;
     invoke (PullApps apps (arg_reset args)) (pull_apps env apps (arg_reset args))
   else ret tt);;
  (if requirements then
     print "Setting up requirements...";;
     invoke SetupRequirements (setup_requirements env)
   else ret tt);;
  (if patch then
     print "Patching sites...";;
     patch_sites snova_path
   else ret tt);;
  (if build_ then
     print "Building assets...";;
     invoke Build (build env)
   else ret tt);;
  (if version_upgrade.1.1 || (negb version_upgrade.1.1 && arg_force args) then
     post_upgrade version_upgrade.1.2 version_upgrade.2 snova_path
   else ret tt);;
  invoke (Reload false (arg_restart_supervisor args) (arg_restart_systemd args))
         (reload env false (arg_restart_supervisor args) (arg_restart_systemd args));;
  let conf := dict_update conf [("maintenance_mode", JNum 0); ("pause_scheduler", JNum 0)] in
  update_config conf snova_path;;
  print (str_repeat "_" 80 +:+ msg_closing).
End snova.


(** ** config/site_config.py: the other operations *)

(** [domains.remove(d)] for a member [d] of the list: the first member
    equal to it goes, [d] itself at the latest. *)
Fixpoint list_remove (d : json) (l : list json) : list json :=
  match l with
  | [] => []
  | x :: l' => if py_eq x d then l' else x :: list_remove d l'
  end.

Definition py_remove (domains d : json) : result json :=
  match domains with
  | JList l => Ok (JList (list_remove d l))
  | _ => Raise (AttributeError "object has no attribute 'remove'")
  end.

(** The loop of [remove_domain]: the entry at which it breaks, if any. *)
Fixpoint first_named (domain : string) (domains : list json) : result (option json) :=
  match domains with
  | [] => Ok None
  | d :: rest =>
      and_then
        (match d with
         | JObj _ =>
             and_then (py_getitem d "domain") (fun name => Ok (py_eq name (JStr domain)))
         | _ => Ok false
         end)
        (fun same_record =>
           if same_record || py_eq d (JStr domain) then Ok (Some d)
           else first_named domain rest)
  end.

Definition remove_domain (site domain snova_path : string) : M unit :=
  let* domains := get_domains site snova_path in
  let* entries := lift (py_iter domains) in
  let* found := lift (first_named domain entries) in
  let* domains :=
    match found with
    | Some d => lift (py_remove domains d)
    | None => ret domains
    end in
  update_site_config site [("domains", domains)] snova_path.

Definition set_url_root (site : string) (url_root : json) (snova_path : string) : M unit :=
  update_site_config site [("host_name", url_root)] snova_path.

Section nginx_properties.
Variable env : Env.

Definition set_site_config_nginx_property (site : string) (config : list (string * json))
    (snova_path : string) (gen_config : bool) : M unit :=
  if negb (bool_decide (site ∈ sites env snova_path)) then
    raise (Exception "No such site")
  else
    update_site_config site config snova_path;;
    if gen_config then invoke MakeNginxConf (make_nginx_conf env) else ret tt.

Definition set_nginx_port (site : string) (port : json) (snova_path : string)
    (gen_config : bool) : M unit :=
  set_site_config_nginx_property site [("nginx_port", port)] snova_path gen_config.

Definition set_ssl_certificate (site : string) (ssl_certificate : json)
    (snova_path : string) (gen_config : bool) : M unit :=
  set_site_config_nginx_property site [("ssl_certificate", ssl_certificate)] snova_path
    gen_config.

Definition set_ssl_certificate_key (site : string) (ssl_certificate_key : json)
    (snova_path : string) (gen_config : bool) : M unit :=
  set_site_config_nginx_property site [("ssl_certificate_key", ssl_certificate_key)]
    snova_path gen_config.
End nginx_properties.

(** ** snova/utils/snova.py: the hosts of the installation-wide config *)

Definition set_mariadb_host (host : json) (snova_path : string) : M unit :=
  update_common_site_config [("db_host", host)] snova_path.

(** For the three redis settings [host] is the text of the command line. *)
Definition set_redis_cache_host (host snova_path : string) : M unit :=
  update_common_site_config [("redis_cache", JStr ("redis://" +:+ host))] snova_path.

Definition set_redis_queue_host (host snova_path : string) : M unit :=
  update_common_site_config [("redis_queue", JStr ("redis://" +:+ host))] snova_path.

Definition set_redis_socketio_host (host snova_path : string) : M unit :=
  update_common_site_config [("redis_socketio", JStr ("redis://" +:+ host))] snova_path.

(** ** snova/utils/snova.py: the merge of the apps' package.json *)

(** One turn of the inner loop of [update_npm_packages]: what the entry
    [key: value] of an app's package.json does to [package_json]. *)
Definition merge_entry (package_json : list (string * json)) (key : string) (value : json)
    : result (list (string * json)) :=
  match dict_get key package_json with
  | None => Ok (dict_set key value package_json)
  | Some stored =>
      match value with
      | JObj value =>
          match stored with
          | JObj stored => Ok (dict_set key (JObj (dict_update stored value)) package_json)
          | _ => Raise (AttributeError "object has no attribute 'update'")
          end
      | JList value =>
          match stored with
          | JList stored => Ok (dict_set key (JList (stored ++ value)) package_json)
          | _ => Raise (AttributeError "object has no attribute 'extend'")
          end
      | _ => Ok (dict_set key value package_json)
      end
  end.

(** The inner loop, over the entries of one app's package.json. *)
Fixpoint merge_entries (app_package_json package_json : list (string * json))
    : result (list (string * json)) :=
  match app_package_json with
  | [] => Ok package_json
  | (key, value) :: rest =>
      and_then (merge_entry package_json key value) (merge_entries rest)
  end.

(** * Properties *)

(** The installation-wide config and the config of a site, as stored. *)
Definition installation_config (snova_path : string) (w : World) : list (string * json) :=
  default [] (files w !! common_site_config_path snova_path).

Definition site_config (snova_path site : string) (w : World) : list (string * json) :=
  default [] (files w !! site_config_path snova_path site).

(** ** Dictionaries *)

Section pydict_facts.
Context {K V : Type} `{EqDecision K}.
Implicit Types (d new : list (K * V)) (k : K) (v : V).

Lemma dict_get_set_eq k v d : dict_get k (dict_set k v d) = Some v.
Proof.
  induction d as [|[k' v'] d IH]; simpl.
  - by rewrite decide_True.
  - destruct (decide (k' = k)) as [->|Hne]; simpl.
    + by rewrite decide_True.
    + by rewrite decide_False.
Qed.

Lemma dict_get_set_ne k k' v d : k <> k' -> dict_get k' (dict_set k v d) = dict_get k' d.
Proof.
  intros Hne. induction d as [|[k0 v0] d IH]; simpl.
  - by rewrite decide_False.
  - destruct (decide (k0 = k)) as [->|Hne0]; simpl.
    + by rewrite !decide_False.
    + destruct (decide (k0 = k')); [done | apply IH].
Qed.

Lemma dict_keys_set_in k v d :
  is_Some (dict_get k d) -> dict_keys (dict_set k v d) = dict_keys d.
Proof.
  induction d as [|[k0 v0] d IH]; simpl.
  - by intros [? ?].
  - destruct (decide (k0 = k)) as [->|Hne]; simpl; [done |].
    intros Hs. f_equal. by apply IH.
Qed.

Lemma dict_keys_set_new k v d :
  dict_get k d = None -> dict_keys (dict_set k v d) = dict_keys d ++ [k].
Proof.
  induction d as [|[k0 v0] d IH]; simpl; [done |].
  destruct (decide (k0 = k)) as [->|Hne]; simpl; [done |].
  intros Hn. f_equal. by apply IH.
Qed.

Lemma dict_get_None_keys k d : dict_get k d = None <-> k ∉ dict_keys d.
Proof.
  induction d as [|[k0 v0] d IH]; simpl.
  - split; [intros _; apply not_elem_of_nil | done].
  - rewrite not_elem_of_cons. destruct (decide (k0 = k)) as [->|Hne].
    + split; [done | by intros [? _]].
    + rewrite IH. split; [by intros ?; split | by intros [_ ?]].
Qed.

Lemma dict_get_Some_keys k d : is_Some (dict_get k d) <-> k ∈ dict_keys d.
Proof.
  rewrite <- not_eq_None_Some, dict_get_None_keys.
  split; [apply dec_stable | by intros ? ?].
Qed.

Lemma dict_get_elem_of k v d : dict_get k d = Some v -> (k, v) ∈ d.
Proof.
  induction d as [|[k0 v0] d IH]; simpl; [done |].
  destruct (decide (k0 = k)) as [->|Hne].
  - intros [= ->]. apply list_elem_of_here.
  - intros Hg. apply list_elem_of_further. by apply IH.
Qed.

Lemma dict_elem_of_get k v d : dict_wf d -> (k, v) ∈ d -> dict_get k d = Some v.
Proof.
  unfold dict_wf. induction d as [|[k0 v0] d IH]; simpl.
  - intros _ Hin. by apply elem_of_nil in Hin.
  - rewrite NoDup_cons. intros [Hnotin Hnd] Hin.
    apply elem_of_cons in Hin as [[= -> ->]|Hin].
    + by rewrite decide_True.
    + destruct (decide (k0 = k)) as [->|Hne]; [| by apply IH].
      exfalso. apply Hnotin. apply list_elem_of_fmap. by exists (k, v).
Qed.

Lemma dict_set_wf k v d : dict_wf d -> dict_wf (dict_set k v d).
Proof.
  unfold dict_wf. intros Hwf.
  destruct (dict_get k d) as [v0|] eqn:Hg.
  - rewrite dict_keys_set_in; [done | by exists v0].
  - rewrite dict_keys_set_new by done.
    apply NoDup_app. split; [done |]. split; [| apply NoDup_singleton].
    intros x Hx Hx'. apply list_elem_of_singleton in Hx' as ->.
    by apply dict_get_None_keys in Hg.
Qed.

Lemma dict_update_wf d new : dict_wf d -> dict_wf (dict_update d new).
Proof.
  unfold dict_update. revert d.
  induction new as [|[k v] new IH]; intros d Hwf; simpl; [done |].
  apply IH. by apply dict_set_wf.
Qed.

(** [d.update(new)] gives every key of [new] the value [new] has for it
    and leaves every other key as it was. *)
Lemma dict_get_update k d new :
  dict_wf new ->
  dict_get k (dict_update d new) =
    match dict_get k new with
    | Some v => Some v
    | None => dict_get k d
    end.
Proof.
  unfold dict_update, dict_wf. revert d.
  induction new as [|[k0 v0] new IH]; intros d Hwf; simpl; [done |].
  apply NoDup_cons in Hwf as [Hnotin Hnd].
  rewrite IH by done.
  destruct (decide (k0 = k)) as [->|Hne].
  - apply (dict_get_None_keys k new) in Hnotin. rewrite Hnotin.
    apply dict_get_set_eq.
  - destruct (dict_get k new); [done |]. by apply dict_get_set_ne.
Qed.
End pydict_facts.

(** ** ConfigStore: update and the writers *)

Ltac solve_dict_wf :=
  unfold dict_wf; simpl;
  match goal with
  | |- NoDup ?l => exact (bool_decide_unpack (NoDup l) I)
  end.

(** C9.  For every stored config and every partial mapping, both
    [update_site_config] and [update_common_site_config] merge at the top
    level only: a key the partial mapping does not have keeps the value it
    had, and a key it has gets the value of the partial mapping as it is,
    whatever was stored under that key before (no deep merge). *)
Theorem update_merges_top_level_only
    (site snova_path : string) (partial : list (string * json)) (w : World) :
  dict_wf partial ->
  let site_run := update_site_config site partial snova_path w in
  let common_run := update_common_site_config partial snova_path w in
  site_run.1 = Ok tt /\
  common_run.1 = Ok tt /\
  (forall k,
     dict_get k (site_config snova_path site site_run.2) =
       match dict_get k partial with
       | Some v => Some v
       | None => dict_get k (site_config snova_path site w)
       end) /\
  (forall k,
     dict_get k (installation_config snova_path common_run.2) =
       match dict_get k partial with
       | Some v => Some v
       | None => dict_get k (installation_config snova_path w)
       end).
Proof.
  intros Hwf. cbv zeta.
  unfold update_site_config, put_site_config, get_site_config,
    update_common_site_config, site_config, installation_config,
    write_file, read_file, bind, ret.
  repeat split.
  - by destruct (files w !! site_config_path snova_path site).
  - intros k.
    destruct (files w !! site_config_path snova_path site) as [config|]; simpl;
      rewrite lookup_insert_eq; simpl; by rewrite dict_get_update.
  - intros k. simpl. rewrite lookup_insert_eq. simpl.
    destruct (files w !! common_site_config_path snova_path); simpl;
      by rewrite dict_get_update.
Qed.

Definition nested_world : World :=
  mkWorld
    {[ "./sites/site1/site_config.json" :=
         [("db_name", JStr "db1");
          ("limits", JObj [("space", JNum 5); ("users", JNum 3)])];
       "./sites/common_site_config.json" :=
         [("maintenance_mode", JNum 0);
          ("limits", JObj [("space", JNum 5); ("users", JNum 3)])] ]}
    [].

Lemma update_merges_top_level_only_witness :
  dict_wf [("limits", JObj [("space", JNum 9)])] /\
  dict_get "limits"
    (site_config "." "site1"
       (update_site_config "site1" [("limits", JObj [("space", JNum 9)])] "."
          nested_world).2)
  = Some (JObj [("space", JNum 9)]) /\
  dict_get "db_name"
    (site_config "." "site1"
       (update_site_config "site1" [("limits", JObj [("space", JNum 9)])] "."
          nested_world).2)
  = Some (JStr "db1").
Proof.
  assert (Hwf : dict_wf [("limits", JObj [("space", JNum 9)])]) by solve_dict_wf.
  split; [exact Hwf |].
  destruct (update_merges_top_level_only "site1" "." _ nested_world Hwf)
    as (_ & _ & Hsite & _).
  split; rewrite Hsite; reflexivity.
Defined.

(** C10.  The two writers on one mapping given in two orders of insertion:
    [put_site_config] dumps without [sort_keys] and writes two different
    texts, [update_common_site_config] dumps with [sort_keys=True] and
    writes the same text twice. *)
Theorem site_config_writer_keeps_insertion_order :
  let a := [("host_name", JStr "a.com"); ("nginx_port", JNum 8000)] in
  let b := [("nginx_port", JNum 8000); ("host_name", JStr "a.com")] in
  let w := mkWorld ∅ [] in
  py_eq (JObj a) (JObj b) = true /\
  trace (put_site_config "site1" a "." w).2 =
    [EvWrite "./sites/site1/site_config.json" (json_dump a)] /\
  trace (put_site_config "site1" b "." w).2 =
    [EvWrite "./sites/site1/site_config.json" (json_dump b)] /\
  json_dump a <> json_dump b /\
  trace (update_common_site_config a "." w).2 =
    trace (update_common_site_config b "." w).2.
Proof.
  cbv zeta. repeat split; try reflexivity.
  vm_compute. discriminate.
Qed.

(** ** Running computations *)

Lemma bind_ok {A B} (c : M A) (k : A -> M B) (w w' : World) (a : A) :
  c w = (Ok a, w') -> bind c k w = k a w'.
Proof. unfold bind. by intros ->. Qed.

Lemma bind_raise {A B} (c : M A) (k : A -> M B) (w w' : World) (e : exn) :
  c w = (Raise e, w') -> bind c k w = (Raise e, w').
Proof. unfold bind. by intros ->. Qed.

Lemma snova_conf_run (snova_path : string) (w : World) :
  snova_conf snova_path w = (Ok (installation_config snova_path w), w).
Proof.
  unfold snova_conf, installation_config, read_file, bind, ret.
  by destruct (files w !! common_site_config_path snova_path).
Qed.

Lemma get_site_config_run (site snova_path : string) (w : World) :
  get_site_config site snova_path w = (Ok (site_config snova_path site w), w).
Proof.
  unfold get_site_config, site_config, read_file, bind, ret.
  by destruct (files w !! site_config_path snova_path site).
Qed.

(** The domain list of a site, as [get_domains] reads it. *)
Definition stored_domains (snova_path site : string) (w : World) : json :=
  match dict_get "domains" (site_config snova_path site w) with
  | Some v => if truthy v then v else JList []
  | None => JList []
  end.

Lemma get_domains_run (site snova_path : string) (w : World) :
  get_domains site snova_path w = (Ok (stored_domains snova_path site w), w).
Proof.
  unfold get_domains. by rewrite (bind_ok _ _ _ _ _ (get_site_config_run _ _ _)).
Qed.

Lemma update_site_config_run (site snova_path : string) (new_config : list (string * json))
    (w : World) :
  update_site_config site new_config snova_path w =
    (Ok tt,
     mkWorld
       (<[site_config_path snova_path site :=
            dict_update (site_config snova_path site w) new_config]> (files w))
       (trace w ++ [EvWrite (site_config_path snova_path site)
                      (json_dump (dict_update (site_config snova_path site w) new_config))])).
Proof.
  unfold update_site_config.
  by rewrite (bind_ok _ _ _ _ _ (get_site_config_run _ _ _)).
Qed.

Lemma update_common_site_config_run (snova_path : string) (ddict : list (string * json))
    (w : World) :
  update_common_site_config ddict snova_path w =
    (Ok tt,
     mkWorld
       (<[common_site_config_path snova_path :=
            dict_update (installation_config snova_path w) ddict]> (files w))
       (trace w ++ [EvWrite (common_site_config_path snova_path)
                      (json_dump_sorted
                         (dict_update (installation_config snova_path w) ddict))])).
Proof.
  unfold update_common_site_config, installation_config, read_file, write_file, bind.
  by destruct (files w !! common_site_config_path snova_path).
Qed.

(** ** ProcessManagerResolver *)

(** An installation in which every step succeeds: the starting point of the
    concrete runs below. *)
Definition calm_env : Env :=
  mkEnv "/home/sparrow/myinstall" (fun _ => "myinstall") (fun _ => ["site1"; "site2"])
    ["sparrow"; "shopper"] (fun _ => "develop") (false, 14, 14) (fun _ => true) true
    None None (fun _ _ => None) None (fun _ => None) None None None None
    (fun _ _ _ => None)
    (fun _ => inl "myinstall-web:myinstall-sparrow-web RUNNING")
    (fun _ => 0).

(** [env] with another answer of [get_cmd_output]. *)
Definition with_cmd_output (env : Env) (answer : string -> string + failure) : Env :=
  mkEnv (cwd env) (snova_name env) (sites env) (apps env) (current_branch env)
    (version_upgrade env) (which env) (confirmed env) (patches_run env)
    (backup_all_sites env) (pull_apps env) (setup_requirements env) (migrate_site env)
    (build env) (redis_generate_config env) (generate_supervisor_config env)
    (make_nginx_conf env) (reload env) answer (exit_status env).

Definition no_restart_override (snova_path : string) (w : World) : Prop :=
  truthy (or_none (dict_get "supervisor_restart_cmd" (installation_config snova_path w)))
  = false.

(** C6.  Without an override command, when the plain status probe fails
    with exit status 127, [restart_supervisor_processes] returns normally;
    all it has done is the probe and the warning: no escalated probe, no
    restart command. *)
Theorem restart_skipped_when_supervisorctl_not_found
    (env : Env) (snova_path : string) (web_workers _raise : bool) (w : World) :
  no_restart_override snova_path w ->
  cmd_output env "supervisorctl status" = inr (ProcessFailed 127) ->
  restart_supervisor_processes env snova_path web_workers _raise w =
    (Ok tt,
     mkWorld (files w)
       (trace w ++ [EvCall (GetCmdOutput "supervisorctl status");
                    EvLog "restart failed: Couldn't find supervisorctl in PATH" 3])).
Proof.
  unfold no_restart_override. intros Hcmd Hprobe.
  unfold restart_supervisor_processes.
  rewrite (bind_ok _ _ _ _ _ (snova_conf_run snova_path w)). cbv beta zeta.
  rewrite Hcmd.
  unfold bind, try_called_process_error, get_cmd_output, bind, emit, log, emit, ret.
  rewrite Hprobe. simpl.
  by rewrite <- app_assoc.
Qed.

Lemma restart_skipped_when_supervisorctl_not_found_witness :
  restart_supervisor_processes
    (with_cmd_output calm_env (fun _ => inr (ProcessFailed 127))) "." true true
    (mkWorld ∅ [])
  = (Ok tt,
     mkWorld ∅ [EvCall (GetCmdOutput "supervisorctl status");
                EvLog "restart failed: Couldn't find supervisorctl in PATH" 3]).
Proof.
  apply (restart_skipped_when_supervisorctl_not_found
           (with_cmd_output calm_env (fun _ => inr (ProcessFailed 127))) "." true true
           (mkWorld ∅ [])); reflexivity.
Defined.

(** The order of preference of the design: the web-only group when only
    the web workers restart and it is listed, else the combined group when
    the workers group is listed, else the legacy group when it is listed,
    else the fixed name.  The web-only group is written with a tab after
    it. *)
Inductive selected_group (name : string) (web_only : bool) (status : string)
    : string -> Prop :=
| select_web :
    web_only = true ->
    contains (name +:+ "-web:") status = true ->
    selected_group name web_only status (name +:+ "-web:" +:+ tab)
| select_combined :
    web_only && contains (name +:+ "-web:") status = false ->
    contains (name +:+ "-workers:") status = true ->
    selected_group name web_only status (name +:+ "-workers: " +:+ name +:+ "-web:")
| select_legacy :
    web_only && contains (name +:+ "-web:") status = false ->
    contains (name +:+ "-workers:") status = false ->
    contains (name +:+ "-processes:") status = true ->
    selected_group name web_only status (name +:+ "-processes:")
| select_fallback :
    web_only && contains (name +:+ "-web:") status = false ->
    contains (name +:+ "-workers:") status = false ->
    contains (name +:+ "-processes:") status = false ->
    selected_group name web_only status "sparrow:".

Lemma restart_group_selected (name : string) (web_only : bool) (status : string) :
  selected_group name web_only status (restart_group name web_only status).
Proof.
  unfold restart_group.
  destruct (web_only && contains (name +:+ "-web:") status) eqn:Hweb.
  - apply andb_true_iff in Hweb as [? ?]. by apply select_web.
  - destruct (contains (name +:+ "-workers:") status) eqn:Hworkers;
      [by apply select_combined |].
    destruct (contains (name +:+ "-processes:") status) eqn:Hlegacy;
      [by apply select_legacy | by apply select_fallback].
Qed.

Lemma selected_group_unique (name : string) (web_only : bool) (status g1 g2 : string) :
  selected_group name web_only status g1 ->
  selected_group name web_only status g2 ->
  g1 = g2.
Proof.
  intros H1 H2.
  destruct H1; destruct H2; try reflexivity;
    repeat match goal with
           | H : ?b = true, H' : ?c && ?b = false |- _ =>
               rewrite H in H'; rewrite andb_true_r in H'
           end; congruence.
Qed.

(** The blank the code writes after the web-only group is no part of the
    name. *)
Lemma web_only_group_name (name : string) :
  rstrip (name +:+ "-web:" +:+ tab) = name +:+ "-web:".
Proof.
  induction name as [|c name IH]; [reflexivity |].
  change (rstrip (String c (name +:+ "-web:" +:+ tab)) = String c (name +:+ "-web:")).
  cbn [rstrip]. rewrite IH. by destruct name.
Qed.

(** C7.  After a successful probe the restart is issued on the group
    chosen in the order of preference, the first convention listed in the
    status winning: the web-only group [<name>-web:], which the command
    line has with a tab after it, else the combined group, else the legacy
    group, else the fixed name.  So a status listing [<name>-web:] with only
    the web workers asked for gives the web-only group, and a status
    listing [<name>-workers:] without that gives the combined group. *)
Theorem restart_group_by_priority
    (env : Env) (snova_path : string) (web_workers _raise : bool) (w : World)
    (status : string) :
  no_restart_override snova_path w ->
  cmd_output env "supervisorctl status" = inl status ->
  contains msg_permission_denied status = false ->
  let name := snova_name env snova_path in
  exists group tail,
    selected_group name web_workers status group /\
    trace (restart_supervisor_processes env snova_path web_workers _raise w).2 =
      trace w ++ [EvCall (GetCmdOutput "supervisorctl status");
                  EvCall (Run ("supervisorctl restart " +:+ group))] ++ tail /\
    (forall c, EvCall c ∉ tail) /\
    (web_workers = true -> contains (name +:+ "-web:") status = true ->
     group = name +:+ "-web:" +:+ tab /\ rstrip group = name +:+ "-web:") /\
    (web_workers = false -> contains (name +:+ "-workers:") status = true ->
     group = name +:+ "-workers: " +:+ name +:+ "-web:").
Proof.
  unfold no_restart_override. intros Hcmd Hprobe Hperm.
  set (name := snova_name env snova_path).
  pose proof (restart_group_selected name web_workers status) as Hsel.
  exists (restart_group name web_workers status).
  unfold restart_supervisor_processes.
  rewrite (bind_ok _ _ _ _ _ (snova_conf_run snova_path w)). cbv beta zeta.
  rewrite Hcmd.
  unfold bind, try_called_process_error, get_cmd_output, bind, emit, ret.
  rewrite Hprobe. simpl. rewrite Hperm. simpl.
  fold name. unfold snova_run, bind, emit, ret, raise, log, emit. simpl.
  set (cmd := "supervisorctl restart " +:+ restart_group name web_workers status).
  assert (Hgroups :
    (web_workers = true -> contains (name +:+ "-web:") status = true ->
     restart_group name web_workers status = name +:+ "-web:" +:+ tab /\
     rstrip (restart_group name web_workers status) = name +:+ "-web:") /\
    (web_workers = false -> contains (name +:+ "-workers:") status = true ->
     restart_group name web_workers status = name +:+ "-workers: " +:+ name +:+ "-web:")).
  { split; intros Hw Hc.
    - assert (Hweb : restart_group name web_workers status = name +:+ "-web:" +:+ tab)
        by (eapply selected_group_unique; [exact Hsel | by apply select_web]).
      split; [exact Hweb |]. rewrite Hweb. apply web_only_group_name.
    - eapply selected_group_unique; [exact Hsel |].
      apply select_combined; [by rewrite Hw | done]. }
  change (EmptyString +:+ cmd) with cmd.
  destruct Hgroups as [Hweb Hcombined].
  destruct (negb (exit_status env cmd =? 0)) eqn:Hfail; simpl.
  - destruct _raise; simpl.
    + exists []. rewrite <- app_assoc. simpl.
      split_and!; try done. intros c Hc. by apply elem_of_nil in Hc.
    + rewrite Hfail. simpl.
      exists [EvLog "restarting supervisor failed. Use `snova restart` to retry." 3].
      rewrite <- !app_assoc. simpl. split_and!; try done.
      intros c Hc. apply list_elem_of_singleton in Hc. discriminate.
  - rewrite Hfail. simpl. exists []. rewrite <- app_assoc. simpl.
    split_and!; try done. intros c Hc. by apply elem_of_nil in Hc.
Qed.

Lemma restart_group_by_priority_witness :
  exists group tail,
    selected_group "myinstall" true "myinstall-web:myinstall-sparrow-web RUNNING" group /\
    trace (restart_supervisor_processes calm_env "." true false (mkWorld ∅ [])).2 =
      [] ++ [EvCall (GetCmdOutput "supervisorctl status");
             EvCall (Run ("supervisorctl restart " +:+ group))] ++ tail /\
    (forall c, EvCall c ∉ tail) /\
    (true = true ->
     contains ("myinstall" +:+ "-web:") "myinstall-web:myinstall-sparrow-web RUNNING" = true ->
     group = "myinstall" +:+ "-web:" +:+ tab /\ rstrip group = "myinstall" +:+ "-web:") /\
    (true = false ->
     contains ("myinstall" +:+ "-workers:") "myinstall-web:myinstall-sparrow-web RUNNING"
     = true ->
     group = "myinstall" +:+ "-workers: " +:+ "myinstall" +:+ "-web:").
Proof.
  apply (restart_group_by_priority calm_env "." true false (mkWorld ∅ [])
           "myinstall-web:myinstall-sparrow-web RUNNING"); reflexivity.
Defined.

(** ** DomainReconciler *)

(** An entry of the list carries the name: the bare name itself, or a
    record whose ["domain"] is the name. *)
Definition entry_named (domain : string) (e : json) : Prop :=
  e = JStr domain \/ exists o, e = JObj o /\ dict_get "domain" o = Some (JStr domain).

(** A record of a domain list has a ["domain"]. *)
Definition record_has_domain (e : json) : Prop :=
  match e with
  | JObj o => is_Some (dict_get "domain" o)
  | _ => True
  end.

Lemma py_eq_str (s t : string) : py_eq (JStr s) (JStr t) = true <-> s = t.
Proof. simpl. apply String.eqb_eq. Qed.

Lemma domain_listed_found (domain : string) (entries : list json) :
  Forall record_has_domain entries ->
  (exists e, e ∈ entries /\ entry_named domain e) ->
  domain_listed domain entries = Ok true.
Proof.
  induction entries as [|d rest IH]; intros Hwf (e & Hin & Hnamed).
  - by apply elem_of_nil in Hin.
  - apply Forall_cons in Hwf as [Hd Hrest]. simpl.
    assert (Hlater : e <> d -> domain_listed domain rest = Ok true).
    { intros Hne. apply IH; [done |]. exists e. split; [| done].
      apply elem_of_cons in Hin as [? | ?]; [done | done]. }
    destruct d as [| b | n | s | l | o]; simpl.
    1-3, 5: apply Hlater; intros ->;
      destruct Hnamed as [? | (? & ? & ?)]; discriminate.
    + destruct (String.eqb s domain) eqn:Hs; [done |].
      apply Hlater. intros ->. destruct Hnamed as [[= ->] | (? & ? & ?)]; [| done].
      by rewrite String.eqb_refl in Hs.
    + destruct Hd as [v Hv]. rewrite Hv. simpl.
      destruct (py_eq v (JStr domain)) eqn:Hv'; simpl; [done |].
      apply Hlater. intros ->. destruct Hnamed as [? | (o' & [= <-] & Hd')]; [done |].
      rewrite Hd' in Hv. injection Hv as <-.
      simpl in Hv'. by rewrite String.eqb_refl in Hv'.
Qed.

(** C8.  When the stored domain list of a site has an entry of the name,
    bare or record, [add_domain] with that name prints that the domain
    already exists and does nothing else: no file is written and the stored
    list stays as it is. *)
Theorem add_domain_existing_is_noop
    (site domain : string) (ssl_certificate ssl_certificate_key : json)
    (snova_path : string) (w : World) (entries : list json) :
  stored_domains snova_path site w = JList entries ->
  Forall record_has_domain entries ->
  (exists e, e ∈ entries /\ entry_named domain e) ->
  add_domain site domain ssl_certificate ssl_certificate_key snova_path w =
    (Ok tt,
     mkWorld (files w)
       (trace w ++ [EvPrint ("Domain " +:+ domain +:+ " already exists")])).
Proof.
  intros Hstored Hwf Hnamed. unfold add_domain.
  rewrite (bind_ok _ _ _ _ _ (get_domains_run site snova_path w)).
  rewrite Hstored. unfold lift, bind. simpl.
  by rewrite (domain_listed_found domain entries Hwf Hnamed).
Qed.

Definition two_domain_world : World :=
  mkWorld
    {[ "./sites/site1/site_config.json" :=
         [("domains",
           JList [JStr "a.com";
                  JObj [("domain", JStr "b.com");
                        ("ssl_certificate", JStr "X");
                        ("ssl_certificate_key", JStr "Y")]])] ]}
    [].

Lemma add_domain_existing_is_noop_witness :
  add_domain "site1" "a.com" (JStr "/etc/cert.pem") (JStr "/etc/key.pem") "."
    two_domain_world
  = (Ok tt, mkWorld (files two_domain_world) [EvPrint "Domain a.com already exists"]).
Proof.
  apply (add_domain_existing_is_noop "site1" "a.com" _ _ "." two_domain_world
           [JStr "a.com";
            JObj [("domain", JStr "b.com"); ("ssl_certificate", JStr "X");
                  ("ssl_certificate_key", JStr "Y")]]).
  - reflexivity.
  - repeat constructor. by exists (JStr "b.com").
  - exists (JStr "a.com"). split; [apply list_elem_of_here | by left].
Defined.

(** *** The dictionary of canonical records *)

(** A record is filed under the key its ["domain"] hashes to. *)
Definition keyed (k : pykey) (r : json) : Prop :=
  exists name, py_getitem r "domain" = Ok name /\ hash_key name = Some k.

(** What [get_domains_dict] builds: a dict, every record under its own
    name. *)
Definition domains_dict_inv (dd : list (pykey * json)) : Prop :=
  dict_wf dd /\ forall k r, (k, r) ∈ dd -> keyed k r.

Lemma dict_set_elem_of {K V} `{EqDecision K} (k k' : K) (v v' : V) (d : list (K * V)) :
  (k', v') ∈ dict_set k v d -> (k' = k /\ v' = v) \/ (k', v') ∈ d.
Proof.
  induction d as [|[k0 v0] d IH]; simpl.
  - intros Hin. apply list_elem_of_singleton in Hin as [= -> ->]. by left.
  - destruct (decide (k0 = k)) as [->|Hne]; intros Hin;
      apply elem_of_cons in Hin as [[= -> ->] | Hin].
    + by left.
    + right. by apply list_elem_of_further.
    + right. apply list_elem_of_here.
    + destruct (IH Hin) as [? | ?]; [by left |]. right. by apply list_elem_of_further.
Qed.

Lemma domains_dict_inv_set (k : pykey) (r : json) (dd : list (pykey * json)) :
  domains_dict_inv dd -> keyed k r -> domains_dict_inv (dict_set k r dd).
Proof.
  intros [Hwf Hall] Hk. split; [by apply dict_set_wf |].
  intros k' r' Hin. apply dict_set_elem_of in Hin as [[-> ->] | Hin]; [done |].
  by apply Hall.
Qed.

Lemma fill_domains_dict_inv (entries : list json) (acc dd : list (pykey * json)) :
  domains_dict_inv acc ->
  fill_domains_dict entries acc = Ok dd ->
  domains_dict_inv dd.
Proof.
  revert acc. induction entries as [|d rest IH]; intros acc Hacc; simpl.
  - by intros [= <-].
  - destruct d as [| b | n | s | l | o]; try by apply IH.
    + apply IH. apply domains_dict_inv_set; [done |].
      exists (JStr s). by split.
    + simpl. destruct (dict_get "domain" o) as [name|] eqn:Hname; simpl; [| done].
      unfold py_hash. destruct (hash_key name) as [k|] eqn:Hk; simpl; [| done].
      apply IH. apply domains_dict_inv_set; [done |].
      exists name. simpl. by rewrite Hname.
Qed.

Lemma get_domains_dict_inv (domains : json) (dd : list (pykey * json)) :
  get_domains_dict domains = Ok dd -> domains_dict_inv dd.
Proof.
  unfold get_domains_dict. destruct (py_iter domains) as [entries|]; simpl; [| done].
  apply fill_domains_dict_inv. split; [apply NoDup_nil_2 |].
  intros k r Hin. by apply elem_of_nil in Hin.
Qed.

(** The loop over the existing records compares each one with the record
    the new dict has under the same key. *)
Lemma any_record_differs_none (l new_domains : list (pykey * json)) :
  (forall k r, (k, r) ∈ l ->
     keyed k r /\ py_ne r (or_none (dict_get k new_domains)) = false) ->
  any_record_differs (dict_values l) new_domains = Ok false.
Proof.
  induction l as [|[k r] l IH]; intros Hall; simpl; [done |].
  destruct (Hall k r) as [(name & Hname & Hk) Hsame]; [apply list_elem_of_here |].
  rewrite Hname. simpl. unfold py_hash. rewrite Hk. simpl. rewrite Hsame.
  apply IH. intros k' r' Hin. apply Hall. by apply list_elem_of_further.
Qed.

Lemma any_record_differs_some (l new_domains : list (pykey * json)) :
  (forall k r, (k, r) ∈ l -> keyed k r) ->
  (exists k r, (k, r) ∈ l /\ py_ne r (or_none (dict_get k new_domains)) = true) ->
  any_record_differs (dict_values l) new_domains = Ok true.
Proof.
  induction l as [|[k r] l IH]; intros Hall (k1 & r1 & Hin & Hne); simpl.
  - by apply elem_of_nil in Hin.
  - destruct (Hall k r) as (name & Hname & Hk); [apply list_elem_of_here |].
    rewrite Hname. simpl. unfold py_hash. rewrite Hk. simpl.
    destruct (py_ne r (or_none (dict_get k new_domains))) eqn:Hhere; [done |].
    apply IH.
    + intros k' r' Hin'. apply Hall. by apply list_elem_of_further.
    + exists k1, r1. split; [| done].
      apply elem_of_cons in Hin as [[= -> ->] | Hin]; [congruence | done].
Qed.

Lemma key_sets_differ_false (a b : list (pykey * json)) :
  key_sets_differ a b = false <->
  list_to_set (dict_keys a) =@{gset pykey} list_to_set (dict_keys b).
Proof.
  unfold key_sets_differ. rewrite negb_false_iff. apply bool_decide_eq_true.
Qed.

(** What [sync_domains] does once both lists are normalised. *)
Lemma sync_domains_run (site : string) (domains : json) (snova_path : string) (w : World)
    (existing_domains new_domains : list (pykey * json)) (changed : bool) :
  get_domains_dict (stored_domains snova_path site w) = Ok existing_domains ->
  get_domains_dict domains = Ok new_domains ->
  (if key_sets_differ existing_domains new_domains then Ok true
   else any_record_differs (dict_values existing_domains) new_domains) = Ok changed ->
  sync_domains site domains snova_path w =
    (Ok changed,
     if changed then (update_site_config site [("domains", domains)] "." w).2 else w).
Proof.
  intros Hexisting Hnew Hchanged. unfold sync_domains.
  rewrite (bind_ok _ _ _ _ _ (get_domains_run site snova_path w)).
  unfold lift at 1. rewrite Hexisting. unfold bind at 1.
  unfold lift at 1. rewrite Hnew. unfold bind at 1.
  destruct (key_sets_differ existing_domains new_domains).
  - injection Hchanged as <-. unfold bind, ret.
    by rewrite update_site_config_run.
  - unfold lift. rewrite Hchanged. unfold bind, ret.
    destruct changed; [by rewrite update_site_config_run | done].
Qed.

(** Two normalised lists that say the same: the same set of names, and for
    each name records that are equal. *)
Definition same_records (a b : list (pykey * json)) : Prop :=
  list_to_set (dict_keys a) =@{gset pykey} list_to_set (dict_keys b) /\
  forall k r1 r2, dict_get k a = Some r1 -> dict_get k b = Some r2 -> py_eq r1 r2 = true.

Definition same_domains (existing proposed : json) : Prop :=
  exists a b,
    get_domains_dict existing = Ok a /\ get_domains_dict proposed = Ok b /\
    same_records a b.

(** C3.  When the proposed list says the same as the stored one (the same
    set of names, equal canonical records for each name, in whatever order
    and mix of bare names and records), [sync_domains] returns [False] and
    leaves the world as it is: nothing is written. *)
Theorem sync_domains_same_is_unchanged
    (site : string) (proposed : json) (snova_path : string) (w : World) :
  same_domains (stored_domains snova_path site w) proposed ->
  sync_domains site proposed snova_path w = (Ok false, w).
Proof.
  intros (a & b & Ha & Hb & Hkeys & Hrecords).
  rewrite (sync_domains_run site proposed snova_path w a b false Ha Hb); [done |].
  apply key_sets_differ_false in Hkeys as Hsame. rewrite Hsame.
  destruct (get_domains_dict_inv _ _ Ha) as [Hwf Hkeyed].
  apply any_record_differs_none. intros k r Hin. split; [by apply Hkeyed |].
  pose proof (dict_elem_of_get k r a Hwf Hin) as Hget.
  assert (Hk : k ∈ dict_keys b).
  { apply (elem_of_list_to_set (C := gset pykey)). rewrite <- Hkeys.
    apply elem_of_list_to_set. apply dict_get_Some_keys. by rewrite Hget. }
  apply dict_get_Some_keys in Hk as [r2 Hr2]. rewrite Hr2. simpl.
  unfold py_ne. by rewrite (Hrecords k r r2 Hget Hr2).
Qed.

Lemma sync_domains_same_is_unchanged_witness :
  sync_domains "site1"
    (JList [JObj [("ssl_certificate_key", JStr "Y"); ("domain", JStr "b.com");
                  ("ssl_certificate", JStr "X")];
            JObj [("domain", JStr "a.com")]])
    "." two_domain_world
  = (Ok false, two_domain_world).
Proof.
  apply sync_domains_same_is_unchanged.
  eexists _, _. split; [reflexivity |]. split; [reflexivity |]. split.
  - simpl. set_solver.
  - intros k r1 r2. simpl.
    repeat case_decide; intros; simplify_eq; reflexivity.
Defined.

(** C4.  When the stored and the proposed list have the same set of names
    and the canonical records of some name differ, [sync_domains] returns
    [True]; so it does when the stored list is [a.com] and a record for
    [b.com] with a certificate and a key, and the proposed list is the two
    bare names. *)
Theorem sync_domains_detects_record_difference :
  (forall (site : string) (proposed : json) (snova_path : string) (w : World)
          (a b : list (pykey * json)),
     get_domains_dict (stored_domains snova_path site w) = Ok a ->
     get_domains_dict proposed = Ok b ->
     list_to_set (dict_keys a) =@{gset pykey} list_to_set (dict_keys b) ->
     (exists k r1 r2,
        dict_get k a = Some r1 /\ dict_get k b = Some r2 /\ py_eq r1 r2 = false) ->
     (sync_domains site proposed snova_path w).1 = Ok true) /\
  stored_domains "." "site1" two_domain_world =
    JList [JStr "a.com";
           JObj [("domain", JStr "b.com"); ("ssl_certificate", JStr "X");
                 ("ssl_certificate_key", JStr "Y")]] /\
  (sync_domains "site1" (JList [JStr "a.com"; JStr "b.com"]) "." two_domain_world).1
  = Ok true.
Proof.
  split; [| split; reflexivity].
  intros site proposed snova_path w a b Ha Hb Hkeys (k & r1 & r2 & H1 & H2 & Hne).
  rewrite (sync_domains_run site proposed snova_path w a b true Ha Hb); [done |].
  apply key_sets_differ_false in Hkeys. rewrite Hkeys.
  destruct (get_domains_dict_inv _ _ Ha) as [Hwf Hkeyed].
  apply any_record_differs_some; [done |].
  exists k, r1. split; [by apply dict_get_elem_of |].
  rewrite H2. simpl. unfold py_ne. by rewrite Hne.
Qed.

Lemma sync_domains_detects_record_difference_witness :
  (sync_domains "site1"
     (JList [JStr "a.com";
             JObj [("domain", JStr "b.com"); ("ssl_certificate", JStr "Z");
                   ("ssl_certificate_key", JStr "Y")]])
     "." two_domain_world).1
  = Ok true.
Proof.
  eapply (proj1 sync_domains_detects_record_difference); [reflexivity .. |].
  exists (KStr "b.com"). eexists _, _.
  split; [reflexivity |]. split; reflexivity.
Defined.

(** The site config of [site] under [snova_path] and the one under ["."]
    are two files. *)
Definition another_install (cwd snova_path site : string) : Prop :=
  abspath cwd (site_config_path snova_path site) <> abspath cwd (site_config_path "." site).

Lemma another_install_path (cwd snova_path site : string) :
  another_install cwd snova_path site ->
  site_config_path snova_path site <> site_config_path "." site.
Proof. intros Hother Hsame. apply Hother. by rewrite Hsame. Qed.

(** C5.  Whenever [sync_domains] finds a change, the one write it issues
    goes to the site config under ["."], whatever [snova_path] is: that
    file holds the merged config afterwards and no file but that one has
    changed.  So when [snova_path] is another installation than the
    working directory [cwd], the config that was read is as it was, and
    [True] is returned all the same. *)
Theorem sync_domains_writes_under_cwd
    (cwd site : string) (domains : json) (snova_path : string) (w w' : World) :
  sync_domains site domains snova_path w = (Ok true, w') ->
  trace w' =
    trace w ++ [EvWrite (site_config_path "." site)
                  (json_dump (dict_update (site_config "." site w) [("domains", domains)]))] /\
  files w' !! site_config_path "." site =
    Some (dict_update (site_config "." site w) [("domains", domains)]) /\
  (forall path, abspath cwd path <> abspath cwd (site_config_path "." site) ->
     files w' !! path = files w !! path) /\
  (another_install cwd snova_path site ->
   files w' !! site_config_path snova_path site =
   files w !! site_config_path snova_path site).
Proof.
  unfold sync_domains.
  rewrite (bind_ok _ _ _ _ _ (get_domains_run site snova_path w)).
  unfold lift at 1, bind at 1.
  destruct (get_domains_dict (stored_domains snova_path site w)) as [a|]; [| done].
  unfold lift at 1, bind at 1.
  destruct (get_domains_dict domains) as [b|]; [| done].
  unfold bind at 1.
  assert (Hwrite : forall r,
    bind (if r : bool then update_site_config site [("domains", domains)] "." else ret tt)
         (fun _ => ret r) w = (Ok true, w') ->
    w' = (update_site_config site [("domains", domains)] "." w).2).
  { intros [] Hr; unfold bind, ret in Hr.
    - rewrite update_site_config_run in Hr. rewrite update_site_config_run.
      by injection Hr as <-.
    - discriminate. }
  intros Hrun.
  assert (Hw' : w' = (update_site_config site [("domains", domains)] "." w).2).
  { destruct (key_sets_differ a b).
    - by apply (Hwrite true).
    - unfold lift in Hrun.
      destruct (any_record_differs (dict_values a) b) as [r|]; [| done].
      exact (Hwrite r Hrun). }
  rewrite update_site_config_run in Hw'. subst w'. cbn [files trace snd].
  assert (Hkept : forall path,
            abspath cwd path <> abspath cwd (site_config_path "." site) ->
            <[site_config_path "." site :=
                dict_update (site_config "." site w) [("domains", domains)]]> (files w)
              !! path = files w !! path).
  { intros path Hother. apply lookup_insert_ne. intros Hsame. apply Hother.
    by rewrite Hsame. }
  split_and!.
  - done.
  - by rewrite lookup_insert_eq.
  - exact Hkept.
  - intros Hother. by apply Hkept.
Qed.

Definition other_install_world : World :=
  mkWorld
    {[ "/srv/install/sites/site1/site_config.json" := [("domains", JList [JStr "a.com"])];
       "./sites/site1/site_config.json" := [("db_name", JStr "db1")] ]}
    [].

Lemma sync_domains_writes_under_cwd_witness :
  let run := sync_domains "site1" (JList [JStr "b.com"]) "/srv/install" other_install_world in
  another_install "/home/sparrow/myinstall" "/srv/install" "site1" /\
  run.1 = Ok true /\
  files run.2 !! "/srv/install/sites/site1/site_config.json"
  = Some [("domains", JList [JStr "a.com"])] /\
  files run.2 !! "./sites/site1/site_config.json"
  = Some [("db_name", JStr "db1"); ("domains", JList [JStr "b.com"])].
Proof.
  cbv zeta.
  assert (Hother : another_install "/home/sparrow/myinstall" "/srv/install" "site1")
    by (vm_compute; discriminate).
  destruct (sync_domains_writes_under_cwd "/home/sparrow/myinstall" "site1"
              (JList [JStr "b.com"]) "/srv/install" other_install_world
              (sync_domains "site1" (JList [JStr "b.com"]) "/srv/install"
                 other_install_world).2)
    as (_ & Hwritten & _ & Hread).
  - reflexivity.
  - split; [exact Hother |]. split; [reflexivity |]. split.
    + etrans; [exact (Hread Hother) | reflexivity].
    + etrans; [exact Hwritten | reflexivity].
Defined.

(** The spellings of the working directory name the file under ["."]:
    they are no other installation. *)
Lemma working_directory_spellings :
  ~ another_install "/home/sparrow/myinstall" EmptyString "site1" /\
  ~ another_install "/home/sparrow/myinstall" "/home/sparrow/myinstall" "site1" /\
  ~ another_install "/home/sparrow/myinstall" "./" "site1".
Proof. split_and!; intros Hother; apply Hother; reflexivity. Qed.

(** ** UpdateOrchestrator *)

(** *** Where a [PatchError] can come from

    [triple R P c Q]: started in a world with [P], the computation [c]
    returns in a world with [Q], or raises; and when what it raises is
    [PatchError], the world has [R]. *)
Section patch_error_logic.
Variable R : World -> Prop.

Definition triple {A} (P : World -> Prop) (c : M A) (Q : A -> World -> Prop) : Prop :=
  forall w, P w ->
    match c w with
    | (Ok a, w') => Q a w'
    | (Raise e, w') => e = PatchError -> R w'
    end.

Lemma triple_ret {A} (P : World -> Prop) (a : A) : triple P (ret a) (fun _ => P).
Proof. by intros w Hw. Qed.

Lemma triple_raise {A} (P : World -> Prop) (Q : A -> World -> Prop) (e : exn) :
  e <> PatchError -> triple P (raise e) Q.
Proof. intros He w Hw. simpl. by intros ->. Qed.

Lemma triple_bind {A B} (P : World -> Prop) (c : M A) (Q : A -> World -> Prop)
    (k : A -> M B) (S : B -> World -> Prop) :
  triple P c Q -> (forall a, triple (Q a) (k a) S) -> triple P (bind c k) S.
Proof.
  intros Hc Hk w Hw. unfold bind. specialize (Hc w Hw).
  destruct (c w) as [[a|e] w']; [by apply Hk | done].
Qed.

Lemma triple_weaken {A} (P P' : World -> Prop) (c : M A) (Q Q' : A -> World -> Prop) :
  triple P' c Q' -> (forall w, P w -> P' w) -> (forall a w, Q' a w -> Q a w) ->
  triple P c Q.
Proof.
  intros Hc HP HQ w Hw. specialize (Hc w (HP w Hw)).
  destruct (c w) as [[a|e] w']; [by apply HQ | done].
Qed.

(** A property of the world that an event of the kind [ok] keeps. *)
Definition stable (ok : event -> Prop) (P : World -> Prop) : Prop :=
  forall w e, ok e -> P w -> P (mkWorld (files w) (trace w ++ [e])).

Lemma triple_emit (ok : event -> Prop) (P : World -> Prop) (e : event) :
  stable ok P -> ok e -> triple P (emit e) (fun _ => P).
Proof. intros HP He w Hw. by apply HP. Qed.

Lemma triple_invoke (ok : event -> Prop) (P : World -> Prop) (c : call)
    (outcome : option failure) :
  stable ok P -> ok (EvCall c) -> triple P (invoke c outcome) (fun _ => P).
Proof.
  intros HP Hc. unfold invoke. eapply triple_bind; [by apply (triple_emit ok) |].
  intros ?. destruct outcome as [f|]; [| apply triple_ret].
  apply triple_raise. by destruct f.
Qed.

Lemma triple_snova_conf (P : World -> Prop) (snova_path : string) :
  triple P (snova_conf snova_path)
    (fun conf w => P w /\ conf = installation_config snova_path w).
Proof. intros w Hw. by rewrite snova_conf_run. Qed.
End patch_error_logic.

Section update_facts.
Variable env : Env.
Variable w0 : World.

(** An event other than the build and the reload. *)
Definition quiet (e : event) : Prop :=
  match e with
  | EvCall Build | EvCall (Reload _ _ _) => False
  | _ => True
  end.

Definition quiet_since (w : World) : Prop :=
  exists evs, trace w = trace w0 ++ evs /\ Forall quiet evs.

(** Before the pipeline enters maintenance: no file has changed. *)
Definition before_maintenance (w : World) : Prop :=
  files w = files w0 /\ quiet_since w.

(** In maintenance: the stored flag is 1. *)
Definition in_maintenance (w : World) : Prop :=
  dict_get "maintenance_mode" (installation_config (cwd env) w) = Some (JNum 1) /\
  quiet_since w.

Lemma quiet_since_stable : stable quiet quiet_since.
Proof.
  intros w e He (evs & Htrace & Hquiet). exists (evs ++ [e]). simpl.
  rewrite Htrace, <- app_assoc. split; [done |].
  apply Forall_app. split; [done |]. by apply Forall_singleton.
Qed.

Lemma before_maintenance_stable : stable quiet before_maintenance.
Proof. intros w e He [Hfiles Hq]. split; [done | by apply quiet_since_stable]. Qed.

Lemma in_maintenance_stable : stable quiet in_maintenance.
Proof. intros w e He [Hflag Hq]. split; [done | by apply quiet_since_stable]. Qed.

Lemma anything_stable : stable (fun _ => True) (fun _ => True).
Proof. done. Qed.

Local Abbreviation halted := (triple in_maintenance).

Lemma triple_print (ok : event -> Prop) (P : World -> Prop) (text : string) :
  stable ok P -> ok (EvPrint text) -> halted P (print text) (fun _ => P).
Proof. intros HP Hok. by apply (triple_emit _ ok). Qed.

Lemma triple_log (ok : event -> Prop) (P : World -> Prop) (text : string) (level : Z) :
  stable ok P -> ok (EvLog text level) -> halted P (log text level) (fun _ => P).
Proof. intros HP Hok. by apply (triple_emit _ ok). Qed.

Lemma triple_validate_upgrade (P : World -> Prop) (from_ver to_ver : Z) :
  halted P (validate_upgrade env from_ver to_ver) (fun _ => P).
Proof.
  unfold validate_upgrade.
  destruct (_ && _); [by apply triple_raise | apply triple_ret].
Qed.

Lemma triple_check_branches (P : World -> Prop) (tracked : list string) :
  stable quiet P -> halted P (check_branches env tracked) (fun _ => P).
Proof.
  intros HP. induction tracked as [|app rest IH]; simpl; [apply triple_ret |].
  destruct (String.eqb (current_branch env app) "master"); [| done].
  eapply triple_bind; [by apply (triple_print quiet) |].
  intros ?. by apply triple_raise.
Qed.

Lemma triple_handle_version_upgrade (P : World -> Prop) (upgrade : bool * Z * Z)
    (snova_path : string) (force reset : bool) (conf : list (string * json)) :
  stable quiet P ->
  halted P (handle_version_upgrade env upgrade snova_path force reset conf) (fun _ => P).
Proof.
  intros HP. destruct upgrade as [[major from_ver] to_ver]. unfold handle_version_upgrade.
  eapply triple_bind.
  { destruct major; [| apply triple_ret].
    destruct force; [by apply (triple_log quiet) |].
    eapply triple_bind; [by apply (triple_print quiet) |]. intros ?.
    eapply triple_bind; [by apply (triple_emit _ quiet) |]. intros ?.
    destruct (confirmed env); [apply triple_ret | by apply triple_raise]. }
  intros ?. eapply triple_bind.
  { destruct (_ && _); [| apply triple_ret].
    eapply triple_bind; [by apply (triple_log quiet) |]. intros ?.
    by apply (triple_invoke _ quiet). }
  intros ?. destruct (_ || _); [apply triple_validate_upgrade | apply triple_ret].
Qed.

(** Every migration is quiet, and a failing one stops the loop where it
    is. *)
Lemma triple_patch_each (site_list : list string) :
  halted in_maintenance (patch_each env site_list) (fun _ => in_maintenance).
Proof.
  induction site_list as [|site rest IH]; simpl; [apply triple_ret |].
  eapply triple_bind; [| intros ?; exact IH].
  intros w Hw. unfold try_called_process_error, invoke, bind, emit, raise, ret.
  pose proof (in_maintenance_stable w (EvCall (MigrateSite site)) I Hw) as Hw'.
  by destruct (migrate_site env site) as [[rc|msg]|]; simpl.
Qed.

Lemma triple_post_upgrade (from_ver to_ver : Z) (snova_path : string) :
  halted (fun _ => True) (post_upgrade env from_ver to_ver snova_path) (fun _ _ => True).
Proof.
  unfold post_upgrade. eapply triple_bind; [apply triple_snova_conf |].
  intros conf. eapply triple_bind.
  { eapply triple_weaken; [by apply (triple_print (fun _ => True) (fun _ => True)) | done..]. }
  intros ?. destruct (truthy _); [| by apply triple_ret].
  repeat (eapply triple_bind;
          [by apply (triple_invoke _ (fun _ => True) (fun _ => True)) | intros ?]).
  by apply (triple_print (fun _ => True) (fun _ => True)).
Qed.

Lemma triple_update_config (P : World -> Prop) (Q : World -> Prop)
    (new_config : list (string * json)) (snova_path : string) :
  (forall w, P w ->
     Q (mkWorld
          (<[common_site_config_path snova_path :=
               dict_update (installation_config snova_path w) new_config]> (files w))
          (trace w ++ [EvWrite (common_site_config_path snova_path)
                         (json_dump_sorted
                            (dict_update (installation_config snova_path w) new_config))]))) ->
  halted P (update_config new_config snova_path) (fun _ => Q).
Proof.
  intros HQ w Hw. unfold update_config. rewrite update_common_site_config_run.
  by apply HQ.
Qed.
Lemma triple_pure {A} (fact : Prop) (P : World -> Prop) (c : M A)
    (Q : A -> World -> Prop) :
  (fact -> halted P c Q) -> halted (fun w => P w /\ fact) c Q.
Proof. intros Hc w [Hw Hfact]. by apply Hc. Qed.

Lemma triple_forget {A} (P : World -> Prop) (c : M A) :
  halted (fun _ => True) c (fun _ _ => True) -> halted P c (fun _ _ => True).
Proof. intros Hc. by eapply triple_weaken. Qed.

(** A stage of the pipeline that is announced and then handed to outside
    code. *)
Lemma triple_stage (ok : event -> Prop) (P : World -> Prop) (enabled : bool)
    (text : string) (c : call) (outcome : option failure) :
  stable ok P -> ok (EvPrint text) -> ok (EvCall c) ->
  halted P (if enabled then print text;; invoke c outcome else ret tt) (fun _ => P).
Proof.
  intros HP Htext Hc. destruct enabled; [| apply triple_ret].
  eapply triple_bind; [by apply (triple_print ok) | intros ?].
  by apply (triple_invoke _ ok).
Qed.

Lemma maintenance_entered (conf : list (string * json)) (w : World) :
  dict_wf conf ->
  before_maintenance w ->
  in_maintenance
    (mkWorld
       (<[common_site_config_path (cwd env) :=
            dict_update (installation_config (cwd env) w)
              (dict_update conf [("maintenance_mode", JNum 1); ("pause_scheduler", JNum 1)])]>
          (files w))
       (trace w ++ [EvWrite (common_site_config_path (cwd env))
                      (json_dump_sorted
                         (dict_update (installation_config (cwd env) w)
                            (dict_update conf [("maintenance_mode", JNum 1);
                                               ("pause_scheduler", JNum 1)])))])).
Proof.
  intros Hwf [Hfiles Hquiet]. split.
  - unfold installation_config at 1. simpl. rewrite lookup_insert_eq. simpl.
    rewrite dict_get_update by (by repeat apply dict_set_wf).
    rewrite dict_get_set_ne by done. by rewrite dict_get_set_eq.
  - by apply (quiet_since_stable w (EvWrite _ _)).
Qed.

Ltac side_condition :=
  first [ exact I
        | apply before_maintenance_stable
        | apply in_maintenance_stable
        | apply anything_stable ].

Ltac step lemma := eapply triple_bind; [apply lemma; side_condition | intros ?].

(** The whole pipeline: a [PatchError] leaves it in maintenance, with
    neither build nor reload behind it. *)
Lemma triple_update (args : UpdateArgs) :
  dict_wf (installation_config (cwd env) w0) ->
  halted before_maintenance (update env args) (fun _ _ => True).
Proof.
  intros Hwf. unfold update.
  step (triple_invoke in_maintenance quiet).
  eapply triple_bind; [apply triple_snova_conf | intros conf].
  eapply triple_weaken with
    (P' := fun w => before_maintenance w /\ conf = installation_config (cwd env) w0)
    (Q' := fun _ _ => True); [| | done].
  2: { intros w [[Hfiles Hquiet] ->]. split; [done |].
       unfold installation_config. by rewrite Hfiles. }
  apply triple_pure. intros ->.
  destruct (truthy _); [by apply triple_raise |].
  destruct (if negb _ then _ else _) as [[[pull patch] build_] requirements].
  step triple_check_branches.
  step triple_handle_version_upgrade.
  eapply triple_bind.
  { apply triple_update_config with (Q := in_maintenance).
    intros w Hw. by apply maintenance_entered. }
  intros ?.
  step (triple_stage quiet).
  step (triple_stage quiet).
  step (triple_stage quiet).
  eapply triple_bind.
  { instantiate (1 := fun _ => in_maintenance).
    destruct patch; [| apply triple_ret].
    step (triple_print quiet).
    apply triple_patch_each. }
  intros ?. apply triple_forget.
  step (triple_stage (fun _ => True)).
  eapply triple_bind.
  { instantiate (1 := fun _ _ => True).
    destruct (_ || _); [apply triple_post_upgrade | by apply triple_ret]. }
  intros ?.
  step (triple_invoke in_maintenance (fun _ => True)).
  eapply triple_bind; [by apply triple_update_config with (Q := fun _ => True) | intros ?].
  eapply triple_weaken;
    [apply (triple_print (fun _ => True)); side_condition | done..].
Qed.
End update_facts.

(** C1.  When [update] ends in [PatchError] (raised by [patch_sites], and
    by nothing else, when the migration of a site fails), the stored
    installation config has [maintenance_mode] 1, and among the events of
    the run there is neither the build nor the reload. *)
Theorem patch_error_leaves_maintenance_on
    (env : Env) (args : UpdateArgs) (w w' : World) :
  dict_wf (installation_config (cwd env) w) ->
  update env args w = (Raise PatchError, w') ->
  dict_get "maintenance_mode" (installation_config (cwd env) w') = Some (JNum 1) /\
  exists evs,
    trace w' = trace w ++ evs /\
    (EvCall Build ∉ evs) /\
    (forall web supervisor systemd, EvCall (Reload web supervisor systemd) ∉ evs).
Proof.
  intros Hwf Hrun.
  assert (Hstart : before_maintenance w w).
  { split; [done |]. exists []. by rewrite app_nil_r. }
  pose proof (triple_update env w args Hwf w Hstart) as Hend.
  rewrite Hrun in Hend. destruct (Hend eq_refl) as [Hflag (evs & Htrace & Hquiet)].
  split; [done |]. exists evs. split; [done |].
  rewrite Forall_forall in Hquiet.
  split; [| intros web supervisor systemd]; intros Hin; exact (Hquiet _ Hin).
Qed.

(** [env] where the migration of site2 fails. *)
Definition failing_migration_env : Env :=
  mkEnv (cwd calm_env) (snova_name calm_env) (sites calm_env) (apps calm_env)
    (current_branch calm_env) (version_upgrade calm_env) (which calm_env)
    (confirmed calm_env) (patches_run calm_env) (backup_all_sites calm_env)
    (pull_apps calm_env) (setup_requirements calm_env)
    (fun site => if String.eqb site "site2" then Some (ProcessFailed 1) else None)
    (build calm_env) (redis_generate_config calm_env)
    (generate_supervisor_config calm_env) (make_nginx_conf calm_env) (reload calm_env)
    (cmd_output calm_env) (exit_status calm_env).

Definition default_args : UpdateArgs :=
  mkUpdateArgs false None false false false true true false false false false.

Definition fresh_install_world : World :=
  mkWorld
    {[ "/home/sparrow/myinstall/sites/common_site_config.json" :=
         [("db_host", JStr "localhost"); ("maintenance_mode", JNum 0);
          ("pause_scheduler", JNum 0)] ]}
    [].

Lemma patch_error_leaves_maintenance_on_witness :
  let run := update failing_migration_env default_args fresh_install_world in
  run.1 = Raise PatchError /\
  dict_get "maintenance_mode" (installation_config "/home/sparrow/myinstall" run.2)
  = Some (JNum 1) /\
  exists evs,
    trace run.2 = [] ++ evs /\
    (EvCall Build ∉ evs) /\
    (forall web supervisor systemd, EvCall (Reload web supervisor systemd) ∉ evs).
Proof.
  cbv zeta. split; [reflexivity |].
  apply (patch_error_leaves_maintenance_on failing_migration_env default_args
           fresh_install_world).
  - solve_dict_wf.
  - reflexivity.
Defined.

Definition release_blocked : exn :=
  CannotUpdateReleaseSnova "Release snova detected, cannot update!".

(** C2, with the internal patches that run first.  On an installation whose config has a true
    [release_snova], [update] runs the internal patches first; when they
    return, it raises the upgrade-blocked error, having written no file
    and started nothing else: no backup, no pull, no other step. *)
Theorem update_blocked_on_release_install
    (env : Env) (args : UpdateArgs) (w : World) :
  truthy (or_none (dict_get "release_snova" (installation_config (cwd env) w))) = true ->
  patches_run env = None ->
  update env args w =
    (Raise release_blocked, mkWorld (files w) (trace w ++ [EvCall PatchesRun])).
Proof.
  intros Hrelease Hpatches. unfold update.
  unfold invoke. rewrite Hpatches.
  unfold bind at 1. unfold bind at 1. unfold emit at 1, ret at 1.
  rewrite (bind_ok _ _ _ _ _ (snova_conf_run _ _)).
  unfold installation_config in *. simpl. by rewrite Hrelease.
Qed.

Definition release_world : World :=
  mkWorld
    {[ "/home/sparrow/myinstall/sites/common_site_config.json" :=
         [("release_snova", JBool true)] ]}
    [].

Lemma update_blocked_on_release_install_witness :
  update calm_env default_args release_world =
    (Raise release_blocked, mkWorld (files release_world) [EvCall PatchesRun]).
Proof.
  apply (update_blocked_on_release_install calm_env default_args release_world);
    reflexivity.
Defined.

(** [env] where the internal patches fail. *)
Definition failing_patches_env : Env :=
  mkEnv (cwd calm_env) (snova_name calm_env) (sites calm_env) (apps calm_env)
    (current_branch calm_env) (version_upgrade calm_env) (which calm_env)
    (confirmed calm_env) (Some (Failed "patch failed")) (backup_all_sites calm_env)
    (pull_apps calm_env) (setup_requirements calm_env) (migrate_site calm_env)
    (build calm_env) (redis_generate_config calm_env)
    (generate_supervisor_config calm_env) (make_nginx_conf calm_env) (reload calm_env)
    (cmd_output calm_env) (exit_status calm_env).

(** On a release-only installation the internal patches run before the
    check: the run has an event before the error, and when the patches
    fail, the error is theirs and not the upgrade-blocked one. *)
Lemma update_runs_patches_before_release_check :
  dict_get "release_snova"
    (installation_config (cwd calm_env) release_world) = Some (JBool true) /\
  trace (update calm_env default_args release_world).2 = [EvCall PatchesRun] /\
  (update failing_patches_env default_args release_world).1
  = Raise (ExternalError "patch failed") /\
  (update failing_patches_env default_args release_world).1 <> Raise release_blocked.
Proof.
  split_and!; try reflexivity. vm_compute. discriminate.
Qed.

(** * More of the two files *)

(** ** The encoder with [sort_keys=True] *)

Section json_induction.
Variable P : json -> Prop.
Hypothesis Hnull : P JNull.
Hypothesis Hbool : forall b, P (JBool b).
Hypothesis Hnum : forall n, P (JNum n).
Hypothesis Hstr : forall s, P (JStr s).
Hypothesis Hlist : forall l, Forall P l -> P (JList l).
Hypothesis Hobj : forall o, Forall (fun kv => P kv.2) o -> P (JObj o).

(** Induction over a value and the values inside it. *)
Fixpoint json_nested_ind (j : json) : P j :=
  match j with
  | JNull => Hnull
  | JBool b => Hbool b
  | JNum n => Hnum n
  | JStr s => Hstr s
  | JList l =>
      Hlist l
        ((fix all (l : list json) : Forall P l :=
            match l with
            | [] => List.Forall_nil P
            | x :: l' => @List.Forall_cons _ P x l' (json_nested_ind x) (all l')
            end) l)
  | JObj o =>
      Hobj o
        ((fix all (o : list (string * json)) : Forall (fun kv => P kv.2) o :=
            match o with
            | [] => List.Forall_nil _
            | kv :: o' =>
                @List.Forall_cons _ (fun kv => P kv.2) kv o'
                  (json_nested_ind kv.2) (all o')
            end) o)
  end.
End json_induction.

(** The order of the keys. *)
Definition key_lt (a b : string) : Prop := String.compare a b = Lt.

Lemma ascii_compare_refl (c : ascii) : Ascii.compare c c = Eq.
Proof. unfold Ascii.compare. apply N.compare_refl. Qed.

Lemma string_compare_refl (s : string) : String.compare s s = Eq.
Proof. induction s as [|c s IH]; simpl; [done |]. by rewrite ascii_compare_refl. Qed.

Lemma ascii_compare_lt_trans (a b c : ascii) :
  Ascii.compare a b = Lt -> Ascii.compare b c = Lt -> Ascii.compare a c = Lt.
Proof. unfold Ascii.compare. rewrite !N.compare_lt_iff. lia. Qed.

Lemma key_lt_trans (a b c : string) : key_lt a b -> key_lt b c -> key_lt a c.
Proof.
  unfold key_lt. revert b c.
  induction a as [|x a IH]; intros [|y b] [|z c]; simpl; try done.
  destruct (Ascii.compare x y) eqn:Hxy; [| | done].
  - apply Ascii.compare_eq_iff in Hxy as ->.
    destruct (Ascii.compare y z); [apply IH | done | done].
  - intros _. destruct (Ascii.compare y z) eqn:Hyz; [| | done].
    + apply Ascii.compare_eq_iff in Hyz as <-. by rewrite Hxy.
    + by rewrite (ascii_compare_lt_trans x y z).
Qed.

Lemma key_lt_irrefl (a : string) : ~ key_lt a a.
Proof. unfold key_lt. by rewrite string_compare_refl. Qed.

Lemma key_lt_asym (a b : string) : key_lt a b -> ~ key_lt b a.
Proof. intros Hab Hba. exact (key_lt_irrefl a (key_lt_trans a b a Hab Hba)). Qed.

Lemma leb_cases (a b : string) :
  (String.leb a b = true /\ (a = b \/ key_lt a b)) \/
  (String.leb a b = false /\ key_lt b a).
Proof.
  unfold String.leb, key_lt. rewrite (String.compare_antisym b a).
  destruct (String.compare a b) eqn:Hab; simpl.
  - left. split; [done |]. left. by apply String.compare_eq_iff.
  - left. split; [done | by right].
  - by right.
Qed.

Section sorted_items.
Context {A : Type}.
Implicit Types (l : list (string * A)) (kv : string * A).

(** The keys go up strictly. *)
Fixpoint keys_ascend l : Prop :=
  match l with
  | [] => True
  | kv :: l' => Forall (fun kv' => key_lt kv.1 kv'.1) l' /\ keys_ascend l'
  end.

Lemma dict_get_insert_item k kv l :
  dict_get k (insert_item kv l) =
    if decide (kv.1 = k) then Some kv.2 else dict_get k l.
Proof.
  destruct kv as [k0 v0]. induction l as [|[k1 v1] l IH]; simpl; [done |].
  destruct (leb_cases k0 k1) as [[-> _] | [-> Hlt]]; simpl; [done |].
  rewrite IH. simpl. destruct (decide (k0 = k)) as [->|]; [| done].
  rewrite decide_False; [done |]. intros ->. by apply key_lt_irrefl in Hlt.
Qed.

Lemma dict_get_sort_items k l : dict_get k (sort_items l) = dict_get k l.
Proof.
  induction l as [|[k0 v0] l IH]; simpl; [done |].
  by rewrite dict_get_insert_item, IH.
Qed.

Lemma elem_of_insert_item kv' kv l :
  kv' ∈ insert_item kv l <-> kv' = kv \/ kv' ∈ l.
Proof.
  induction l as [|kv1 l IH]; simpl.
  - rewrite list_elem_of_singleton. rewrite elem_of_nil. tauto.
  - destruct (String.leb kv.1 kv1.1).
    + by rewrite elem_of_cons.
    + rewrite !elem_of_cons, IH. tauto.
Qed.

Lemma insert_item_ascend kv l :
  keys_ascend l -> dict_get kv.1 l = None -> keys_ascend (insert_item kv l).
Proof.
  destruct kv as [k0 v0]. simpl.
  induction l as [|[k1 v1] l IH]; simpl; [done |].
  intros [Hhead Htail] Hfresh.
  destruct (decide (k1 = k0)) as [|Hne]; [done |].
  destruct (leb_cases k0 k1) as [[-> [-> | Hlt]] | [-> Hlt]]; simpl; [done | |].
  - split_and!; [| done | done].
    apply Forall_cons. split; [done |].
    eapply Forall_impl; [exact Hhead |]. intros kv' Hkv'. simpl in *.
    by eapply key_lt_trans.
  - split; [| by apply IH].
    apply Forall_forall. intros kv' Hin.
    apply elem_of_insert_item in Hin as [-> | Hin]; [done |].
    rewrite Forall_forall in Hhead. by apply Hhead.
Qed.

Lemma sort_items_ascend l : dict_wf l -> keys_ascend (sort_items l).
Proof.
  unfold dict_wf. induction l as [|[k0 v0] l IH]; simpl; [done |].
  rewrite NoDup_cons. intros [Hfresh Hnd].
  apply insert_item_ascend; [by apply IH |]. simpl.
  rewrite dict_get_sort_items. by apply dict_get_None_keys.
Qed.

Lemma ascend_head_fresh (k : string) (v : A) l :
  keys_ascend ((k, v) :: l) -> dict_get k l = None.
Proof.
  intros [Hhead _]. apply dict_get_None_keys. intros Hin.
  apply list_elem_of_fmap in Hin as (kv' & Hk & Hin).
  rewrite Forall_forall in Hhead. specialize (Hhead kv' Hin). simpl in Hhead.
  rewrite <- Hk in Hhead. by apply key_lt_irrefl in Hhead.
Qed.

Lemma ascend_head_least k kv l :
  keys_ascend (kv :: l) -> is_Some (dict_get k (kv :: l)) -> k = kv.1 \/ key_lt kv.1 k.
Proof.
  intros [Hhead _]. destruct kv as [k0 v0]. simpl.
  destruct (decide (k0 = k)) as [->|Hne]; [by left |].
  intros Hk. right. apply dict_get_Some_keys in Hk.
  apply list_elem_of_fmap in Hk as (kv' & -> & Hin).
  rewrite Forall_forall in Hhead. by apply Hhead.
Qed.

(** Two dicts in ascending order that map the same keys to the same values
    are the same list. *)
Lemma ascend_unique l1 l2 :
  keys_ascend l1 -> keys_ascend l2 ->
  (forall k, dict_get k l1 = dict_get k l2) ->
  l1 = l2.
Proof.
  revert l2. induction l1 as [|[k1 v1] l1 IH]; intros [|[k2 v2] l2] H1 H2 Hsame.
  - done.
  - specialize (Hsame k2). simpl in Hsame. by rewrite decide_True in Hsame.
  - specialize (Hsame k1). simpl in Hsame. by rewrite decide_True in Hsame.
  - assert (k1 = k2) as ->.
    { destruct (ascend_head_least k2 (k1, v1) l1 H1) as [-> | Hlt12]; [| done |].
      { rewrite Hsame. simpl. rewrite decide_True by done. by eexists. }
      destruct (ascend_head_least k1 (k2, v2) l2 H2) as [-> | Hlt21]; [| done |].
      { rewrite <- Hsame. simpl. rewrite decide_True by done. by eexists. }
      simpl in *. by apply key_lt_asym in Hlt12. }
    pose proof (Hsame k2) as Hv. simpl in Hv. rewrite !decide_True in Hv by done.
    injection Hv as ->. f_equal.
    apply IH; [apply H1 | apply H2 |]. intros k.
    destruct (decide (k2 = k)) as [<-|Hne].
    + rewrite (ascend_head_fresh k2 v2 l1 H1).
      by rewrite (ascend_head_fresh k2 v2 l2 H2).
    + specialize (Hsame k). simpl in Hsame. by rewrite !decide_False in Hsame.
Qed.

Lemma sort_items_same_mapping l1 l2 :
  dict_wf l1 -> dict_wf l2 ->
  (forall k, dict_get k l1 = dict_get k l2) ->
  sort_items l1 = sort_items l2.
Proof.
  intros Hwf1 Hwf2 Hsame.
  apply ascend_unique; [by apply sort_items_ascend .. |].
  intros k. by rewrite !dict_get_sort_items.
Qed.
End sorted_items.

(** What the encoder writes for a list and for a dict, from the texts of
    the members. *)
Definition render_list (level : nat) (chunks : list string) : string :=
  match chunks with
  | [] => "[]"
  | _ =>
      "[" +:+ newline_indent (S level)
      +:+ join ("," +:+ newline_indent (S level)) chunks
      +:+ newline_indent level +:+ "]"
  end.

Definition render_items (level : nat) (items : list (string * string)) : string :=
  match items with
  | [] => "{}"
  | _ =>
      "{" +:+ newline_indent (S level)
      +:+ join ("," +:+ newline_indent (S level))
               (map (fun '(k, text) => encode_str k +:+ ": " +:+ text) items)
      +:+ newline_indent level +:+ "}"
  end.

Definition encode_items (sort_keys : bool) (level : nat) (o : list (string * json))
    : list (string * string) :=
  map (fun '(k, v) => (k, dumps sort_keys (S level) v)) o.

Lemma dumps_list (sort_keys : bool) (level : nat) (l : list json) :
  dumps sort_keys level (JList l) = render_list level (map (dumps sort_keys (S level)) l).
Proof. by destruct l. Qed.

Lemma sort_items_nil {A} (l : list (string * A)) : sort_items l = [] -> l = [].
Proof.
  destruct l as [|kv l]; [done |]. simpl.
  destruct (sort_items l) as [|kv' l']; simpl; [done |].
  by destruct (String.leb kv.1 kv'.1).
Qed.

Lemma dumps_obj_sorted (level : nat) (o : list (string * json)) :
  dumps true level (JObj o) = render_items level (sort_items (encode_items true level o)).
Proof.
  destruct o as [|kv o]; [done |].
  change (dumps true level (JObj (kv :: o)))
    with ("{" +:+ newline_indent (S level)
          +:+ join ("," +:+ newline_indent (S level))
                (map (fun '(k, text) => encode_str k +:+ ": " +:+ text)
                   (sort_items (encode_items true level (kv :: o))))
          +:+ newline_indent level +:+ "}").
  unfold render_items.
  destruct (sort_items (encode_items true level (kv :: o))) eqn:Hsorted; [| done].
  by apply sort_items_nil in Hsorted.
Qed.

Lemma dumps_obj_unsorted (level : nat) (o : list (string * json)) :
  dumps false level (JObj o) = render_items level (encode_items false level o).
Proof. by destruct o. Qed.

Lemma dict_get_encode_items (sort_keys : bool) (level : nat) (k : string)
    (o : list (string * json)) :
  dict_get k (encode_items sort_keys level o) =
    dumps sort_keys (S level) <$> dict_get k o.
Proof.
  induction o as [|[k0 v0] o IH]; simpl; [done |].
  by destruct (decide (k0 = k)).
Qed.

Lemma encode_items_keys (sort_keys : bool) (level : nat) (o : list (string * json)) :
  dict_keys (encode_items sort_keys level o) = dict_keys o.
Proof. induction o as [|[k v] o IH]; simpl; [done | by f_equal]. Qed.

Lemma encode_items_wf (sort_keys : bool) (level : nat) (o : list (string * json)) :
  dict_wf o -> dict_wf (encode_items sort_keys level o).
Proof. unfold dict_wf. by rewrite encode_items_keys. Qed.

(** Two values that are the same data: equal scalars, lists equal member
    by member, dicts that map the same keys to the same data, in whatever
    order the keys were inserted. *)
Inductive same_json : json -> json -> Prop :=
| same_null : same_json JNull JNull
| same_bool (b : bool) : same_json (JBool b) (JBool b)
| same_num (n : Z) : same_json (JNum n) (JNum n)
| same_str (s : string) : same_json (JStr s) (JStr s)
| same_list (l m : list json) :
    Forall2 same_json l m -> same_json (JList l) (JList m)
| same_obj (o p : list (string * json)) :
    dict_wf o -> dict_wf p ->
    (forall k, option_Forall2 same_json (dict_get k o) (dict_get k p)) ->
    same_json (JObj o) (JObj p).

Lemma dumps_sorted_same (a : json) :
  forall (b : json) (level : nat),
    same_json a b -> dumps true level a = dumps true level b.
Proof.
  induction a as [| x | n | s | l IH | o IH] using json_nested_ind;
    intros b level Hsame; inversion Hsame; subst; try reflexivity.
  - rewrite !dumps_list. f_equal.
    match goal with H : Forall2 same_json l _ |- _ => rename H into Hall end.
    clear Hsame. induction Hall as [|x y l m Hxy Hall IHall]; [done |].
    apply Forall_cons in IH as [Hx Hl]. simpl. f_equal; [by apply Hx | by apply IHall].
  - rewrite !dumps_obj_sorted. f_equal.
    apply sort_items_same_mapping; [by apply encode_items_wf .. |].
    intros k. rewrite !dict_get_encode_items.
    match goal with H : forall k, option_Forall2 _ _ _ |- _ => specialize (H k) as Hk end.
    destruct (dict_get k o) as [v|] eqn:Hv; destruct (dict_get k p) as [w|] eqn:Hw;
      inversion Hk as [? ? Hvw |]; subst; [| done].
    simpl. f_equal. rewrite Forall_forall in IH.
    apply dict_get_elem_of in Hv. by apply (IH (k, v) Hv).
Qed.

Ltac solve_same_json :=
  lazymatch goal with
  | |- same_json JNull JNull => apply same_null
  | |- same_json (JBool _) (JBool _) => apply same_bool
  | |- same_json (JNum _) (JNum _) => apply same_num
  | |- same_json (JStr _) (JStr _) => apply same_str
  | |- same_json (JList _) (JList _) =>
      apply same_list; repeat (constructor; [solve_same_json |]); constructor
  | |- same_json (JObj _) (JObj _) =>
      apply same_obj;
      [ solve_dict_wf | solve_dict_wf
      | let k := fresh "k" in
        intros k; simpl;
        repeat (case_decide; simplify_eq; simpl);
        first [ by constructor | constructor; solve_same_json ] ]
  end.

(** X1.  The text [update_common_site_config] writes is settled by the mapping
    that results from the merge: two calls whose results are the same data
    write the same text, whatever the order in which the keys came in, at
    every level of nesting. *)
Theorem common_config_text_ignores_insertion_order
    (snova_path : string) (ddict1 ddict2 : list (string * json)) (w1 w2 : World) :
  same_json (JObj (dict_update (installation_config snova_path w1) ddict1))
            (JObj (dict_update (installation_config snova_path w2) ddict2)) ->
  exists text,
    trace (update_common_site_config ddict1 snova_path w1).2 =
      trace w1 ++ [EvWrite (common_site_config_path snova_path) text] /\
    trace (update_common_site_config ddict2 snova_path w2).2 =
      trace w2 ++ [EvWrite (common_site_config_path snova_path) text].
Proof.
  intros Hsame. rewrite !update_common_site_config_run. simpl.
  eexists. split; [reflexivity |]. do 3 f_equal.
  symmetry. by apply dumps_sorted_same.
Qed.

Definition limits_first_world : World :=
  mkWorld
    {[ "./sites/common_site_config.json" :=
         [("limits", JObj [("users", JNum 3); ("space", JNum 5)]);
          ("db_host", JStr "localhost")] ]}
    [].

Lemma common_config_text_ignores_insertion_order_witness :
  exists text,
    trace (update_common_site_config [("redis_cache", JStr "redis://cache")] "."
             limits_first_world).2 =
      [] ++ [EvWrite (common_site_config_path ".") text] /\
    trace (update_common_site_config
             [("redis_cache", JStr "redis://cache"); ("db_host", JStr "localhost");
              ("limits", JObj [("space", JNum 5); ("users", JNum 3)])] "."
             (mkWorld ∅ [])).2 =
      [] ++ [EvWrite (common_site_config_path ".") text].
Proof.
  apply (common_config_text_ignores_insertion_order "."
           [("redis_cache", JStr "redis://cache")]
           [("redis_cache", JStr "redis://cache"); ("db_host", JStr "localhost");
            ("limits", JObj [("space", JNum 5); ("users", JNum 3)])]
           limits_first_world (mkWorld ∅ [])).
  vm_compute dict_update. solve_same_json.
Defined.

(** *** Writing the same data again *)

Lemma dict_set_same {K V} `{EqDecision K} (k : K) (v : V) (d : list (K * V)) :
  dict_get k d = Some v -> dict_set k v d = d.
Proof.
  induction d as [|[k0 v0] d IH]; simpl; [done |].
  destruct (decide (k0 = k)) as [->|Hne]; [by intros [= ->] |].
  intros Hget. f_equal. by apply IH.
Qed.

Lemma dict_update_present {K V} `{EqDecision K} (d new : list (K * V)) :
  (forall k v, (k, v) ∈ new -> dict_get k d = Some v) -> dict_update d new = d.
Proof.
  unfold dict_update. induction new as [|[k v] new IH]; intros Hall; simpl; [done |].
  rewrite dict_set_same by (apply Hall, list_elem_of_here).
  apply IH. intros k' v' Hin. by apply Hall, list_elem_of_further.
Qed.

Lemma dict_update_idempotent {K V} `{EqDecision K} (d new : list (K * V)) :
  dict_wf new -> dict_update (dict_update d new) new = dict_update d new.
Proof.
  intros Hwf. apply dict_update_present. intros k v Hin.
  rewrite dict_get_update by done. by rewrite (dict_elem_of_get k v new Hwf Hin).
Qed.

Lemma site_config_written (snova_path site : string) (doc : list (string * json))
    (m : gmap string (list (string * json))) (t : list event) :
  site_config snova_path site (mkWorld (<[site_config_path snova_path site := doc]> m) t)
  = doc.
Proof. unfold site_config. simpl. by rewrite lookup_insert_eq. Qed.

Lemma installation_config_written (snova_path : string) (doc : list (string * json))
    (m : gmap string (list (string * json))) (t : list event) :
  installation_config snova_path
    (mkWorld (<[common_site_config_path snova_path := doc]> m) t)
  = doc.
Proof. unfold installation_config. simpl. by rewrite lookup_insert_eq. Qed.

(** X2.  Updating a config twice with the same partial mapping: the second
    call writes the very text the first wrote and leaves the files as the
    first left them, for the site config and for the installation-wide
    config. *)
Theorem repeated_update_writes_same_text
    (site snova_path : string) (partial : list (string * json)) (w : World) :
  dict_wf partial ->
  let w1 := (update_site_config site partial snova_path w).2 in
  let c1 := (update_common_site_config partial snova_path w).2 in
  exists text ctext,
    trace w1 = trace w ++ [EvWrite (site_config_path snova_path site) text] /\
    update_site_config site partial snova_path w1 =
      (Ok tt,
       mkWorld (files w1) (trace w1 ++ [EvWrite (site_config_path snova_path site) text])) /\
    trace c1 = trace w ++ [EvWrite (common_site_config_path snova_path) ctext] /\
    update_common_site_config partial snova_path c1 =
      (Ok tt,
       mkWorld (files c1)
         (trace c1 ++ [EvWrite (common_site_config_path snova_path) ctext])).
Proof.
  intros Hwf. cbv zeta.
  rewrite (update_site_config_run site snova_path partial w).
  rewrite (update_common_site_config_run snova_path partial w). simpl.
  eexists _, _. split; [reflexivity |]. split; [| split; [reflexivity |]].
  - rewrite update_site_config_run. simpl. rewrite !site_config_written.
    rewrite dict_update_idempotent by done. by rewrite insert_insert_eq.
  - rewrite update_common_site_config_run. simpl. rewrite !installation_config_written.
    rewrite dict_update_idempotent by done. by rewrite insert_insert_eq.
Qed.

Lemma repeated_update_writes_same_text_witness :
  let partial := [("limits", JObj [("space", JNum 9)]); ("host_name", JStr "a.com")] in
  let w1 := (update_site_config "site1" partial "." nested_world).2 in
  let c1 := (update_common_site_config partial "." nested_world).2 in
  exists text ctext,
    trace w1 = [] ++ [EvWrite (site_config_path "." "site1") text] /\
    update_site_config "site1" partial "." w1 =
      (Ok tt,
       mkWorld (files w1) (trace w1 ++ [EvWrite (site_config_path "." "site1") text])) /\
    trace c1 = [] ++ [EvWrite (common_site_config_path ".") ctext] /\
    update_common_site_config partial "." c1 =
      (Ok tt,
       mkWorld (files c1) (trace c1 ++ [EvWrite (common_site_config_path ".") ctext])).
Proof.
  apply (repeated_update_writes_same_text "site1" "."
           [("limits", JObj [("space", JNum 9)]); ("host_name", JStr "a.com")]
           nested_world).
  solve_dict_wf.
Defined.

(** ** Python equality on well-formed values *)

(** A value whose dicts, at every level, have no key twice. *)
Fixpoint json_wf (j : json) : Prop :=
  match j with
  | JList l =>
      (fix all (l : list json) : Prop :=
         match l with
         | [] => True
         | x :: l' => json_wf x /\ all l'
         end) l
  | JObj o =>
      dict_wf o /\
      (fix all (o : list (string * json)) : Prop :=
         match o with
         | [] => True
         | kv :: o' => json_wf kv.2 /\ all o'
         end) o
  | _ => True
  end.

Lemma json_wf_list (l : list json) : json_wf (JList l) <-> Forall json_wf l.
Proof.
  simpl. induction l as [|x l IH]; [by split |].
  rewrite Forall_cons. by rewrite IH.
Qed.

Lemma json_wf_obj (o : list (string * json)) :
  json_wf (JObj o) <-> dict_wf o /\ Forall (fun kv => json_wf kv.2) o.
Proof.
  simpl. apply and_iff_compat_l.
  induction o as [|kv o IH]; [by split |].
  rewrite Forall_cons. by rewrite IH.
Qed.

Lemma py_eq_list (l m : list json) :
  py_eq (JList l) (JList m) =
    (fix list_eq (l m : list json) {struct l} : bool :=
       match l, m with
       | [], [] => true
       | x :: l', y :: m' => py_eq x y && list_eq l' m'
       | _, _ => false
       end) l m.
Proof. done. Qed.

(** The members of [o] that [p] has under the same key with an equal
    value: the test [py_eq] makes on two dicts of the same size. *)
Definition all_in (o p : list (string * json)) : bool :=
  forallb (fun kv => match dict_get kv.1 p with
                     | Some w => py_eq kv.2 w
                     | None => false
                     end) o.

Lemma py_eq_obj (o p : list (string * json)) :
  py_eq (JObj o) (JObj p) = (List.length o =? List.length p)%nat && all_in o p.
Proof.
  simpl. f_equal. unfold all_in.
  induction o as [|[k v] o IH]; simpl; [done | by rewrite IH].
Qed.

Lemma py_eq_refl (j : json) : json_wf j -> py_eq j j = true.
Proof.
  induction j as [| b | n | s | l IH | o IH] using json_nested_ind; intros Hwf.
  - done.
  - by destruct b.
  - apply Z.eqb_refl.
  - apply String.eqb_refl.
  - apply json_wf_list in Hwf. rewrite py_eq_list.
    induction l as [|x l IHl]; [done |].
    apply Forall_cons in IH as [Hx Hl]. apply Forall_cons in Hwf as [Hwx Hwl].
    rewrite Hx by done. simpl. by apply IHl.
  - apply json_wf_obj in Hwf as [Hnd Hwf]. rewrite py_eq_obj, Nat.eqb_refl. simpl.
    unfold all_in. apply forallb_forall. intros [k v] Hin.
    apply list_elem_of_In in Hin. simpl.
    rewrite (dict_elem_of_get k v o Hnd Hin).
    rewrite Forall_forall in IH, Hwf. by apply (IH (k, v) Hin), (Hwf (k, v) Hin).
Qed.

Lemma py_eq_str_inv (x : json) (s : string) : py_eq x (JStr s) = true -> x = JStr s.
Proof. destruct x; simpl; try done. by intros ->%String.eqb_eq. Qed.

Lemma py_eq_obj_inv (x : json) (p : list (string * json)) :
  py_eq x (JObj p) = true -> exists o, x = JObj o.
Proof. destruct x; simpl; try done. by eexists. Qed.

(** Two dicts that are equal have the same keys. *)
Lemma py_eq_obj_keys (o p : list (string * json)) (k : string) :
  dict_wf o -> dict_wf p ->
  py_eq (JObj o) (JObj p) = true ->
  is_Some (dict_get k p) -> is_Some (dict_get k o).
Proof.
  intros Hwo Hwp. rewrite py_eq_obj, andb_true_iff, Nat.eqb_eq.
  intros [Hlen Hall] Hk.
  assert (Hsub : dict_keys o ⊆+ dict_keys p).
  { apply NoDup_submseteq; [done |]. intros k' Hk'.
    apply list_elem_of_fmap in Hk' as ([k0 v0] & -> & Hin).
    unfold all_in in Hall. rewrite forallb_forall in Hall.
    specialize (Hall (k0, v0)). rewrite <- list_elem_of_In in Hall.
    specialize (Hall Hin). simpl in *. apply dict_get_Some_keys.
    by destruct (dict_get k0 p). }
  apply submseteq_length_Permutation in Hsub.
  - apply dict_get_Some_keys. rewrite Hsub. by apply dict_get_Some_keys.
  - unfold dict_keys. rewrite !length_map. lia.
Qed.

Lemma py_eq_obj_get (o p : list (string * json)) (k : string) (v : json) :
  py_eq (JObj o) (JObj p) = true ->
  dict_get k o = Some v ->
  exists w, dict_get k p = Some w /\ py_eq v w = true.
Proof.
  rewrite py_eq_obj, andb_true_iff. intros [_ Hall] Hget.
  unfold all_in in Hall. rewrite forallb_forall in Hall.
  specialize (Hall (k, v)). rewrite <- list_elem_of_In in Hall.
  specialize (Hall (dict_get_elem_of k v o Hget)). simpl in Hall.
  destruct (dict_get k p) as [w|]; [by exists w | done].
Qed.

(** *** Adding and removing a domain *)

(** What one turn of the two loops tests, on an entry of a well-formed
    list. *)
Lemma entry_test (domain : string) (d : json) :
  record_has_domain d ->
  exists same_record,
    match d with
    | JObj _ =>
        and_then (py_getitem d "domain") (fun name => Ok (py_eq name (JStr domain)))
    | _ => Ok false
    end = Ok same_record /\
    (same_record || py_eq d (JStr domain) = true <-> entry_named domain d).
Proof.
  intros Hd. destruct d as [| b | n | s | l | o]; simpl.
  1-3, 5: exists false; split; [done |]; split; [done |];
    intros [? | (? & ? & ?)]; discriminate.
  - exists false. split; [done |]. simpl. rewrite String.eqb_eq. split.
    + intros ->. by left.
    + by intros [[= ->] | (? & ? & ?)].
  - destruct Hd as [name Hname]. rewrite Hname. simpl.
    exists (py_eq name (JStr domain)). split; [done |].
    rewrite orb_false_r. split.
    + intros ->%py_eq_str_inv. right. by exists o.
    + intros [? | (o' & [= <-] & Hget)]; [done |].
      rewrite Hname in Hget. injection Hget as ->. simpl. apply String.eqb_refl.
Qed.

Lemma domain_listed_absent (domain : string) (entries : list json) :
  Forall record_has_domain entries ->
  (forall e, e ∈ entries -> ~ entry_named domain e) ->
  domain_listed domain entries = Ok false.
Proof.
  induction entries as [|d rest IH]; intros Hwf Hnone; [done |].
  apply Forall_cons in Hwf as [Hd Hrest]. simpl.
  destruct (entry_test domain d Hd) as (b & -> & Hb). simpl.
  destruct (b || py_eq d (JStr domain)) eqn:Htest.
  - exfalso. apply (Hnone d); [apply list_elem_of_here | by apply Hb].
  - apply IH; [done |]. intros e He. apply Hnone. by apply list_elem_of_further.
Qed.

(** The entry [add_domain] appends. *)
Definition new_entry (domain : string) (ssl_certificate ssl_certificate_key : json) : json :=
  if truthy ssl_certificate_key && truthy ssl_certificate
  then JObj [("domain", JStr domain);
             ("ssl_certificate", ssl_certificate);
             ("ssl_certificate_key", ssl_certificate_key)]
  else JStr domain.

Lemma add_domain_fresh_run (site domain : string) (ssl_certificate ssl_certificate_key : json)
    (snova_path : string) (w : World) (entries : list json) :
  stored_domains snova_path site w = JList entries ->
  Forall record_has_domain entries ->
  (forall e, e ∈ entries -> ~ entry_named domain e) ->
  add_domain site domain ssl_certificate ssl_certificate_key snova_path w =
    update_site_config site
      [("domains", JList (entries ++ [new_entry domain ssl_certificate ssl_certificate_key]))]
      snova_path w.
Proof.
  intros Hstored Hwf Hnone. unfold add_domain.
  rewrite (bind_ok _ _ _ _ _ (get_domains_run site snova_path w)).
  rewrite Hstored. unfold lift, bind. simpl.
  by rewrite (domain_listed_absent domain entries Hwf Hnone).
Qed.

Lemma stored_domains_written (snova_path site : string) (old : list (string * json))
    (domains : json) (m : gmap string (list (string * json))) (t : list event) :
  stored_domains snova_path site
    (mkWorld (<[site_config_path snova_path site :=
                  dict_update old [("domains", domains)]]> m) t)
  = if truthy domains then domains else JList [].
Proof.
  unfold stored_domains. rewrite site_config_written.
  by rewrite dict_get_update by solve_dict_wf.
Qed.

(** X3.  [add_domain] with a name the stored list does not have: one write of
    the site config, in which the list is the old one with one entry
    appended and every other key is as it was.  The entry is a record when
    both the certificate and the key are given, and the bare name
    otherwise (a certificate without a key, or a key without a
    certificate, is dropped). *)
Theorem add_domain_fresh_appends
    (site domain : string) (ssl_certificate ssl_certificate_key : json)
    (snova_path : string) (w : World) (entries : list json) :
  stored_domains snova_path site w = JList entries ->
  Forall record_has_domain entries ->
  (forall e, e ∈ entries -> ~ entry_named domain e) ->
  let run := add_domain site domain ssl_certificate ssl_certificate_key snova_path w in
  let entry :=
    if truthy ssl_certificate_key && truthy ssl_certificate
    then JObj [("domain", JStr domain);
               ("ssl_certificate", ssl_certificate);
               ("ssl_certificate_key", ssl_certificate_key)]
    else JStr domain in
  run.1 = Ok tt /\
  stored_domains snova_path site run.2 = JList (entries ++ [entry]) /\
  (forall k, k <> "domains" ->
     dict_get k (site_config snova_path site run.2) =
     dict_get k (site_config snova_path site w)) /\
  (exists text, trace run.2 = trace w ++ [EvWrite (site_config_path snova_path site) text]) /\
  (forall path, path <> site_config_path snova_path site ->
     files run.2 !! path = files w !! path).
Proof.
  intros Hstored Hwf Hnone. cbv zeta.
  rewrite (add_domain_fresh_run _ _ _ _ _ _ entries Hstored Hwf Hnone).
  rewrite update_site_config_run. cbn [fst snd]. split_and!.
  - done.
  - rewrite stored_domains_written. unfold new_entry. by destruct entries.
  - intros k Hk. rewrite site_config_written.
    rewrite dict_get_update by solve_dict_wf. simpl. by rewrite decide_False.
  - by eexists.
  - intros path Hpath. simpl. by rewrite lookup_insert_ne.
Qed.

Lemma add_domain_fresh_appends_witness :
  let run := add_domain "site1" "c.com" (JStr "/etc/cert.pem") JNull "." two_domain_world in
  run.1 = Ok tt /\
  stored_domains "." "site1" run.2 =
    JList [JStr "a.com";
           JObj [("domain", JStr "b.com"); ("ssl_certificate", JStr "X");
                 ("ssl_certificate_key", JStr "Y")];
           JStr "c.com"].
Proof.
  cbv zeta.
  destruct (add_domain_fresh_appends "site1" "c.com" (JStr "/etc/cert.pem") JNull "."
              two_domain_world
              [JStr "a.com";
               JObj [("domain", JStr "b.com"); ("ssl_certificate", JStr "X");
                     ("ssl_certificate_key", JStr "Y")]])
    as (Hok & Hstored & _).
  - reflexivity.
  - repeat constructor. by exists (JStr "b.com").
  - intros e He [-> | (o & -> & Hget)];
      repeat (apply elem_of_cons in He as [He | He]; [by simplify_eq |]);
      by apply elem_of_nil in He.
  - split; [exact Hok | exact Hstored].
Defined.

Lemma new_entry_named (domain : string) (ssl_certificate ssl_certificate_key : json) :
  entry_named domain (new_entry domain ssl_certificate ssl_certificate_key) /\
  record_has_domain (new_entry domain ssl_certificate ssl_certificate_key).
Proof.
  unfold new_entry. destruct (truthy ssl_certificate_key && truthy ssl_certificate).
  - split; [right; by eexists | by eexists].
  - split; [by left | done].
Qed.

(** X4.  Adding the same name twice: the second call finds the entry the first
    one appended, says so, and writes nothing, whatever certificate it is
    given. *)
Theorem add_domain_twice_adds_once
    (site domain : string) (cert1 key1 cert2 key2 : json)
    (snova_path : string) (w : World) (entries : list json) :
  stored_domains snova_path site w = JList entries ->
  Forall record_has_domain entries ->
  (forall e, e ∈ entries -> ~ entry_named domain e) ->
  let w1 := (add_domain site domain cert1 key1 snova_path w).2 in
  add_domain site domain cert2 key2 snova_path w1 =
    (Ok tt,
     mkWorld (files w1)
       (trace w1 ++ [EvPrint ("Domain " +:+ domain +:+ " already exists")])).
Proof.
  intros Hstored Hwf Hnone. cbv zeta.
  rewrite (add_domain_fresh_run _ _ _ _ _ _ entries Hstored Hwf Hnone).
  rewrite update_site_config_run. cbn [fst snd].
  set (w1 := mkWorld _ _).
  assert (Hstored1 : stored_domains snova_path site w1
                     = JList (entries ++ [new_entry domain cert1 key1])).
  { unfold w1. rewrite stored_domains_written. by destruct entries. }
  unfold add_domain.
  rewrite (bind_ok _ _ _ _ _ (get_domains_run site snova_path w1)).
  rewrite Hstored1. unfold lift, bind. simpl.
  destruct (new_entry_named domain cert1 key1) as [Hnamed Hhas].
  rewrite (domain_listed_found domain (entries ++ [new_entry domain cert1 key1])); [done | |].
  - apply Forall_app. split; [done |]. by apply Forall_singleton.
  - exists (new_entry domain cert1 key1). split; [| done].
    apply elem_of_app. right. apply list_elem_of_here.
Qed.

Lemma add_domain_twice_adds_once_witness :
  let w1 := (add_domain "site1" "c.com" JNull JNull "." two_domain_world).2 in
  add_domain "site1" "c.com" (JStr "/etc/cert.pem") (JStr "/etc/key.pem") "." w1 =
    (Ok tt, mkWorld (files w1) (trace w1 ++ [EvPrint "Domain c.com already exists"])).
Proof.
  apply (add_domain_twice_adds_once "site1" "c.com" JNull JNull (JStr "/etc/cert.pem")
           (JStr "/etc/key.pem") "." two_domain_world
           [JStr "a.com";
            JObj [("domain", JStr "b.com"); ("ssl_certificate", JStr "X");
                  ("ssl_certificate_key", JStr "Y")]]).
  - reflexivity.
  - repeat constructor. by exists (JStr "b.com").
  - intros e He [-> | (o & -> & Hget)];
      repeat (apply elem_of_cons in He as [He | He]; [by simplify_eq |]);
      by apply elem_of_nil in He.
Defined.

Lemma first_named_absent (domain : string) (entries : list json) :
  Forall record_has_domain entries ->
  (forall e, e ∈ entries -> ~ entry_named domain e) ->
  first_named domain entries = Ok None.
Proof.
  induction entries as [|d rest IH]; intros Hwf Hnone; [done |].
  apply Forall_cons in Hwf as [Hd Hrest]. simpl.
  destruct (entry_test domain d Hd) as (b & -> & Hb). simpl.
  destruct (b || py_eq d (JStr domain)) eqn:Htest.
  - exfalso. apply (Hnone d); [apply list_elem_of_here | by apply Hb].
  - apply IH; [done |]. intros e He. apply Hnone. by apply list_elem_of_further.
Qed.

Lemma first_named_found (domain : string) (before after : list json) (d : json) :
  Forall record_has_domain before ->
  (forall e, e ∈ before -> ~ entry_named domain e) ->
  record_has_domain d -> entry_named domain d ->
  first_named domain (before ++ d :: after) = Ok (Some d).
Proof.
  intros Hwf Hnone Hd Hnamed.
  induction before as [|e before IH]; simpl.
  - destruct (entry_test domain d Hd) as (b & -> & Hb). simpl.
    apply Hb in Hnamed. by rewrite Hnamed.
  - apply Forall_cons in Hwf as [He Hrest].
    destruct (entry_test domain e He) as (b & -> & Hb). simpl.
    destruct (b || py_eq e (JStr domain)) eqn:Htest.
    + exfalso. apply (Hnone e); [apply list_elem_of_here | by apply Hb].
    + apply IH; [done |]. intros e' He'. apply Hnone. by apply list_elem_of_further.
Qed.

(** An entry that does not carry the name is not equal to one that does. *)
Lemma unnamed_not_equal (domain : string) (e d : json) :
  json_wf e -> json_wf d ->
  entry_named domain d -> ~ entry_named domain e ->
  py_eq e d = false.
Proof.
  intros Hwe Hwd Hd He. apply not_true_is_false. intros Heq. apply He.
  destruct Hd as [-> | (o & -> & Hget)].
  - left. by apply py_eq_str_inv.
  - destruct (py_eq_obj_inv e o Heq) as [o' ->]. right. exists o'. split; [done |].
    apply json_wf_obj in Hwe as [Hwo' _]. apply json_wf_obj in Hwd as [Hwo _].
    destruct (py_eq_obj_keys o' o "domain" Hwo' Hwo Heq) as [v Hv]; [by eexists |].
    destruct (py_eq_obj_get o' o "domain" v Heq Hv) as (w & Hw & Hvw).
    rewrite Hget in Hw. injection Hw as <-. apply py_eq_str_inv in Hvw. by subst.
Qed.

Lemma list_remove_found (d : json) (before after : list json) :
  (forall e, e ∈ before -> py_eq e d = false) ->
  py_eq d d = true ->
  list_remove d (before ++ d :: after) = before ++ after.
Proof.
  intros Hbefore Hd. induction before as [|e before IH]; simpl; [by rewrite Hd |].
  rewrite (Hbefore e) by apply list_elem_of_here. f_equal.
  apply IH. intros e' He'. by apply Hbefore, list_elem_of_further.
Qed.

Lemma remove_domain_found_run (site domain snova_path : string) (w : World)
    (before after : list json) (d : json) :
  stored_domains snova_path site w = JList (before ++ d :: after) ->
  Forall record_has_domain before ->
  Forall json_wf before ->
  (forall e, e ∈ before -> ~ entry_named domain e) ->
  record_has_domain d -> json_wf d -> entry_named domain d ->
  remove_domain site domain snova_path w =
    update_site_config site [("domains", JList (before ++ after))] snova_path w.
Proof.
  intros Hstored Hhas Hwf Hnone Hd Hwd Hnamed. unfold remove_domain.
  rewrite (bind_ok _ _ _ _ _ (get_domains_run site snova_path w)).
  rewrite Hstored. unfold lift at 1, bind at 1. cbn [py_iter].
  unfold lift at 1, bind at 1.
  rewrite (first_named_found domain before after d Hhas Hnone Hd Hnamed).
  unfold lift, bind at 1. cbn [py_remove].
  rewrite list_remove_found; [done | | by apply py_eq_refl].
  intros e He. apply (unnamed_not_equal domain); [| done | done | by apply Hnone].
  rewrite Forall_forall in Hwf. by apply Hwf.
Qed.

(** X5.  [remove_domain] takes out the first entry of the name and nothing
    else: the entries before and after it stay, in their order, later
    entries of the same name included; the other keys of the site config
    are as they were. *)
Theorem remove_domain_removes_first_entry_only
    (site domain snova_path : string) (w : World)
    (before after : list json) (d : json) :
  stored_domains snova_path site w = JList (before ++ d :: after) ->
  Forall record_has_domain before ->
  Forall json_wf before ->
  (forall e, e ∈ before -> ~ entry_named domain e) ->
  record_has_domain d -> json_wf d -> entry_named domain d ->
  let run := remove_domain site domain snova_path w in
  run.1 = Ok tt /\
  stored_domains snova_path site run.2 = JList (before ++ after) /\
  (forall k, k <> "domains" ->
     dict_get k (site_config snova_path site run.2) =
     dict_get k (site_config snova_path site w)) /\
  (exists text, trace run.2 = trace w ++ [EvWrite (site_config_path snova_path site) text]).
Proof.
  intros Hstored Hhas Hwf Hnone Hd Hwd Hnamed. cbv zeta.
  rewrite (remove_domain_found_run _ _ _ _ before after d) by done.
  rewrite update_site_config_run. cbn [fst snd]. split_and!.
  - done.
  - rewrite stored_domains_written. by destruct (before ++ after).
  - intros k Hk. rewrite site_config_written.
    rewrite dict_get_update by solve_dict_wf. simpl. by rewrite decide_False.
  - by eexists.
Qed.

Definition doubled_domain_world : World :=
  mkWorld
    {[ "./sites/site1/site_config.json" :=
         [("domains",
           JList [JStr "a.com"; JStr "b.com";
                  JObj [("domain", JStr "b.com"); ("ssl_certificate", JStr "X");
                        ("ssl_certificate_key", JStr "Y")]])] ]}
    [].

Lemma remove_domain_removes_first_entry_only_witness :
  let run := remove_domain "site1" "b.com" "." doubled_domain_world in
  run.1 = Ok tt /\
  stored_domains "." "site1" run.2 =
    JList ([JStr "a.com"] ++
           [JObj [("domain", JStr "b.com"); ("ssl_certificate", JStr "X");
                  ("ssl_certificate_key", JStr "Y")]]).
Proof.
  cbv zeta.
  destruct (remove_domain_removes_first_entry_only "site1" "b.com" "." doubled_domain_world
              [JStr "a.com"]
              [JObj [("domain", JStr "b.com"); ("ssl_certificate", JStr "X");
                     ("ssl_certificate_key", JStr "Y")]]
              (JStr "b.com"))
    as (Hok & Hstored & _); try done.
  - by repeat constructor.
  - by repeat constructor.
  - intros e He [-> | (o & -> & Hget)];
      repeat (apply elem_of_cons in He as [He | He]; [by simplify_eq |]);
      by apply elem_of_nil in He.
  - by left.
Defined.

Lemma remove_domain_absent_run (site domain snova_path : string) (w : World)
    (entries : list json) :
  stored_domains snova_path site w = JList entries ->
  Forall record_has_domain entries ->
  (forall e, e ∈ entries -> ~ entry_named domain e) ->
  remove_domain site domain snova_path w =
    update_site_config site [("domains", JList entries)] snova_path w.
Proof.
  intros Hstored Hhas Hnone. unfold remove_domain.
  rewrite (bind_ok _ _ _ _ _ (get_domains_run site snova_path w)).
  rewrite Hstored. unfold lift at 1, bind at 1. cbn [py_iter].
  unfold lift at 1, bind at 1.
  rewrite (first_named_absent domain entries Hhas Hnone).
  by unfold ret, bind at 1.
Qed.

(** X6.  [remove_domain] with a name the list of an existing site config
    does not have still writes the config, once: the list in it is the one
    that was read, the empty list where the config had none, and every
    other key is as it was. *)
Theorem remove_domain_absent_still_writes
    (site domain snova_path : string) (w : World) (entries : list json) :
  is_Some (files w !! site_config_path snova_path site) ->
  stored_domains snova_path site w = JList entries ->
  Forall record_has_domain entries ->
  (forall e, e ∈ entries -> ~ entry_named domain e) ->
  let run := remove_domain site domain snova_path w in
  run.1 = Ok tt /\
  stored_domains snova_path site run.2 = JList entries /\
  dict_get "domains" (site_config snova_path site run.2) = Some (JList entries) /\
  (forall k, k <> "domains" ->
     dict_get k (site_config snova_path site run.2) =
     dict_get k (site_config snova_path site w)) /\
  (exists text, trace run.2 = trace w ++ [EvWrite (site_config_path snova_path site) text]).
Proof.
  intros _ Hstored Hhas Hnone. cbv zeta.
  rewrite (remove_domain_absent_run _ _ _ _ entries) by done.
  rewrite update_site_config_run. cbn [fst snd]. split_and!.
  - done.
  - rewrite stored_domains_written. by destruct entries.
  - rewrite site_config_written. by rewrite dict_get_update by solve_dict_wf.
  - intros k Hk. rewrite site_config_written.
    rewrite dict_get_update by solve_dict_wf. simpl. by rewrite decide_False.
  - by eexists.
Qed.

Lemma remove_domain_absent_still_writes_witness :
  let run := remove_domain "site1" "c.com" "." two_domain_world in
  run.1 = Ok tt /\
  files run.2 !! site_config_path "." "site1"
  = files two_domain_world !! site_config_path "." "site1" /\
  exists text, trace run.2 = [] ++ [EvWrite (site_config_path "." "site1") text].
Proof.
  cbv zeta.
  destruct (remove_domain_absent_still_writes "site1" "c.com" "." two_domain_world
              [JStr "a.com";
               JObj [("domain", JStr "b.com");
                     ("ssl_certificate", JStr "X");
                     ("ssl_certificate_key", JStr "Y")]])
    as (Hok & _ & _ & _ & Hwrite).
  - by eexists.
  - reflexivity.
  - repeat econstructor.
  - intros e He [-> | (o & -> & Hget)];
      repeat (apply elem_of_cons in He as [He | He]; [by simplify_eq |]);
      by apply elem_of_nil in He.
  - split; [exact Hok |]. split; [reflexivity | exact Hwrite].
Defined.

Ltac solve_json_wf := simpl; repeat split; try exact I; solve_dict_wf.

Lemma new_entry_wf (domain : string) (ssl_certificate ssl_certificate_key : json) :
  json_wf ssl_certificate -> json_wf ssl_certificate_key ->
  json_wf (new_entry domain ssl_certificate ssl_certificate_key).
Proof.
  intros Hc Hk. unfold new_entry.
  destruct (truthy ssl_certificate_key && truthy ssl_certificate); [| done].
  apply json_wf_obj. split; [solve_dict_wf |]. by repeat constructor.
Qed.

(** X7.  Adding a name the list does not have and removing it again gives the
    stored list back as it was. *)
Theorem add_then_remove_domain_restores_list
    (site domain : string) (ssl_certificate ssl_certificate_key : json)
    (snova_path : string) (w : World) (entries : list json) :
  stored_domains snova_path site w = JList entries ->
  Forall record_has_domain entries ->
  Forall json_wf entries ->
  json_wf ssl_certificate -> json_wf ssl_certificate_key ->
  (forall e, e ∈ entries -> ~ entry_named domain e) ->
  let added := add_domain site domain ssl_certificate ssl_certificate_key snova_path w in
  let removed := remove_domain site domain snova_path added.2 in
  added.1 = Ok tt /\ removed.1 = Ok tt /\
  stored_domains snova_path site removed.2 = JList entries.
Proof.
  intros Hstored Hhas Hwf Hc Hk Hnone. cbv zeta.
  rewrite (add_domain_fresh_run _ _ _ _ _ _ entries Hstored Hhas Hnone).
  rewrite update_site_config_run. cbn [fst snd].
  set (w1 := mkWorld _ _).
  assert (Hstored1 : stored_domains snova_path site w1
                     = JList (entries ++ new_entry domain ssl_certificate
                                           ssl_certificate_key :: [])).
  { unfold w1. rewrite stored_domains_written. by destruct entries. }
  destruct (new_entry_named domain ssl_certificate ssl_certificate_key) as [Hnamed Hd].
  rewrite (remove_domain_found_run site domain snova_path w1 entries []
             (new_entry domain ssl_certificate ssl_certificate_key));
    [| done | done | done | done | done | by apply new_entry_wf | done].
  rewrite update_site_config_run. cbn [fst snd]. split_and!; [done | done |].
  rewrite stored_domains_written, app_nil_r. by destruct entries.
Qed.

Lemma add_then_remove_domain_restores_list_witness :
  let added :=
    add_domain "site1" "c.com" (JStr "/etc/cert.pem") (JStr "/etc/key.pem") "."
      two_domain_world in
  let removed := remove_domain "site1" "c.com" "." added.2 in
  added.1 = Ok tt /\ removed.1 = Ok tt /\
  stored_domains "." "site1" removed.2 =
    JList [JStr "a.com";
           JObj [("domain", JStr "b.com"); ("ssl_certificate", JStr "X");
                 ("ssl_certificate_key", JStr "Y")]].
Proof.
  apply (add_then_remove_domain_restores_list "site1" "c.com" (JStr "/etc/cert.pem")
           (JStr "/etc/key.pem") "." two_domain_world); try done.
  - repeat constructor. by exists (JStr "b.com").
  - repeat (apply Forall_cons; split; [solve_json_wf |]). apply Forall_nil_2.
  - intros e He [-> | (o & -> & Hget)];
      repeat (apply elem_of_cons in He as [He | He]; [by simplify_eq |]);
      by apply elem_of_nil in He.
Defined.

(** X8.  An exception out of [add_domain], [remove_domain] or [sync_domains]
    comes before anything is written or printed: the world is as it was. *)
Theorem domain_operations_fail_before_writing
    (site domain snova_path : string) (ssl_certificate ssl_certificate_key domains : json)
    (w w' : World) (e : exn) :
  (add_domain site domain ssl_certificate ssl_certificate_key snova_path w = (Raise e, w') ->
   w' = w) /\
  (remove_domain site domain snova_path w = (Raise e, w') -> w' = w) /\
  (sync_domains site domains snova_path w = (Raise e, w') -> w' = w).
Proof.
  split_and!.
  - unfold add_domain.
    rewrite (bind_ok _ _ _ _ _ (get_domains_run site snova_path w)).
    unfold lift at 1, bind at 1.
    destruct (py_iter _) as [entries|]; [| by intros [= _ <-]].
    unfold lift at 1, bind at 1.
    destruct (domain_listed domain entries) as [[]|]; [done | | by intros [= _ <-]].
    unfold lift at 1, bind at 1.
    destruct (py_append _ _) as [domains'|]; [| by intros [= _ <-]].
    by rewrite update_site_config_run.
  - unfold remove_domain.
    rewrite (bind_ok _ _ _ _ _ (get_domains_run site snova_path w)).
    unfold lift at 1, bind at 1.
    destruct (py_iter _) as [entries|]; [| by intros [= _ <-]].
    unfold lift at 1, bind at 1.
    destruct (first_named domain entries) as [[d|]|]; [| | by intros [= _ <-]].
    + unfold lift at 1, bind at 1.
      destruct (py_remove _ d) as [domains'|]; [| by intros [= _ <-]].
      by rewrite update_site_config_run.
    + unfold ret, bind at 1. by rewrite update_site_config_run.
  - unfold sync_domains.
    rewrite (bind_ok _ _ _ _ _ (get_domains_run site snova_path w)).
    unfold lift at 1, bind at 1.
    destruct (get_domains_dict (stored_domains _ _ _)) as [a|]; [| by intros [= _ <-]].
    unfold lift at 1, bind at 1.
    destruct (get_domains_dict domains) as [b|]; [| by intros [= _ <-]].
    unfold bind at 1.
    destruct (key_sets_differ a b).
    + unfold ret at 1, bind. by rewrite update_site_config_run.
    + unfold lift.
      destruct (any_record_differs _ _) as [[]|]; [| done | by intros [= _ <-]].
      unfold bind. by rewrite update_site_config_run.
Qed.

Definition malformed_domain_world : World :=
  mkWorld
    {[ "./sites/site1/site_config.json" :=
         [("domains", JList [JObj [("ssl_certificate", JStr "X")]; JStr "a.com"])] ]}
    [].

Lemma domain_operations_fail_before_writing_witness :
  add_domain "site1" "a.com" JNull JNull "." malformed_domain_world
  = (Raise (KeyError "domain"), malformed_domain_world).
Proof.
  assert (Hrun : exists w',
    add_domain "site1" "a.com" JNull JNull "." malformed_domain_world
    = (Raise (KeyError "domain"), w')) by (eexists; reflexivity).
  destruct Hrun as [w' Hrun]. rewrite Hrun. f_equal.
  exact (proj1 (domain_operations_fail_before_writing "site1" "a.com" "." JNull JNull JNull
                  malformed_domain_world w' (KeyError "domain")) Hrun).
Defined.

(** *** Reconciling twice, and what [False] means *)

Lemma sync_domains_inv (site : string) (domains : json) (snova_path : string)
    (w w' : World) (changed : bool) :
  sync_domains site domains snova_path w = (Ok changed, w') ->
  exists a b,
    get_domains_dict (stored_domains snova_path site w) = Ok a /\
    get_domains_dict domains = Ok b /\
    (if key_sets_differ a b then Ok true
     else any_record_differs (dict_values a) b) = Ok changed /\
    w' = if changed then (update_site_config site [("domains", domains)] "." w).2 else w.
Proof.
  intros Hrun.
  destruct (get_domains_dict (stored_domains snova_path site w)) as [a|e1] eqn:Ha.
  2: { revert Hrun. unfold sync_domains.
       rewrite (bind_ok _ _ _ _ _ (get_domains_run site snova_path w)).
       unfold lift at 1, bind at 1. by rewrite Ha. }
  destruct (get_domains_dict domains) as [b|e2] eqn:Hb.
  2: { revert Hrun. unfold sync_domains.
       rewrite (bind_ok _ _ _ _ _ (get_domains_run site snova_path w)).
       unfold lift at 1, bind at 1. rewrite Ha.
       unfold lift at 1, bind at 1. by rewrite Hb. }
  exists a, b. split; [done |]. split; [done |].
  destruct (if key_sets_differ a b then Ok true
            else any_record_differs (dict_values a) b) as [c|e3] eqn:Hc.
  - rewrite (sync_domains_run site domains snova_path w a b c Ha Hb Hc) in Hrun.
    by injection Hrun as -> ->.
  - revert Hrun. unfold sync_domains.
    rewrite (bind_ok _ _ _ _ _ (get_domains_run site snova_path w)).
    unfold lift at 1, bind at 1. rewrite Ha.
    unfold lift at 1, bind at 1. rewrite Hb. unfold bind at 1.
    destruct (key_sets_differ a b); [done |].
    unfold lift. by rewrite Hc.
Qed.

Lemma any_record_differs_false_inv (l new_domains : list (pykey * json)) :
  (forall k r, (k, r) ∈ l -> keyed k r) ->
  any_record_differs (dict_values l) new_domains = Ok false ->
  forall k r, (k, r) ∈ l -> py_ne r (or_none (dict_get k new_domains)) = false.
Proof.
  induction l as [|[k0 r0] l IH]; intros Hkeyed Hrun k r Hin.
  - by apply elem_of_nil in Hin.
  - simpl in Hrun.
    destruct (Hkeyed k0 r0) as (name & Hname & Hk); [apply list_elem_of_here |].
    rewrite Hname in Hrun. simpl in Hrun. unfold py_hash in Hrun.
    rewrite Hk in Hrun. simpl in Hrun.
    destruct (py_ne r0 (or_none (dict_get k0 new_domains))) eqn:Hhere; [done |].
    apply elem_of_cons in Hin as [[= -> ->] | Hin]; [done |].
    apply IH; [| done | done]. intros k' r' Hin'. by apply Hkeyed, list_elem_of_further.
Qed.

(** X9.  [sync_domains] returns [False] only for a proposed list that says the
    same as the stored one: every name present on one side only, and every
    name whose records differ, makes it return [True].  Returning [False],
    it has written nothing. *)
Theorem sync_domains_unchanged_only_if_same
    (site : string) (proposed : json) (snova_path : string) (w w' : World) :
  sync_domains site proposed snova_path w = (Ok false, w') ->
  w' = w /\ same_domains (stored_domains snova_path site w) proposed.
Proof.
  intros Hrun. apply sync_domains_inv in Hrun as (a & b & Ha & Hb & Hchanged & ->).
  split; [done |]. exists a, b. split; [done |]. split; [done |].
  destruct (key_sets_differ a b) eqn:Hkeys; [done |].
  apply key_sets_differ_false in Hkeys. split; [done |].
  intros k r1 r2 H1 H2.
  destruct (get_domains_dict_inv _ _ Ha) as [Hwf Hkeyed].
  pose proof (any_record_differs_false_inv a b Hkeyed Hchanged k r1
                (dict_get_elem_of k r1 a H1)) as Hsame.
  rewrite H2 in Hsame. simpl in Hsame. unfold py_ne in Hsame.
  by apply negb_false_iff in Hsame.
Qed.

Lemma sync_domains_unchanged_only_if_same_witness :
  two_domain_world = two_domain_world /\
  same_domains (stored_domains "." "site1" two_domain_world)
    (JList [JObj [("ssl_certificate_key", JStr "Y"); ("domain", JStr "b.com");
                  ("ssl_certificate", JStr "X")];
            JObj [("domain", JStr "a.com")]]).
Proof.
  apply (sync_domains_unchanged_only_if_same "site1" _ "." two_domain_world
           two_domain_world).
  reflexivity.
Defined.

Lemma py_iter_wf (domains : json) (entries : list json) :
  json_wf domains -> py_iter domains = Ok entries -> Forall json_wf entries.
Proof.
  destruct domains as [| b | n | s | l | o]; simpl; try done.
  - intros _ [= <-]. induction s as [|c s IH]; simpl; [done |]. by constructor.
  - intros Hwf [= <-]. by apply json_wf_list.
  - intros _ [= <-]. apply Forall_forall. intros x Hx.
    apply list_elem_of_fmap in Hx as (k & -> & _). done.
Qed.

Lemma fill_domains_dict_wf (entries : list json) (acc dd : list (pykey * json)) :
  Forall json_wf entries ->
  (forall k r, (k, r) ∈ acc -> json_wf r) ->
  fill_domains_dict entries acc = Ok dd ->
  forall k r, (k, r) ∈ dd -> json_wf r.
Proof.
  revert acc. induction entries as [|d rest IH]; intros acc Hwf Hacc; simpl.
  - by intros [= <-].
  - apply Forall_cons in Hwf as [Hd Hrest].
    assert (Hset : forall k0 r0, json_wf r0 ->
              forall k r, (k, r) ∈ dict_set k0 r0 acc -> json_wf r).
    { intros k0 r0 Hr0 k r Hin.
      apply dict_set_elem_of in Hin as [[-> ->] | Hin]; [done | by eapply Hacc]. }
    destruct d as [| b | n | s | l | o]; try by apply IH.
    + apply IH; [done |]. apply Hset. simpl. split; [solve_dict_wf | done].
    + simpl. destruct (dict_get "domain" o) as [name|]; simpl; [| done].
      unfold py_hash. destruct (hash_key name) as [k|]; simpl; [| done].
      apply IH; [done |]. by apply Hset.
Qed.

Lemma get_domains_dict_falsy (domains : json) (b : list (pykey * json)) :
  truthy domains = false -> get_domains_dict domains = Ok b ->
  get_domains_dict (JList []) = Ok b.
Proof.
  unfold get_domains_dict.
  destruct domains as [| x | n | s | l | o]; simpl; try done.
  - destruct s; [done | by simpl].
  - by destruct l.
  - by destruct o.
Qed.

(** X10.  Reconciling a site under ["."] with a list and then with the same list
    again: the second call returns [False] and writes nothing, whatever
    the first one found. *)
Theorem sync_domains_twice_is_unchanged
    (site : string) (domains : json) (w w1 : World) (changed : bool) :
  json_wf domains ->
  sync_domains site domains "." w = (Ok changed, w1) ->
  sync_domains site domains "." w1 = (Ok false, w1).
Proof.
  intros Hwf Hrun. pose proof Hrun as Hinv.
  apply sync_domains_inv in Hinv as (a & b & Ha & Hb & Hchanged & Hw1).
  destruct changed; [| by subst w1].
  rewrite update_site_config_run in Hw1. cbn [snd] in Hw1.
  assert (Hstored : get_domains_dict (stored_domains "." site w1) = Ok b).
  { subst w1. rewrite stored_domains_written.
    destruct (truthy domains) eqn:Htruthy; [done |].
    by apply (get_domains_dict_falsy domains). }
  rewrite (sync_domains_run site domains "." w1 b b false Hstored Hb); [done |].
  assert (Hkeys : key_sets_differ b b = false) by by apply key_sets_differ_false.
  rewrite Hkeys.
  destruct (get_domains_dict_inv _ _ Hb) as [Hnd Hkeyed].
  apply any_record_differs_none. intros k r Hin. split; [by apply Hkeyed |].
  rewrite (dict_elem_of_get k r b Hnd Hin). simpl. unfold py_ne.
  rewrite py_eq_refl; [done |].
  unfold get_domains_dict in Hb.
  destruct (py_iter domains) as [entries|] eqn:Hiter; [| done]. simpl in Hb.
  eapply (fill_domains_dict_wf entries [] b); [by eapply py_iter_wf | | done | done].
  intros k' r' Hin'. by apply elem_of_nil in Hin'.
Qed.

Lemma sync_domains_twice_is_unchanged_witness :
  let first := sync_domains "site1" (JList [JStr "a.com"; JStr "b.com"]) "." two_domain_world in
  first.1 = Ok true /\
  sync_domains "site1" (JList [JStr "a.com"; JStr "b.com"]) "." first.2
  = (Ok false, first.2).
Proof.
  cbv zeta. split; [reflexivity |].
  apply (sync_domains_twice_is_unchanged "site1" (JList [JStr "a.com"; JStr "b.com"])
           two_domain_world _ true).
  - solve_json_wf.
  - reflexivity.
Defined.

(** X11.  With a [snova_path] that is another installation than the
    working directory [cwd], a change is found again on every call: the
    list that is read is never the one that was written. *)
Theorem sync_domains_elsewhere_finds_change_again
    (cwd site : string) (domains : json) (snova_path : string) (w w1 : World) :
  another_install cwd snova_path site ->
  sync_domains site domains snova_path w = (Ok true, w1) ->
  exists w2, sync_domains site domains snova_path w1 = (Ok true, w2).
Proof.
  intros Hpath%another_install_path Hrun.
  apply sync_domains_inv in Hrun as (a & b & Ha & Hb & Hchanged & ->).
  rewrite update_site_config_run. cbn [snd].
  eexists. apply (sync_domains_run site domains snova_path _ a b true); [| done | done].
  rewrite <- Ha. f_equal. unfold stored_domains, site_config. simpl.
  by rewrite lookup_insert_ne.
Qed.

Lemma sync_domains_elsewhere_finds_change_again_witness :
  another_install "/home/sparrow/myinstall" "/srv/install" "site1" /\
  exists w2,
    sync_domains "site1" (JList [JStr "b.com"]) "/srv/install"
      (sync_domains "site1" (JList [JStr "b.com"]) "/srv/install" other_install_world).2
    = (Ok true, w2).
Proof.
  assert (Hother : another_install "/home/sparrow/myinstall" "/srv/install" "site1")
    by (vm_compute; discriminate).
  split; [exact Hother |].
  apply (sync_domains_elsewhere_finds_change_again "/home/sparrow/myinstall" "site1"
           (JList [JStr "b.com"]) "/srv/install" other_install_world).
  - exact Hother.
  - reflexivity.
Defined.

(** *** Properties of a site that go into the nginx config *)

(** X12.  [set_site_config_nginx_property], and with it [set_nginx_port],
    [set_ssl_certificate] and [set_ssl_certificate_key]: for a site the
    installation does not have it raises and touches nothing; for a site
    it has, the config is written first and the nginx config is made
    afterwards, if asked for, so that a failure there leaves the new value
    stored. *)
Theorem nginx_property_checks_site_then_writes
    (env : Env) (site : string) (config : list (string * json)) (snova_path : string)
    (gen_config : bool) (w : World) :
  let run := set_site_config_nginx_property env site config snova_path gen_config w in
  (site ∉ sites env snova_path -> run = (Raise (Exception "No such site"), w)) /\
  (site ∈ sites env snova_path ->
   files run.2 =
     <[site_config_path snova_path site :=
         dict_update (site_config snova_path site w) config]> (files w) /\
   trace run.2 =
     trace w
     ++ [EvWrite (site_config_path snova_path site)
           (json_dump (dict_update (site_config snova_path site w) config))]
     ++ (if gen_config then [EvCall MakeNginxConf] else []) /\
   run.1 =
     match make_nginx_conf env with
     | Some f => if gen_config then Raise (exn_of_failure f) else Ok tt
     | None => Ok tt
     end).
Proof.
  cbv zeta. unfold set_site_config_nginx_property. split; intros Hsite.
  - by rewrite bool_decide_eq_false_2.
  - rewrite bool_decide_eq_true_2 by done. simpl.
    rewrite (bind_ok _ _ _ _ _ (update_site_config_run _ _ _ _)).
    destruct gen_config.
    + unfold invoke, bind, emit, ret, raise. simpl.
      destruct (make_nginx_conf env); simpl; by rewrite <- app_assoc.
    + unfold ret. simpl. by destruct (make_nginx_conf env).
Qed.

(** [env] in which making the nginx config fails. *)
Definition failing_nginx_env : Env :=
  mkEnv (cwd calm_env) (snova_name calm_env) (sites calm_env) (apps calm_env)
    (current_branch calm_env) (version_upgrade calm_env) (which calm_env)
    (confirmed calm_env) (patches_run calm_env) (backup_all_sites calm_env)
    (pull_apps calm_env) (setup_requirements calm_env) (migrate_site calm_env)
    (build calm_env) (redis_generate_config calm_env)
    (generate_supervisor_config calm_env) (Some (Failed "nginx not installed"))
    (reload calm_env) (cmd_output calm_env) (exit_status calm_env).

Lemma nginx_property_checks_site_then_writes_witness :
  set_nginx_port failing_nginx_env "site9" (JNum 8080) "." true two_domain_world
  = (Raise (Exception "No such site"), two_domain_world) /\
  (set_nginx_port failing_nginx_env "site1" (JNum 8080) "." true two_domain_world).1
  = Raise (ExternalError "nginx not installed") /\
  dict_get "nginx_port"
    (site_config "." "site1"
       (set_nginx_port failing_nginx_env "site1" (JNum 8080) "." true two_domain_world).2)
  = Some (JNum 8080).
Proof.
  destruct (nginx_property_checks_site_then_writes failing_nginx_env "site9"
              [("nginx_port", JNum 8080)] "." true two_domain_world) as [Hunknown _].
  destruct (nginx_property_checks_site_then_writes failing_nginx_env "site1"
              [("nginx_port", JNum 8080)] "." true two_domain_world) as [_ Hknown].
  split.
  - apply Hunknown. vm_compute.
    intros Hin. repeat (apply elem_of_cons in Hin as [Hin | Hin]; [discriminate |]).
    by apply elem_of_nil in Hin.
  - destruct Hknown as (Hfiles & _ & Hresult).
    + vm_compute. apply list_elem_of_here.
    + split; [exact Hresult |].
      unfold site_config, set_nginx_port. rewrite Hfiles. reflexivity.
Defined.

(** ** snova/utils/snova.py: the pipeline as a whole *)

(** [hoare P c Q E]: started in a world with [P], the computation [c]
    returns [a] in a world with [Q a], or raises [e] in a world with
    [E e]. *)
Definition hoare {A} (P : World -> Prop) (c : M A) (Q : A -> World -> Prop)
    (E : exn -> World -> Prop) : Prop :=
  forall w, P w ->
    match c w with
    | (Ok a, w') => Q a w'
    | (Raise e, w') => E e w'
    end.

Section hoare_rules.
Context {A B : Type}.
Implicit Types (P : World -> Prop) (E : exn -> World -> Prop).

Lemma hoare_ret P E (a : A) : hoare P (ret a) (fun _ => P) E.
Proof. by intros w Hw. Qed.

Lemma hoare_raise P (Q : A -> World -> Prop) E (e : exn) :
  (forall w, P w -> E e w) -> hoare P (raise e) Q E.
Proof. intros He w Hw. by apply He. Qed.

Lemma hoare_bind P (c : M A) (Q : A -> World -> Prop) (k : A -> M B)
    (S : B -> World -> Prop) E :
  hoare P c Q E -> (forall a, hoare (Q a) (k a) S E) -> hoare P (bind c k) S E.
Proof.
  intros Hc Hk w Hw. unfold bind. specialize (Hc w Hw).
  destruct (c w) as [[a|e] w']; [by apply Hk | done].
Qed.

Lemma hoare_weaken P P' (c : M A) (Q Q' : A -> World -> Prop) E E' :
  hoare P' c Q' E' ->
  (forall w, P w -> P' w) -> (forall a w, Q' a w -> Q a w) ->
  (forall e w, E' e w -> E e w) ->
  hoare P c Q E.
Proof.
  intros Hc HP HQ HE w Hw. specialize (Hc w (HP w Hw)).
  destruct (c w) as [[a|e] w']; [by apply HQ | by apply HE].
Qed.

Lemma hoare_pure (fact : Prop) P (c : M A) (Q : A -> World -> Prop) E :
  (fact -> hoare P c Q E) -> hoare (fun w => P w /\ fact) c Q E.
Proof. intros Hc w [Hw Hfact]. by apply Hc. Qed.
End hoare_rules.

Section hoare_steps.
Variable ok : event -> Prop.
Variable P : World -> Prop.
Variable E : exn -> World -> Prop.
Hypothesis P_stable : stable ok P.
(** What outside code raises is acceptable wherever [P] holds. *)
Hypothesis outside_ok : forall f w, P w -> E (exn_of_failure f) w.

Lemma hoare_emit (e : event) : ok e -> hoare P (emit e) (fun _ => P) E.
Proof. intros He w Hw. by apply P_stable. Qed.

Lemma hoare_invoke (c : call) (outcome : option failure) :
  ok (EvCall c) -> hoare P (invoke c outcome) (fun _ => P) E.
Proof.
  intros Hc. unfold invoke. eapply hoare_bind; [by apply hoare_emit |].
  intros ?. destruct outcome as [f|]; [| apply hoare_ret].
  apply hoare_raise. intros w Hw. by apply outside_ok.
Qed.

Lemma hoare_stage (enabled : bool) (text : string) (c : call) (outcome : option failure) :
  ok (EvPrint text) -> (enabled = true -> ok (EvCall c)) ->
  hoare P (if enabled then print text;; invoke c outcome else ret tt) (fun _ => P) E.
Proof.
  intros Htext Hc. destruct enabled; [| apply hoare_ret].
  eapply hoare_bind; [by apply hoare_emit | intros ?].
  by apply hoare_invoke, Hc.
Qed.

Lemma hoare_snova_conf (snova_path : string) :
  hoare P (snova_conf snova_path)
    (fun conf w => P w /\ conf = installation_config snova_path w) E.
Proof. intros w Hw. by rewrite snova_conf_run. Qed.
End hoare_steps.

(** The stages a call of [update] has selected: all four when none is
    asked for. *)
Definition selected_stages (args : UpdateArgs) : bool * bool * bool * bool :=
  if negb (arg_pull args || arg_patch args || arg_build args || arg_requirements args)
  then (true, true, true, true)
  else (arg_pull args, arg_patch args, arg_build args, arg_requirements args).

(** An event a run with these arguments may have: a stage is started only
    if it is selected, the backup only if it is asked for. *)
Definition stage_allowed (args : UpdateArgs) (e : event) : Prop :=
  let '(pull, patch, build_, requirements) := selected_stages args in
  match e with
  | EvCall BackupAllSites => arg_backup args = true
  | EvCall (PullApps _ _) => pull = true
  | EvCall SetupRequirements => requirements = true
  | EvCall (MigrateSite _) => patch = true
  | EvCall Build => build_ = true
  | _ => True
  end.

(** The exceptions [update] and the checks it makes raise themselves. *)
Definition gate_exn (e : exn) : Prop :=
  match e with
  | CannotUpdateReleaseSnova _ | SystemExit _ | Abort | Exception _ => True
  | _ => False
  end.

Section update_outcomes.
Variable env : Env.
Variable args : UpdateArgs.
Variable w0 : World.
Hypothesis conf_wf : dict_wf (installation_config (cwd env) w0).

Definition events_since (w : World) : Prop :=
  exists evs, trace w = trace w0 ++ evs /\ Forall (stage_allowed args) evs.

(** Nothing written yet. *)
Definition untouched (w : World) : Prop := files w = files w0 /\ events_since w.

(** The installation config with both flags at [flag], every other key as
    it was at the start, and no other file changed. *)
Definition flags_at (flag : Z) (w : World) : Prop :=
  (dict_get "maintenance_mode" (installation_config (cwd env) w) = Some (JNum flag) /\
   dict_get "pause_scheduler" (installation_config (cwd env) w) = Some (JNum flag) /\
   (forall k, k <> "maintenance_mode" -> k <> "pause_scheduler" ->
      dict_get k (installation_config (cwd env) w)
      = dict_get k (installation_config (cwd env) w0)) /\
   (forall path, path <> common_site_config_path (cwd env) ->
      files w !! path = files w0 !! path)) /\
  events_since w.

(** How a failed run leaves the world. *)
Definition failed_in (e : exn) (w : World) : Prop :=
  (files w = files w0 \/ (~ gate_exn e /\ flags_at 1 w)) /\ events_since w.

Lemma events_since_stable : stable (stage_allowed args) events_since.
Proof.
  intros w e He (evs & Htrace & Hok). exists (evs ++ [e]). simpl.
  rewrite Htrace, <- app_assoc. split; [done |].
  apply Forall_app. split; [done |]. by apply Forall_singleton.
Qed.

Lemma untouched_stable : stable (stage_allowed args) untouched.
Proof. intros w e He [Hfiles Hev]. split; [done | by apply events_since_stable]. Qed.

Lemma flags_at_stable (flag : Z) : stable (stage_allowed args) (flags_at flag).
Proof. intros w e He [Hflags Hev]. split; [done | by apply events_since_stable]. Qed.

Lemma untouched_failed (e : exn) (w : World) : untouched w -> failed_in e w.
Proof. intros [Hfiles Hev]. split; [by left | done]. Qed.

Lemma maintenance_failed (f : failure) (w : World) :
  flags_at 1 w -> failed_in (exn_of_failure f) w.
Proof.
  intros Hflags. split; [| apply Hflags]. right. split; [| done].
  destruct f; simpl; tauto.
Qed.

Lemma allowed_print (text : string) : stage_allowed args (EvPrint text).
Proof. unfold stage_allowed. by destruct (selected_stages args) as [[[? ?] ?] ?]. Qed.

Lemma allowed_log (text : string) (level : Z) : stage_allowed args (EvLog text level).
Proof. unfold stage_allowed. by destruct (selected_stages args) as [[[? ?] ?] ?]. Qed.

Lemma allowed_write (path text : string) : stage_allowed args (EvWrite path text).
Proof. unfold stage_allowed. by destruct (selected_stages args) as [[[? ?] ?] ?]. Qed.

(** The checks before maintenance. *)
Lemma hoare_check_branches (tracked : list string) :
  hoare untouched (check_branches env tracked) (fun _ => untouched) failed_in.
Proof.
  induction tracked as [|app rest IH]; simpl; [apply hoare_ret |].
  destruct (String.eqb (current_branch env app) "master"); [| done].
  eapply hoare_bind.
  { apply (hoare_emit (stage_allowed args)); [apply untouched_stable | apply allowed_print]. }
  intros ?. apply hoare_raise. intros w. apply untouched_failed.
Qed.

Lemma hoare_handle_version_upgrade (upgrade : bool * Z * Z) (snova_path : string)
    (force reset : bool) (conf : list (string * json)) :
  hoare untouched (handle_version_upgrade env upgrade snova_path force reset conf)
    (fun _ => untouched) failed_in.
Proof.
  assert (Hemit : forall e, stage_allowed args e ->
            hoare untouched (emit e) (fun _ => untouched) failed_in).
  { intros e He. by apply (hoare_emit (stage_allowed args)), He; apply untouched_stable. }
  assert (Hcall : forall c,
            hoare untouched (emit (EvCall c)) (fun _ => untouched) failed_in ->
            hoare untouched (invoke c None) (fun _ => untouched) failed_in).
  { intros c Hc. unfold invoke. eapply hoare_bind; [exact Hc |].
    intros ?. apply hoare_ret. }
  destruct upgrade as [[major from_ver] to_ver]. unfold handle_version_upgrade.
  eapply hoare_bind.
  { destruct major; [| apply hoare_ret].
    destruct force; [apply Hemit, allowed_log |].
    eapply hoare_bind; [apply Hemit, allowed_print |]. intros ?.
    eapply hoare_bind.
    { apply Hemit. unfold stage_allowed. by destruct (selected_stages args) as [[[? ?] ?] ?]. }
    intros ?. destruct (confirmed env); [apply hoare_ret |].
    apply hoare_raise. intros w. apply untouched_failed. }
  intros ?. eapply hoare_bind.
  { destruct (_ && _); [| apply hoare_ret].
    eapply hoare_bind; [apply Hemit, allowed_log |]. intros ?.
    apply Hcall, Hemit. unfold stage_allowed.
    by destruct (selected_stages args) as [[[? ?] ?] ?]. }
  intros ?. destruct (_ || _); [| apply hoare_ret].
  unfold validate_upgrade. destruct (_ && _); [| apply hoare_ret].
  apply hoare_raise. intros w. apply untouched_failed.
Qed.

Let conf1 : list (string * json) :=
  dict_update (installation_config (cwd env) w0)
    [("maintenance_mode", JNum 1); ("pause_scheduler", JNum 1)].
Let conf2 : list (string * json) :=
  dict_update conf1 [("maintenance_mode", JNum 0); ("pause_scheduler", JNum 0)].

Lemma flags_written (flag : Z) (conf : list (string * json)) (w : World) :
  dict_wf conf ->
  dict_get "maintenance_mode" conf = Some (JNum flag) ->
  dict_get "pause_scheduler" conf = Some (JNum flag) ->
  (forall k, k <> "maintenance_mode" -> k <> "pause_scheduler" ->
     dict_get k conf = dict_get k (installation_config (cwd env) w0)) ->
  (forall k, k <> "maintenance_mode" -> k <> "pause_scheduler" ->
     dict_get k (installation_config (cwd env) w)
     = dict_get k (installation_config (cwd env) w0)) ->
  (forall path, path <> common_site_config_path (cwd env) ->
     files w !! path = files w0 !! path) ->
  events_since w ->
  flags_at flag
    (mkWorld
       (<[common_site_config_path (cwd env) :=
            dict_update (installation_config (cwd env) w) conf]> (files w))
       (trace w ++ [EvWrite (common_site_config_path (cwd env))
                      (json_dump_sorted
                         (dict_update (installation_config (cwd env) w) conf))])).
Proof.
  intros Hwf Hmm Hps Hconf Hold Hfiles Hev. split.
  - rewrite installation_config_written. split_and!.
    + rewrite dict_get_update by done. by rewrite Hmm.
    + rewrite dict_get_update by done. by rewrite Hps.
    + intros k Hk1 Hk2. rewrite dict_get_update by done.
      rewrite (Hconf k Hk1 Hk2), (Hold k Hk1 Hk2).
      by destruct (dict_get k (installation_config (cwd env) w0)).
    + intros path Hpath. simpl. rewrite lookup_insert_ne by done. by apply Hfiles.
  - apply (events_since_stable w (EvWrite _ _)); [apply allowed_write | done].
Qed.

Lemma conf1_facts :
  dict_wf conf1 /\
  dict_get "maintenance_mode" conf1 = Some (JNum 1) /\
  dict_get "pause_scheduler" conf1 = Some (JNum 1) /\
  (forall k, k <> "maintenance_mode" -> k <> "pause_scheduler" ->
     dict_get k conf1 = dict_get k (installation_config (cwd env) w0)).
Proof.
  unfold conf1, dict_update. simpl. split_and!.
  - by repeat apply dict_set_wf.
  - rewrite dict_get_set_ne by done. apply dict_get_set_eq.
  - apply dict_get_set_eq.
  - intros k Hk1 Hk2. by rewrite !dict_get_set_ne.
Qed.

Lemma conf2_facts :
  dict_wf conf2 /\
  dict_get "maintenance_mode" conf2 = Some (JNum 0) /\
  dict_get "pause_scheduler" conf2 = Some (JNum 0) /\
  (forall k, k <> "maintenance_mode" -> k <> "pause_scheduler" ->
     dict_get k conf2 = dict_get k (installation_config (cwd env) w0)).
Proof.
  destruct conf1_facts as (Hwf & _ & _ & Hother).
  unfold conf2, dict_update. simpl. split_and!.
  - by repeat apply dict_set_wf.
  - rewrite dict_get_set_ne by done. apply dict_get_set_eq.
  - apply dict_get_set_eq.
  - intros k Hk1 Hk2. rewrite !dict_get_set_ne by done. by apply Hother.
Qed.

Lemma hoare_enter_maintenance :
  hoare untouched (update_config conf1 (cwd env)) (fun _ => flags_at 1) failed_in.
Proof.
  intros w [Hfiles Hev]. unfold update_config. rewrite update_common_site_config_run.
  destruct conf1_facts as (Hwf & Hmm & Hps & Hother).
  apply flags_written; try done.
  - intros k _ _. unfold installation_config. by rewrite Hfiles.
  - intros path _. by rewrite Hfiles.
Qed.

Lemma hoare_leave_maintenance :
  hoare (flags_at 1) (update_config conf2 (cwd env)) (fun _ => flags_at 0) failed_in.
Proof.
  intros w [(_ & _ & Hold & Hfiles) Hev]. unfold update_config.
  rewrite update_common_site_config_run.
  destruct conf2_facts as (Hwf & Hmm & Hps & Hother).
  by apply flags_written.
Qed.

Lemma hoare_patch_each (site_list : list string) :
  (forall site, stage_allowed args (EvCall (MigrateSite site))) ->
  hoare (flags_at 1) (patch_each env site_list) (fun _ => flags_at 1) failed_in.
Proof.
  intros Hok.
  induction site_list as [|site rest IH]; simpl; [apply hoare_ret |].
  eapply hoare_bind; [| intros ?; exact IH].
  intros w Hw. unfold try_called_process_error, invoke, bind, emit, raise, ret.
  pose proof (flags_at_stable 1 w (EvCall (MigrateSite site)) (Hok site) Hw) as Hw'.
  destruct (migrate_site env site) as [[rc|msg]|]; simpl; [| | done].
  - split; [| apply Hw']. right. split; [simpl; tauto | done].
  - by apply (maintenance_failed (Failed msg)).
Qed.

Lemma hoare_post_upgrade (from_ver to_ver : Z) (snova_path : string) :
  hoare (flags_at 1) (post_upgrade env from_ver to_ver snova_path)
    (fun _ => flags_at 1) failed_in.
Proof.
  assert (Hcall : forall c outcome, stage_allowed args (EvCall c) ->
            hoare (flags_at 1) (invoke c outcome) (fun _ => flags_at 1) failed_in).
  { intros c outcome Hc.
    apply (hoare_invoke (stage_allowed args)); [apply flags_at_stable | | done].
    intros f w. apply maintenance_failed. }
  assert (Hprint : forall text,
            hoare (flags_at 1) (print text) (fun _ => flags_at 1) failed_in).
  { intros text.
    apply (hoare_emit (stage_allowed args)); [apply flags_at_stable | apply allowed_print]. }
  unfold post_upgrade. eapply hoare_bind; [apply hoare_snova_conf |].
  intros conf.
  eapply hoare_weaken with (P' := flags_at 1) (Q' := fun _ => flags_at 1) (E' := failed_in);
    [| by intros w [? _] | done | done].
  eapply hoare_bind; [apply Hprint | intros ?].
  destruct (truthy _); [| apply hoare_ret].
  assert (Hother : forall c, match c with
                             | RedisGenerateConfig | GenerateSupervisorConfig
                             | MakeNginxConf => True
                             | _ => False
                             end -> stage_allowed args (EvCall c)).
  { intros c Hc. unfold stage_allowed.
    destruct (selected_stages args) as [[[? ?] ?] ?]. by destruct c. }
  eapply hoare_bind; [by apply Hcall, Hother | intros ?].
  eapply hoare_bind; [by apply Hcall, Hother | intros ?].
  eapply hoare_bind; [by apply Hcall, Hother | intros ?].
  apply Hprint.
Qed.

(** The whole of [update]: it ends with both flags back at 0, or raises in
    a world that is untouched or in maintenance. *)
Lemma hoare_update :
  hoare untouched (update env args) (fun _ => flags_at 0) failed_in.
Proof.
  unfold update.
  assert (Hgate : forall c outcome, stage_allowed args (EvCall c) ->
            hoare untouched (invoke c outcome) (fun _ => untouched) failed_in).
  { intros c outcome Hc.
    apply (hoare_invoke (stage_allowed args)); [apply untouched_stable | | done].
    intros f w. apply untouched_failed. }
  assert (Hstage : forall enabled text c outcome,
            (enabled = true -> stage_allowed args (EvCall c)) ->
            hoare (flags_at 1)
              (if enabled : bool then print text;; invoke c outcome else ret tt)
              (fun _ => flags_at 1) failed_in).
  { intros enabled text c outcome Hc.
    apply (hoare_stage (stage_allowed args));
      [apply flags_at_stable | | apply allowed_print | done].
    intros f w. apply maintenance_failed. }
  eapply hoare_bind.
  { apply Hgate. unfold stage_allowed. by destruct (selected_stages args) as [[[? ?] ?] ?]. }
  intros ?. eapply hoare_bind; [apply hoare_snova_conf | intros conf].
  eapply hoare_weaken with
    (P' := fun w => untouched w /\ conf = installation_config (cwd env) w0)
    (Q' := fun _ => flags_at 0) (E' := failed_in); [| | done | done].
  2: { intros w [[Hfiles Hev] ->]. split; [done |].
       unfold installation_config. by rewrite Hfiles. }
  apply hoare_pure. intros ->.
  destruct (truthy _); [apply hoare_raise; intros w; apply untouched_failed |].
  pose proof (eq_refl (selected_stages args)) as Hsel.
  unfold selected_stages in Hsel at 2. unfold stage_allowed in Hstage.
  destruct (if negb _ then _ else _) as [[[pull patch] build_] requirements].
  rewrite Hsel in Hstage.
  eapply hoare_bind; [apply hoare_check_branches | intros ?].
  eapply hoare_bind; [apply hoare_handle_version_upgrade | intros ?].
  eapply hoare_bind; [apply hoare_enter_maintenance | intros ?].
  eapply hoare_bind; [by apply Hstage | intros ?].
  eapply hoare_bind; [by apply Hstage | intros ?].
  eapply hoare_bind; [by apply Hstage | intros ?].
  eapply hoare_bind.
  { instantiate (1 := fun _ => flags_at 1).
    destruct patch; [| apply hoare_ret].
    eapply hoare_bind.
    { apply (hoare_emit (stage_allowed args));
        [apply flags_at_stable | apply allowed_print]. }
    intros ?. apply hoare_patch_each.
    intros site. unfold stage_allowed. by rewrite Hsel. }
  intros ?. eapply hoare_bind; [by apply Hstage | intros ?].
  eapply hoare_bind.
  { instantiate (1 := fun _ => flags_at 1).
    destruct (_ || _); [apply hoare_post_upgrade | apply hoare_ret]. }
  intros ?. eapply hoare_bind.
  { apply (hoare_invoke (stage_allowed args)); [apply flags_at_stable | |].
    - intros f w. apply maintenance_failed.
    - unfold stage_allowed. by rewrite Hsel. }
  intros ?. eapply hoare_bind; [apply hoare_leave_maintenance | intros ?].
  apply (hoare_emit (stage_allowed args)); [apply flags_at_stable | apply allowed_print].
Qed.
End update_outcomes.

(** X13.  A run of [update] that returns has left maintenance: the stored
    [maintenance_mode] and [pause_scheduler] are 0, every other key of the
    installation config is as it was, and no other file has changed. *)
Theorem update_success_ends_maintenance
    (env : Env) (args : UpdateArgs) (w w' : World) :
  dict_wf (installation_config (cwd env) w) ->
  update env args w = (Ok tt, w') ->
  dict_get "maintenance_mode" (installation_config (cwd env) w') = Some (JNum 0) /\
  dict_get "pause_scheduler" (installation_config (cwd env) w') = Some (JNum 0) /\
  (forall k, k <> "maintenance_mode" -> k <> "pause_scheduler" ->
     dict_get k (installation_config (cwd env) w')
     = dict_get k (installation_config (cwd env) w)) /\
  (forall path, path <> common_site_config_path (cwd env) ->
     files w' !! path = files w !! path).
Proof.
  intros Hwf Hrun.
  assert (Hstart : untouched args w w).
  { split; [done |]. exists []. by rewrite app_nil_r. }
  pose proof (hoare_update env args w Hwf w Hstart) as Hend.
  rewrite Hrun in Hend. by destruct Hend as [Hflags _].
Qed.

Lemma update_success_ends_maintenance_witness :
  let run := update calm_env default_args fresh_install_world in
  run.1 = Ok tt /\
  dict_get "maintenance_mode" (installation_config (cwd calm_env) run.2) = Some (JNum 0) /\
  dict_get "db_host" (installation_config (cwd calm_env) run.2) = Some (JStr "localhost").
Proof.
  cbv zeta. split; [reflexivity |].
  destruct (update_success_ends_maintenance calm_env default_args fresh_install_world
              (update calm_env default_args fresh_install_world).2)
    as (Hmm & _ & Hother & _); [solve_dict_wf | vm_compute; reflexivity |].
  split; [exact Hmm |]. by rewrite Hother.
Defined.

(** X14.  A run of [update] that raises has either written no file at all, or
    has left the installation in maintenance, both flags at 1, every other
    key and file as it was.  The errors [update] raises itself, for a
    release installation, a deprecated branch, a declined confirmation or a
    missing node, always come before any file is written. *)
Theorem update_failure_is_untouched_or_in_maintenance
    (env : Env) (args : UpdateArgs) (w w' : World) (e : exn) :
  dict_wf (installation_config (cwd env) w) ->
  update env args w = (Raise e, w') ->
  (files w' = files w \/
   (dict_get "maintenance_mode" (installation_config (cwd env) w') = Some (JNum 1) /\
    dict_get "pause_scheduler" (installation_config (cwd env) w') = Some (JNum 1) /\
    (forall k, k <> "maintenance_mode" -> k <> "pause_scheduler" ->
       dict_get k (installation_config (cwd env) w')
       = dict_get k (installation_config (cwd env) w)) /\
    (forall path, path <> common_site_config_path (cwd env) ->
       files w' !! path = files w !! path))) /\
  (match e with
   | CannotUpdateReleaseSnova _ | SystemExit _ | Abort | Exception _ => files w' = files w
   | _ => True
   end).
Proof.
  intros Hwf Hrun.
  assert (Hstart : untouched args w w).
  { split; [done |]. exists []. by rewrite app_nil_r. }
  pose proof (hoare_update env args w Hwf w Hstart) as Hend.
  rewrite Hrun in Hend. destruct Hend as [[Hfiles | [Hgate [Hflags _]]] _].
  - split; [by left |]. by destruct e.
  - split; [by right |]. by destruct e; simpl in Hgate; try tauto.
Qed.

(** [env] where the build of the assets fails. *)
Definition failing_build_env : Env :=
  mkEnv (cwd calm_env) (snova_name calm_env) (sites calm_env) (apps calm_env)
    (current_branch calm_env) (version_upgrade calm_env) (which calm_env)
    (confirmed calm_env) (patches_run calm_env) (backup_all_sites calm_env)
    (pull_apps calm_env) (setup_requirements calm_env) (migrate_site calm_env)
    (Some (ProcessFailed 2)) (redis_generate_config calm_env)
    (generate_supervisor_config calm_env) (make_nginx_conf calm_env) (reload calm_env)
    (cmd_output calm_env) (exit_status calm_env).

Lemma update_failure_is_untouched_or_in_maintenance_witness :
  let run := update failing_build_env default_args fresh_install_world in
  run.1 = Raise (CalledProcessError 2) /\
  (files run.2 = files fresh_install_world \/
   dict_get "maintenance_mode" (installation_config (cwd calm_env) run.2) = Some (JNum 1)).
Proof.
  cbv zeta. split; [reflexivity |].
  destruct (update_failure_is_untouched_or_in_maintenance failing_build_env default_args
              fresh_install_world
              (update failing_build_env default_args fresh_install_world).2
              (CalledProcessError 2))
    as [[Hfiles | (Hmm & _)] _];
    [solve_dict_wf | vm_compute; reflexivity | by left | by right].
Defined.

(** X15.  In every run of [update], whatever its end, a stage is started only
    if it is selected: the backup only when asked for, and pull,
    requirements, migrations and build only when their flag is given, or
    when none of the four is. *)
Theorem update_starts_selected_stages_only
    (env : Env) (args : UpdateArgs) (w : World) :
  dict_wf (installation_config (cwd env) w) ->
  exists evs,
    trace (update env args w).2 = trace w ++ evs /\
    Forall (stage_allowed args) evs.
Proof.
  intros Hwf.
  assert (Hstart : untouched args w w).
  { split; [done |]. exists []. by rewrite app_nil_r. }
  pose proof (hoare_update env args w Hwf w Hstart) as Hend.
  destruct (update env args w) as [[[]|e] w']; simpl.
  - by destruct Hend as [_ Hev].
  - by destruct Hend as [_ Hev].
Qed.

Definition patch_only_args : UpdateArgs :=
  mkUpdateArgs false None true false false false true false false false false.

Lemma update_starts_selected_stages_only_witness :
  exists evs,
    trace (update calm_env patch_only_args fresh_install_world).2 = [] ++ evs /\
    Forall (stage_allowed patch_only_args) evs /\
    ~ stage_allowed patch_only_args (EvCall Build) /\
    ~ stage_allowed patch_only_args (EvCall (PullApps [] false)) /\
    ~ stage_allowed patch_only_args (EvCall BackupAllSites).
Proof.
  destruct (update_starts_selected_stages_only calm_env patch_only_args fresh_install_world)
    as (evs & Htrace & Hok); [solve_dict_wf |].
  exists evs. split; [exact Htrace |]. split; [exact Hok |].
  vm_compute. split_and!; discriminate.
Defined.

(** ** snova/utils/snova.py: the stages one by one *)

Definition migrations (site_list : list string) : list event :=
  map (fun site => EvCall (MigrateSite site)) site_list.

Lemma patch_each_all (env : Env) (site_list : list string) (w : World) :
  (forall site, site ∈ site_list -> migrate_site env site = None) ->
  patch_each env site_list w =
    (Ok tt, mkWorld (files w) (trace w ++ migrations site_list)).
Proof.
  revert w. induction site_list as [|site rest IH]; intros w Hall; simpl.
  - rewrite app_nil_r. by destruct w.
  - unfold bind at 1, try_called_process_error, invoke, bind at 1, emit, ret.
    rewrite (Hall site) by apply list_elem_of_here. simpl.
    rewrite IH by (intros s Hs; by apply Hall, list_elem_of_further).
    simpl. by rewrite <- app_assoc.
Qed.

(** The exception a failed migration turns into. *)
Definition patch_failure (f : failure) : exn :=
  match f with
  | ProcessFailed _ => PatchError
  | Failed msg => ExternalError msg
  end.

(** X16.  [patch_sites] migrates the sites in their order and stops at the first
    one that fails: the sites after it are not migrated.  A migration
    command that exits with an error gives [PatchError]; any other
    exception of the migration goes through as it is.  With no failure,
    every site has been migrated. *)
Theorem patch_sites_stops_at_first_failure
    (env : Env) (snova_path : string) (w : World) :
  (forall migrated site rest f,
     sites env snova_path = migrated ++ site :: rest ->
     (forall s, s ∈ migrated -> migrate_site env s = None) ->
     migrate_site env site = Some f ->
     patch_sites env snova_path w =
       (Raise (patch_failure f),
        mkWorld (files w) (trace w ++ migrations (migrated ++ [site])))) /\
  ((forall s, s ∈ sites env snova_path -> migrate_site env s = None) ->
   patch_sites env snova_path w =
     (Ok tt, mkWorld (files w) (trace w ++ migrations (sites env snova_path)))).
Proof.
  unfold patch_sites. split; [| apply patch_each_all].
  intros migrated site rest f -> Hfine Hfail. revert w.
  induction migrated as [|s migrated IH]; intros w; simpl.
  - unfold bind at 1, try_called_process_error, invoke, bind at 1, emit, ret, raise.
    rewrite Hfail. by destruct f.
  - unfold bind at 1, try_called_process_error, invoke, bind at 1, emit, ret.
    rewrite (Hfine s) by apply list_elem_of_here. simpl.
    rewrite IH by (intros s' Hs'; by apply Hfine, list_elem_of_further).
    simpl. by rewrite <- app_assoc.
Qed.

(** [env] with three sites, the second of which fails to migrate. *)
Definition three_site_env : Env :=
  mkEnv (cwd calm_env) (snova_name calm_env) (fun _ => ["site1"; "site2"; "site3"])
    (apps calm_env) (current_branch calm_env) (version_upgrade calm_env) (which calm_env)
    (confirmed calm_env) (patches_run calm_env) (backup_all_sites calm_env)
    (pull_apps calm_env) (setup_requirements calm_env)
    (fun site => if String.eqb site "site2" then Some (ProcessFailed 1) else None)
    (build calm_env) (redis_generate_config calm_env)
    (generate_supervisor_config calm_env) (make_nginx_conf calm_env) (reload calm_env)
    (cmd_output calm_env) (exit_status calm_env).

Lemma patch_sites_stops_at_first_failure_witness :
  patch_sites three_site_env "." (mkWorld ∅ []) =
    (Raise PatchError,
     mkWorld ∅ ([] ++ [EvCall (MigrateSite "site1"); EvCall (MigrateSite "site2")])).
Proof.
  apply (proj1 (patch_sites_stops_at_first_failure three_site_env "." (mkWorld ∅ []))
           ["site1"] "site2" ["site3"] (ProcessFailed 1)).
  - reflexivity.
  - intros s Hs. apply list_elem_of_singleton in Hs as ->. reflexivity.
  - reflexivity.
Defined.

(** *** The restart: override and escalation *)

(** X17.  With [supervisor_restart_cmd] set, that command is all that is run: no
    status is asked for and no group is chosen.  If it fails, the function
    raises when [_raise] is set and otherwise returns without a word. *)
Theorem restart_override_runs_only_the_command
    (env : Env) (snova_path : string) (web_workers _raise : bool) (w : World)
    (cmd : string) :
  dict_get "supervisor_restart_cmd" (installation_config snova_path w) = Some (JStr cmd) ->
  cmd <> EmptyString ->
  restart_supervisor_processes env snova_path web_workers _raise w =
    (if negb (exit_status env cmd =? 0) && _raise
     then Raise (CalledProcessError (exit_status env cmd))
     else Ok tt,
     mkWorld (files w) (trace w ++ [EvCall (Run cmd)])).
Proof.
  intros Hcmd Hne. unfold restart_supervisor_processes.
  rewrite (bind_ok _ _ _ _ _ (snova_conf_run snova_path w)). cbv beta zeta.
  rewrite Hcmd. simpl.
  assert (String.eqb cmd EmptyString = false) as -> by by apply String.eqb_neq.
  simpl. unfold snova_run, bind, emit, ret, raise. simpl.
  by destruct (negb (exit_status env cmd =? 0) && _raise).
Qed.

Definition override_world : World :=
  mkWorld
    {[ "./sites/common_site_config.json" :=
         [("supervisor_restart_cmd", JStr "sudo service supervisor restart")] ]}
    [].

Lemma restart_override_runs_only_the_command_witness :
  restart_supervisor_processes calm_env "." false true override_world =
    (Ok tt,
     mkWorld (files override_world) [EvCall (Run "sudo service supervisor restart")]).
Proof.
  apply (restart_override_runs_only_the_command calm_env "." false true override_world
           "sudo service supervisor restart"); [reflexivity | discriminate].
Defined.

(** The plain probe calls for escalation: it failed with a status other
    than 127, or it answered with the permission error. *)
Definition probe_needs_sudo (env : Env) : Prop :=
  (exists rc, cmd_output env "supervisorctl status" = inr (ProcessFailed rc) /\ rc <> 127) \/
  (exists out, cmd_output env "supervisorctl status" = inl out /\
               contains msg_permission_denied out = true).

(** X18.  When the plain probe calls for escalation, the status is asked for
    once more with [sudo]; the group is chosen from that second answer
    and the restart is issued with [sudo].  If the second probe fails, its
    exception comes out of the function, whether [_raise] is set or not,
    and no restart is issued. *)
Theorem restart_escalates_with_sudo
    (env : Env) (snova_path : string) (web_workers _raise : bool) (w : World) :
  no_restart_override snova_path w ->
  probe_needs_sudo env ->
  let run := restart_supervisor_processes env snova_path web_workers _raise w in
  match cmd_output env "sudo supervisorctl status" with
  | inl status =>
      exists tail,
        trace run.2 =
          trace w
          ++ [EvCall (GetCmdOutput "supervisorctl status");
              EvCall (GetCmdOutput "sudo supervisorctl status");
              EvCall (Run ("sudo supervisorctl restart "
                           +:+ restart_group (snova_name env snova_path) web_workers status))]
          ++ tail /\
        (forall c, EvCall c ∉ tail)
  | inr f =>
      run = (Raise (exn_of_failure f),
             mkWorld (files w)
               (trace w ++ [EvCall (GetCmdOutput "supervisorctl status");
                            EvCall (GetCmdOutput "sudo supervisorctl status")]))
  end.
Proof.
  unfold no_restart_override. intros Hcmd Hprobe. cbv zeta.
  unfold restart_supervisor_processes.
  rewrite (bind_ok _ _ _ _ _ (snova_conf_run snova_path w)). cbv beta zeta.
  rewrite Hcmd.
  set (name := snova_name env snova_path).
  unfold bind, try_called_process_error, get_cmd_output, snova_run, log, bind, emit, ret,
    raise.
  assert (Hno_call : forall c text level, EvCall c ∉ [EvLog text level]).
  { intros c text level Hc. apply list_elem_of_singleton in Hc. discriminate. }
  assert (Hnone : forall c, EvCall c ∉ @nil event).
  { intros c Hc. by apply elem_of_nil in Hc. }
  destruct (cmd_output env "sudo supervisorctl status") as [status|f] eqn:Hsudo;
    destruct Hprobe as [(rc & Hprobe & Hrc) | (out & Hprobe & Hperm)];
    rewrite Hprobe; simpl;
    try (assert (Hrc' : (rc =? 127) = false) by (by apply Z.eqb_neq); rewrite Hrc');
    try rewrite Hperm; simpl; try rewrite Hsudo; simpl;
    try by rewrite <- app_assoc.
  all: change ("sudo supervisorctl restart " +:+ restart_group name web_workers status)
         with ("sudo " +:+ "supervisorctl restart "
               +:+ restart_group name web_workers status);
    set (cmd := "sudo " +:+ "supervisorctl restart "
                +:+ restart_group name web_workers status);
    destruct (negb (exit_status env cmd =? 0)) eqn:Hfail; simpl;
    [destruct _raise; simpl; [| rewrite Hfail; simpl] | rewrite Hfail; simpl];
    rewrite <- !app_assoc; simpl;
    first [ by exists [] | by eexists [_] ].
Qed.

(** [env] where only root may ask the supervisor. *)
Definition root_only_env : Env :=
  with_cmd_output calm_env
    (fun cmd => if String.eqb cmd "supervisorctl status"
                then inr (ProcessFailed 2)
                else inl "myinstall-workers:myinstall-default-worker RUNNING").

Lemma restart_escalates_with_sudo_witness :
  exists tail,
    trace (restart_supervisor_processes root_only_env "." false false (mkWorld ∅ [])).2 =
      [] ++ [EvCall (GetCmdOutput "supervisorctl status");
             EvCall (GetCmdOutput "sudo supervisorctl status");
             EvCall (Run ("sudo supervisorctl restart "
                          +:+ restart_group "myinstall" false
                                "myinstall-workers:myinstall-default-worker RUNNING"))]
         ++ tail /\
    (forall c, EvCall c ∉ tail).
Proof.
  apply (restart_escalates_with_sudo root_only_env "." false false (mkWorld ∅ [])).
  - reflexivity.
  - left. exists 2. split; [reflexivity | discriminate].
Defined.

(** ** snova/utils/snova.py: the hosts of the installation-wide config *)

Lemma same_json_refl (j : json) : json_wf j -> same_json j j.
Proof.
  induction j as [| b | n | s | l IH | o IH] using json_nested_ind; intros Hwf;
    try by constructor.
  - apply same_list. apply json_wf_list in Hwf.
    induction l as [|x l IHl]; [constructor |].
    apply Forall_cons in IH as [Hx Hl]. apply Forall_cons in Hwf as [Hwx Hwl].
    constructor; [by apply Hx | by apply IHl].
  - apply json_wf_obj in Hwf as [Hkeys Hvalues].
    apply same_obj; [done | done |]. intros k.
    destruct (dict_get k o) as [v|] eqn:Hv; [| constructor].
    constructor. apply dict_get_elem_of in Hv.
    rewrite Forall_forall in IH. rewrite Forall_forall in Hvalues.
    apply (IH (k, v) Hv). by apply (Hvalues (k, v) Hv).
Qed.

Lemma json_wf_get (o : list (string * json)) (k : string) (v : json) :
  json_wf (JObj o) -> dict_get k o = Some v -> json_wf v.
Proof.
  intros Hwf Hv. apply json_wf_obj in Hwf as [_ Hvalues].
  rewrite Forall_forall in Hvalues. apply dict_get_elem_of in Hv.
  by apply (Hvalues (k, v) Hv).
Qed.

(** The last write to the installation-wide config in a trace. *)
Definition last_written (snova_path : string) (w : World) (text : string) : Prop :=
  last (trace w) = Some (EvWrite (common_site_config_path snova_path) text).

(** X19.  Two updates of the installation-wide config that set different keys
    can be made in either order: the file ends with the same text and
    holds the same data, and no other file differs.  The settings of the
    four hosts are such updates. *)
Theorem common_config_updates_commute
    (snova_path : string) (ddict1 ddict2 : list (string * json)) (w : World) :
  json_wf (JObj (installation_config snova_path w)) ->
  json_wf (JObj ddict1) ->
  json_wf (JObj ddict2) ->
  (forall k, k ∈ dict_keys ddict1 -> k ∉ dict_keys ddict2) ->
  let w12 :=
    (update_common_site_config ddict2 snova_path
       (update_common_site_config ddict1 snova_path w).2).2 in
  let w21 :=
    (update_common_site_config ddict1 snova_path
       (update_common_site_config ddict2 snova_path w).2).2 in
  (exists text, last_written snova_path w12 text /\ last_written snova_path w21 text) /\
  same_json (JObj (installation_config snova_path w12))
            (JObj (installation_config snova_path w21)) /\
  (forall path, path <> common_site_config_path snova_path ->
                files w12 !! path = files w21 !! path).
Proof.
  intros Hwf Hwf1 Hwf2 Hdisjoint. cbv zeta.
  set (c := installation_config snova_path w) in *.
  rewrite !update_common_site_config_run. cbn [fst snd].
  rewrite !installation_config_written. fold c.
  pose proof (proj1 (proj1 (json_wf_obj _) Hwf)) as Hc.
  pose proof (proj1 (proj1 (json_wf_obj _) Hwf1)) as H1.
  pose proof (proj1 (proj1 (json_wf_obj _) Hwf2)) as H2.
  assert (Hsame : same_json (JObj (dict_update (dict_update c ddict1) ddict2))
                            (JObj (dict_update (dict_update c ddict2) ddict1))).
  { apply same_obj; [by do 2 apply dict_update_wf .. |]. intros k.
    rewrite !dict_get_update by done.
    destruct (dict_get k ddict1) as [v1|] eqn:Hv1;
      destruct (dict_get k ddict2) as [v2|] eqn:Hv2.
    - exfalso. apply (Hdisjoint k).
      + apply dict_get_Some_keys. by rewrite Hv1.
      + apply dict_get_Some_keys. by rewrite Hv2.
    - constructor. by apply same_json_refl, (json_wf_get ddict1 k).
    - constructor. by apply same_json_refl, (json_wf_get ddict2 k).
    - destruct (dict_get k c) as [v|] eqn:Hv; constructor.
      by apply same_json_refl, (json_wf_get c k). }
  split_and!.
  - unfold last_written. cbn [trace]. rewrite !last_snoc. eexists. split; [reflexivity |].
    do 2 f_equal. unfold json_dump_sorted. symmetry. by apply dumps_sorted_same.
  - done.
  - intros path Hpath. cbn [files]. by rewrite !lookup_insert_ne.
Qed.

Lemma common_config_updates_commute_witness :
  let w12 := (set_redis_cache_host "cache.local" "."
                (set_mariadb_host (JStr "db.local") "." nested_world).2).2 in
  let w21 := (set_mariadb_host (JStr "db.local") "."
                (set_redis_cache_host "cache.local" "." nested_world).2).2 in
  (exists text, last_written "." w12 text /\ last_written "." w21 text) /\
  same_json (JObj (installation_config "." w12)) (JObj (installation_config "." w21)) /\
  (forall path, path <> common_site_config_path "." ->
                files w12 !! path = files w21 !! path).
Proof.
  apply (common_config_updates_commute "." [("db_host", JStr "db.local")]
           [("redis_cache", JStr "redis://cache.local")] nested_world).
  - vm_compute installation_config. solve_json_wf.
  - solve_json_wf.
  - solve_json_wf.
  - intros k Hk. apply list_elem_of_singleton in Hk as ->.
    intros Hin. apply list_elem_of_singleton in Hin. discriminate.
Defined.

(** What a setting of one key does: the call returns, the key holds the
    value, every other key and every other file is as it was. *)
Definition sets_only (snova_path key : string) (value : json) (c : M unit) : Prop :=
  forall w : World,
    (c w).1 = Ok tt /\
    dict_get key (installation_config snova_path (c w).2) = Some value /\
    (forall k, k <> key ->
       dict_get k (installation_config snova_path (c w).2)
       = dict_get k (installation_config snova_path w)) /\
    (forall path, path <> common_site_config_path snova_path ->
       files (c w).2 !! path = files w !! path).

Lemma update_common_site_config_sets_only (snova_path key : string) (value : json) :
  sets_only snova_path key value (update_common_site_config [(key, value)] snova_path).
Proof.
  intros w. rewrite update_common_site_config_run. cbn [fst snd].
  rewrite installation_config_written. split_and!.
  - done.
  - apply dict_get_set_eq.
  - intros k Hk. by apply dict_get_set_ne.
  - intros path Hpath. cbn [files]. by rewrite lookup_insert_ne.
Qed.

(** X20.  Each of the four host settings stores its value under its own key of
    the installation-wide config, the redis ones as a [redis://] URL, and
    changes nothing else. *)
Theorem host_settings_store_under_own_key (host : string) (db_host : json)
    (snova_path : string) :
  sets_only snova_path "db_host" db_host (set_mariadb_host db_host snova_path) /\
  sets_only snova_path "redis_cache" (JStr ("redis://" +:+ host))
    (set_redis_cache_host host snova_path) /\
  sets_only snova_path "redis_queue" (JStr ("redis://" +:+ host))
    (set_redis_queue_host host snova_path) /\
  sets_only snova_path "redis_socketio" (JStr ("redis://" +:+ host))
    (set_redis_socketio_host host snova_path).
Proof. split_and!; apply update_common_site_config_sets_only. Qed.

(** ** snova/utils/snova.py: the branch check *)

(** [app] is installed and on the branch [master]. *)
Definition on_master (env : Env) (app : string) : Prop :=
  app ∈ apps env /\ current_branch env app = "master".

Lemma check_branches_run (env : Env) (tracked : list string) (w : World) :
  check_branches env tracked w =
    if bool_decide (Exists (fun app => current_branch env app = "master") tracked)
    then (Raise (SystemExit 1),
          mkWorld (files w) (trace w ++ [EvPrint msg_master_renamed]))
    else (Ok tt, w).
Proof.
  induction tracked as [|app rest IH]; cbn [check_branches].
  - rewrite bool_decide_eq_false_2; [done |]. by intros H%Exists_nil.
  - destruct (String.eqb (current_branch env app) "master") eqn:Hb.
    + apply String.eqb_eq in Hb.
      rewrite bool_decide_eq_true_2 by (by apply Exists_cons_hd). done.
    + apply String.eqb_neq in Hb. rewrite IH.
      destruct (decide (Exists (fun app => current_branch env app = "master") rest)).
      * rewrite !bool_decide_eq_true_2; [done | by apply Exists_cons_tl | done].
      * rewrite !bool_decide_eq_false_2; [done | | done].
        by intros [?|?]%Exists_cons.
Qed.

(** X21.  [validate_branch] stops the run, with the notice and exit status 1,
    exactly when sparrow or shopper is installed and on [master]; any other
    app on [master] does not matter, and nothing is written. *)
Theorem validate_branch_stops_tracked_apps_on_master (env : Env) (w : World) :
  (on_master env "sparrow" \/ on_master env "shopper" ->
   validate_branch env w =
     (Raise (SystemExit 1),
      mkWorld (files w) (trace w ++ [EvPrint msg_master_renamed]))) /\
  (~ on_master env "sparrow" -> ~ on_master env "shopper" ->
   validate_branch env w = (Ok tt, w)).
Proof.
  unfold validate_branch, on_master. rewrite check_branches_run.
  split.
  - intros Hblocked. rewrite bool_decide_eq_true_2; [done |].
    apply Exists_exists.
    destruct Hblocked as [[Hin Hb] | [Hin Hb]]; eexists; (split; [| exact Hb]);
      apply list_elem_of_filter; (split; [by apply bool_decide_pack |]).
    + apply list_elem_of_here.
    + apply list_elem_of_further, list_elem_of_here.
  - intros Hsparrow Hshopper. rewrite bool_decide_eq_false_2; [done |].
    intros (app & Hin & Hb)%Exists_exists.
    apply list_elem_of_filter in Hin as [Hinst Htracked].
    apply bool_decide_unpack in Hinst.
    apply elem_of_cons in Htracked as [-> | Htracked]; [by apply Hsparrow |].
    apply list_elem_of_singleton in Htracked as ->. by apply Hshopper.
Qed.

(** [env] with a custom app on [master] beside sparrow on [develop]. *)
Definition custom_app_env : Env :=
  mkEnv (cwd calm_env) (snova_name calm_env) (sites calm_env) ["sparrow"; "custom_app"]
    (fun app => if String.eqb app "custom_app" then "master" else "develop")
    (version_upgrade calm_env) (which calm_env)
    (confirmed calm_env) (patches_run calm_env) (backup_all_sites calm_env)
    (pull_apps calm_env) (setup_requirements calm_env) (migrate_site calm_env)
    (build calm_env) (redis_generate_config calm_env)
    (generate_supervisor_config calm_env) (make_nginx_conf calm_env) (reload calm_env)
    (cmd_output calm_env) (exit_status calm_env).

Lemma validate_branch_stops_tracked_apps_on_master_witness :
  "custom_app" ∈ apps custom_app_env /\
  current_branch custom_app_env "custom_app" = "master" /\
  validate_branch custom_app_env (mkWorld ∅ []) = (Ok tt, mkWorld ∅ []).
Proof.
  split; [apply list_elem_of_further, list_elem_of_here |].
  split; [reflexivity |].
  apply (proj2 (validate_branch_stops_tracked_apps_on_master custom_app_env (mkWorld ∅ []))).
  - intros [_ Hb]. discriminate.
  - intros [Hin _]. vm_compute in Hin.
    repeat (apply elem_of_cons in Hin as [Hin | Hin]; [discriminate |]).
    by apply elem_of_nil in Hin.
Defined.

(** ** snova/utils/snova.py: the merge of the apps' package.json *)

(** [value], of the app at hand, does not go with [stored], of the apps
    before it: a dict onto something that is no dict, or a list onto
    something that is no list. *)
Definition shapes_clash (stored value : json) : bool :=
  match value, stored with
  | JObj _, JObj _ => false
  | JObj _, _ => true
  | JList _, JList _ => false
  | JList _, _ => true
  | _, _ => false
  end.

(** What is stored under a key that both have, when the shapes go
    together. *)
Definition merged_value (stored value : json) : json :=
  match value, stored with
  | JObj value, JObj stored => JObj (dict_update stored value)
  | JList value, JList stored => JList (stored ++ value)
  | _, _ => value
  end.

Lemma merge_entry_fits (package_json : list (string * json)) (key : string) (value : json) :
  (forall stored, dict_get key package_json = Some stored ->
                  shapes_clash stored value = false) ->
  merge_entry package_json key value =
    Ok (dict_set key
          (match dict_get key package_json with
           | Some stored => merged_value stored value
           | None => value
           end) package_json).
Proof.
  unfold merge_entry. intros Hfits.
  destruct (dict_get key package_json) as [stored|]; [| done].
  specialize (Hfits stored eq_refl).
  by destruct value, stored.
Qed.

Lemma merge_entry_clash (package_json : list (string * json)) (key : string)
    (value stored : json) :
  dict_get key package_json = Some stored ->
  shapes_clash stored value = true ->
  exists msg, merge_entry package_json key value = Raise (AttributeError msg).
Proof.
  unfold merge_entry. intros -> Hclash.
  destruct value, stored; try discriminate; by eexists.
Qed.

Lemma dict_get_head {V} (key k : string) (v : V) (rest : list (string * V)) :
  dict_get key ((k, v) :: rest) = if decide (k = key) then Some v else dict_get key rest.
Proof. done. Qed.

(** X22.  Merging an app's package.json into what the apps before it gave fails
    exactly when, under some key that both have, the shapes clash: then
    the [AttributeError] of the missing method comes out; otherwise the
    merge gives a result. *)
Theorem npm_merge_fails_exactly_on_a_clash
    (app_package_json package_json : list (string * json)) :
  dict_wf app_package_json ->
  let clash :=
    exists key value stored,
      (key, value) ∈ app_package_json /\
      dict_get key package_json = Some stored /\
      shapes_clash stored value = true in
  (clash -> exists msg,
     merge_entries app_package_json package_json = Raise (AttributeError msg)) /\
  (~ clash -> exists merged, merge_entries app_package_json package_json = Ok merged).
Proof.
  cbv zeta. revert package_json.
  induction app_package_json as [|[k v] rest IH]; intros package_json Hwf.
  - split.
    + intros (key & value & stored & Hin & _). by apply elem_of_nil in Hin.
    + intros _. by eexists.
  - apply NoDup_cons in Hwf as [Hfresh Hwf]. cbn [merge_entries].
    destruct (dict_get k package_json) as [stored|] eqn:Hstored.
    + destruct (shapes_clash stored v) eqn:Hclash.
      * destruct (merge_entry_clash package_json k v stored Hstored Hclash) as [msg Hmsg].
        rewrite Hmsg. split; [intros _; by exists msg |].
        intros Hno. exfalso. apply Hno. exists k, v, stored.
        split; [apply list_elem_of_here | done].
      * rewrite merge_entry_fits by (intros s; rewrite Hstored; by intros [= <-]).
        rewrite Hstored. cbn [and_then].
        specialize (IH (dict_set k (merged_value stored v) package_json) Hwf)
          as [IHclash IHfits].
        assert (Hrest : forall key, key ∈ dict_keys rest ->
                  dict_get key (dict_set k (merged_value stored v) package_json)
                  = dict_get key package_json).
        { intros key Hkey. apply dict_get_set_ne. by intros ->. }
        split.
        -- intros (key & value & s & Hin & Hs & Hc).
           apply elem_of_cons in Hin as [[= -> ->] | Hin]; [congruence |].
           apply IHclash. exists key, value, s. split; [done |]. split; [| done].
           rewrite Hrest; [done |]. apply list_elem_of_fmap. by exists (key, value).
        -- intros Hno. apply IHfits. intros (key & value & s & Hin & Hs & Hc).
           apply Hno. exists key, value, s. split; [by apply list_elem_of_further |].
           split; [| done]. rewrite <- Hrest; [done |].
           apply list_elem_of_fmap. by exists (key, value).
    + rewrite merge_entry_fits by (intros s; by rewrite Hstored).
      rewrite Hstored. cbn [and_then].
      specialize (IH (dict_set k v package_json) Hwf) as [IHclash IHfits].
      assert (Hrest : forall key, key ∈ dict_keys rest ->
                dict_get key (dict_set k v package_json) = dict_get key package_json).
      { intros key Hkey. apply dict_get_set_ne. by intros ->. }
      split.
      * intros (key & value & s & Hin & Hs & Hc).
        apply elem_of_cons in Hin as [[= -> ->] | Hin]; [congruence |].
        apply IHclash. exists key, value, s. split; [done |]. split; [| done].
        rewrite Hrest; [done |]. apply list_elem_of_fmap. by exists (key, value).
      * intros Hno. apply IHfits. intros (key & value & s & Hin & Hs & Hc).
        apply Hno. exists key, value, s. split; [by apply list_elem_of_further |].
        split; [| done]. rewrite <- Hrest; [done |].
        apply list_elem_of_fmap. by exists (key, value).
Qed.

Lemma npm_merge_fails_exactly_on_a_clash_witness :
  exists msg,
    merge_entries
      [("name", JStr "shopper"); ("scripts", JObj [("build", JStr "rollup")])]
      [("name", JStr "sparrow"); ("scripts", JList [JStr "build"])]
    = Raise (AttributeError msg).
Proof.
  apply (proj1 (npm_merge_fails_exactly_on_a_clash
                  [("name", JStr "shopper"); ("scripts", JObj [("build", JStr "rollup")])]
                  [("name", JStr "sparrow"); ("scripts", JList [JStr "build"])]
                  ltac:(solve_dict_wf))).
  exists "scripts", (JObj [("build", JStr "rollup")]), (JList [JStr "build"]).
  split; [apply list_elem_of_further, list_elem_of_here |]. by split.
Defined.

(** X23.  When the merge of an app's package.json succeeds, a key the app does
    not have keeps what was stored, a key only the app has gets the app's
    value, and under a key both have a dict is updated with the app's dict,
    a list is extended by the app's list and anything else is replaced by
    the app's value: the app that comes later wins.  No key is stored
    twice. *)
Theorem npm_merge_later_app_wins
    (app_package_json package_json merged : list (string * json)) :
  dict_wf app_package_json ->
  dict_wf package_json ->
  merge_entries app_package_json package_json = Ok merged ->
  dict_wf merged /\
  forall key,
    dict_get key merged =
      match dict_get key app_package_json, dict_get key package_json with
      | None, stored => stored
      | Some value, None => Some value
      | Some value, Some stored => Some (merged_value stored value)
      end.
Proof.
  revert package_json.
  induction app_package_json as [|[k v] rest IH]; intros package_json Hwf Hpj Hrun.
  - cbn in Hrun. injection Hrun as <-. split; [done |]. intros key. simpl.
    by destruct (dict_get key package_json).
  - apply NoDup_cons in Hwf as [Hfresh Hwf]. cbn [merge_entries] in Hrun.
    assert (Hfits : forall stored, dict_get k package_json = Some stored ->
                                   shapes_clash stored v = false).
    { intros stored Hstored. destruct (shapes_clash stored v) eqn:Hclash; [| done].
      destruct (merge_entry_clash package_json k v stored Hstored Hclash) as [msg Hmsg].
      rewrite Hmsg in Hrun. discriminate. }
    rewrite (merge_entry_fits _ _ _ Hfits) in Hrun. cbn [and_then] in Hrun.
    apply IH in Hrun as [Hmerged Hget]; [| done | by apply dict_set_wf].
    split; [done |]. intros key. rewrite Hget, dict_get_head.
    destruct (decide (k = key)) as [<-|Hne].
    + apply (dict_get_None_keys k rest) in Hfresh. rewrite Hfresh.
      rewrite dict_get_set_eq. by destruct (dict_get k package_json).
    + by rewrite dict_get_set_ne.
Qed.

Lemma npm_merge_later_app_wins_witness :
  let merged :=
    [("name", JStr "shopper");
     ("dependencies", JObj [("vue", JStr "3.2"); ("rollup", JStr "2.0")]);
     ("files", JList [JStr "a.js"; JStr "b.js"])] in
  dict_wf merged /\
  forall key,
    dict_get key merged =
      match dict_get key
              [("name", JStr "shopper");
               ("dependencies", JObj [("vue", JStr "3.2"); ("rollup", JStr "2.0")]);
               ("files", JList [JStr "b.js"])],
            dict_get key
              [("name", JStr "sparrow");
               ("dependencies", JObj [("vue", JStr "2.6")]);
               ("files", JList [JStr "a.js"])] with
      | None, stored => stored
      | Some value, None => Some value
      | Some value, Some stored => Some (merged_value stored value)
      end.
Proof.
  apply (npm_merge_later_app_wins
           [("name", JStr "shopper");
            ("dependencies", JObj [("vue", JStr "3.2"); ("rollup", JStr "2.0")]);
            ("files", JList [JStr "b.js"])]
           [("name", JStr "sparrow");
            ("dependencies", JObj [("vue", JStr "2.6")]);
            ("files", JList [JStr "a.js"])]).
  - solve_dict_wf.
  - solve_dict_wf.
  - reflexivity.
Defined.
